(** * Car_Rental: the rental controller and its conflict check

    A shallow embedding of the rental part of the server:
    - [server/models/Rental.js]      the schema, its defaults and hooks,
    - [server/models/Car.js]         the car status read by the controller,
    - the rental controller (required by the routes as
      [controllers/rentalController])  [createRental], [updateRental],
                                     [deleteRental],
    - [server/middleware/sanitize.js] [rentalValidation] and
                                     [handleValidationErrors],
    - [server/routes/rentalRoutes.js] the chains mounted on POST, PUT and
                                     DELETE.

    Dates are JavaScript time values (milliseconds since the epoch, [Z]);
    an Invalid Date is [None].  A date field of a request body is a
    JavaScript value, of which the code reads its truthiness and what
    [new Date] makes of it.  The MongoDB collections are finite maps from
    ObjectIds to documents. *)

From Stdlib Require Import ZArith NArith String Ascii List Bool Lia.
From stdpp Require Import base option list gmap fin_maps strings.

Local Open Scope Z_scope.

(** ** Dates *)

(** [new Date(v)]: a time value, or [None] for an Invalid Date
    ([isNaN(d.getTime())]). *)
Definition Date := option Z.

Definition msPerDay : Z := 86400000.

(** The server's clock and zone: [now] is what [new Date()] returns, [tz] the
    offset of local time from UTC in milliseconds (taken as fixed: no change
    of offset between the instants compared). *)
Record Server := { now : Z; tz : Z }.

(** [new Date(d.getFullYear(), d.getMonth(), d.getDate())]: local midnight of
    the local calendar day of [t]. *)
Definition dateOnly (srv : Server) (t : Z) : Z :=
  ((t + tz srv) / msPerDay) * msPerDay - tz srv.

(** ** The values of a date field *)

(** What [req.body] holds in [startDate] or [endDate].  JSON gives null, a
    boolean, a number or a string; the [toDate()] of the route's validators
    replaces a string by a Date object, or by null when [Date.parse] cannot
    read it.  Of a string the code reads two things, whether it is empty and
    what [new Date] makes of it: [Empty] is the empty string, [Text d] any
    other string, [d] being its reading by [new Date] ([None] when it is not
    a date).  A number is a whole number of milliseconds. *)
Inductive Value :=
| Null
| Boolean (b : bool)
| Numeric (z : Z)
| Empty
| Text (d : Date)
| DateObject (t : Z).

(** The largest time value of a Date, 8.64e15 ms on either side of the
    epoch. *)
Definition maxTime : Z := 8640000000000000.

(** [new Date(z)] for a number: an Invalid Date outside the range. *)
Definition timeClip (z : Z) : Date :=
  if Z.abs z <=? maxTime then Some z else None.

(** The truthiness of a field ([None] is [undefined]): null, false, 0 and
    the empty string are falsy, and so is [undefined]; a Date object is
    truthy like every object. *)
Definition truthy (v : option Value) : bool :=
  match v with
  | None => false
  | Some Null => false
  | Some (Boolean b) => b
  | Some (Numeric z) => negb (z =? 0)
  | Some Empty => false
  | Some (Text _) => true
  | Some (DateObject _) => true
  end.

(** ** ObjectIds *)

(** An ObjectId is a 96-bit value; requests carry it as 24 hexadecimal
    digits. *)
Definition ObjectId := N.

Definition hexDigit (c : ascii) : option N :=
  let n := N_of_ascii c in
  if ((48 <=? n) && (n <=? 57))%N then Some (n - 48)%N
  else if ((97 <=? n) && (n <=? 102))%N then Some (n - 87)%N
  else if ((65 <=? n) && (n <=? 70))%N then Some (n - 55)%N
  else None.

Fixpoint parseHex (s : string) (acc : N) : option N :=
  match s with
  | EmptyString => Some acc
  | String c s' =>
      match hexDigit c with
      | Some d => parseHex s' (16 * acc + d)%N
      | None => None
      end
  end.

(** The cast of a request string to an ObjectId (mongoose casts the string it
    is given in a query or a document the same way). *)
Definition parseObjectId (s : string) : option ObjectId :=
  if Nat.eqb (String.length s) 24 then parseHex s 0%N else None.

(** [utils/validators.js]: [mongoose.Types.ObjectId.isValid(id)], on the
    strings a JSON body carries. *)
Definition isValidObjectId (s : string) : bool :=
  match parseObjectId s with Some _ => true | None => false end.

(** [isValidObjectId(v)] where [v] may be [undefined]. *)
Definition isValidObjectId_opt (v : option string) : bool :=
  match v with Some s => isValidObjectId s | None => false end.

Definition hexChar (d : N) : ascii :=
  ascii_of_N (if (d <? 10)%N then 48 + d else 87 + d)%N.

Fixpoint toHex (k : nat) (n : N) (acc : string) : string :=
  match k with
  | O => acc
  | S k' => toHex k' (n / 16)%N (String (hexChar (n mod 16)%N) acc)
  end.

(** [oid.toString()]: 24 lower-case hexadecimal digits. *)
Definition toString (i : ObjectId) : string := toHex 24 i EmptyString.

(** ** Documents *)

(** [rentalSchema.status]: enum ['active', 'completed', 'cancelled']. *)
Inductive Status := active | completed | cancelled.

(** [carSchema.status]: enum ['available', 'maintenance']. *)
Inductive CarStatus := available | maintenance.

#[global] Instance Status_eq_dec : EqDecision Status.
Proof. solve_decision. Defined.

#[global] Instance CarStatus_eq_dec : EqDecision CarStatus.
Proof. solve_decision. Defined.

Definition parseStatus (s : string) : option Status :=
  if String.eqb s "active" then Some active
  else if String.eqb s "completed" then Some completed
  else if String.eqb s "cancelled" then Some cancelled
  else None.

Module Car.
(** The controller reads one field of a car, its status; the descriptive
    fields (brand, model, ...) play no part here. *)
Record t := mk { status : CarStatus }.
End Car.

Module Rental.
(** A stored rental ([rentalSchema]). [totalCost] is an amount in the
    smallest currency unit. *)
Record t := mk {
  car : ObjectId;
  client : ObjectId;
  employee : ObjectId;
  startDate : Z;
  endDate : Z;
  totalCost : Z;
  status : Status
}.
End Rental.

(** A JavaScript number as the cost checks see it. *)
Inductive Number := NaN | Num (z : Z).

Definition isNaN (n : Number) : bool :=
  match n with NaN => true | Num _ => false end.

Definition ltZero (n : Number) : bool :=
  match n with NaN => false | Num z => z <? 0 end.

Module Body.
(** [req.body]: every field may be missing ([None], [undefined] in the
    source).  The ids and the status are strings, as JSON carries them. *)
Record t := mk {
  car : option string;
  client : option string;
  employee : option string;
  startDate : option Value;
  endDate : option Value;
  totalCost : option Number;
  status : option string
}.
End Body.

(** The two collections. *)
Record Store := {
  cars : gmap ObjectId Car.t;
  rentals : gmap ObjectId Rental.t
}.

Definition setRentals (st : Store) (m : gmap ObjectId Rental.t) : Store :=
  {| cars := cars st; rentals := m |}.

(** ** Errors *)

(** One constructor per error the handlers pass to [next], plus the two ways
    mongoose rejects a document and the 400 of [handleValidationErrors]. *)
Inductive Error :=
| InvalidCarId
| InvalidClientId
| InvalidEmployeeId
| InvalidRentalId
| InvalidTotalCost
| InvalidDateFormat
| StartInPast
| StartInPastActive
| EndNotAfterStart
| CarNotFound
| CarInMaintenance
| AlreadyBooked
| RentalNotFound
| CastError
| ValidationError
| ValidationFailed.

(** The message of each error (for the two errors of mongoose, whose own
    text names the path and the value, a summary). *)
Definition message (e : Error) : string :=
  match e with
  | InvalidCarId => "Invalid car ID"
  | InvalidClientId => "Invalid client ID"
  | InvalidEmployeeId => "Invalid employee ID"
  | InvalidRentalId => "Invalid rental ID"
  | InvalidTotalCost => "Total cost must be a positive number"
  | InvalidDateFormat => "Invalid date format"
  | StartInPast => "Start date cannot be in the past"
  | StartInPastActive => "Start date cannot be in the past for active rentals"
  | EndNotAfterStart => "End date must be after start date"
  | CarNotFound => "Car not found"
  | CarInMaintenance => "Car is currently in maintenance"
  | AlreadyBooked => "Car is already booked for the selected dates"
  | RentalNotFound => "Rental not found"
  | CastError => "Cast failed"
  | ValidationError => "Validation failed"
  | ValidationFailed => "Validation failed"
  end.

(** The spec's error taxonomy (section 7), and where each error of the code
    falls in it. *)
Inductive ErrorKind :=
| InvalidInterval | InvalidTransition | ResourceUnavailable | Conflict
| NotFound | InvalidField.

Definition kindOf (e : Error) : ErrorKind :=
  match e with
  | InvalidDateFormat | StartInPast | StartInPastActive | EndNotAfterStart =>
      InvalidInterval
  | CarInMaintenance => ResourceUnavailable
  | AlreadyBooked => Conflict
  | CarNotFound | RentalNotFound => NotFound
  | _ => InvalidField
  end.

(** What a handler answers: the 201 of [createRental] with the stored
    document, the 200 of [updateRental] with what [findByIdAndUpdate]
    returned, the 200 of [deleteRental], or the error passed to [next]. *)
Inductive Result :=
| Created (i : ObjectId) (r : Rental.t)
| Updated (i : ObjectId) (r : option Rental.t)
| Deleted
| Err (e : Error).

(** Early returns: [x <- c ;; k] stops at the first error. *)
Notation "x <- c ;; k" :=
  (match c with inl e => inl e | inr x => k end)
  (at level 100, c at next level, right associativity).

(** ** The mongoose layer *)

Module Patch.
(** A request body after mongoose has cast it to the schema's types: the
    paths the body sets. *)
Record t := mk {
  car : option ObjectId;
  client : option ObjectId;
  employee : option ObjectId;
  startDate : option Z;
  endDate : option Z;
  totalCost : option Z;
  status : option Status
}.
End Patch.

Definition castId (v : option string) : Error + option ObjectId :=
  match v with
  | None => inr None
  | Some s =>
      match parseObjectId s with
      | Some i => inr (Some i)
      | None => inl CastError
      end
  end.

(** The cast of a value to the schema's Date: null and the empty string
    become null ([Some None]), a Date object is kept, a boolean is refused,
    a number or a string goes through [new Date] and is refused when that
    gives an Invalid Date.  (A string that [new Date] does not read has been
    refused by the controller before it reaches the cast.) *)
Definition castDate (v : option Value) : Error + option (option Z) :=
  match v with
  | None => inr None
  | Some Null => inr (Some None)
  | Some Empty => inr (Some None)
  | Some (DateObject t) => inr (Some (Some t))
  | Some (Boolean _) => inl CastError
  | Some (Numeric z) =>
      match timeClip z with
      | Some t => inr (Some (Some t))
      | None => inl CastError
      end
  | Some (Text d) =>
      match d with
      | Some t => inr (Some (Some t))
      | None => inl CastError
      end
  end.

(** [totalCost]: the cast to a Number. *)
Definition castCost (v : option Number) : Error + option Z :=
  match v with
  | None => inr None
  | Some NaN => inl CastError
  | Some (Num z) => inr (Some z)
  end.

(** [required: true], on a path the body sets: null is refused. *)
Definition required (v : option (option Z)) : Error + option Z :=
  match v with
  | None => inr None
  | Some None => inl ValidationError
  | Some (Some t) => inr (Some t)
  end.

(** [min: 0] of [totalCost]. *)
Definition minCost (v : option Z) : Error + option Z :=
  match v with
  | Some z => if z <? 0 then inl ValidationError else inr (Some z)
  | None => inr None
  end.

(** [status]: a String within the enum. *)
Definition castStatus (v : option string) : Error + option Status :=
  match v with
  | None => inr None
  | Some s =>
      match parseStatus s with
      | Some x => inr (Some x)
      | None => inl ValidationError
      end
  end.

(** Casting and validating the paths a body sets (what both [Rental.create]
    and [findByIdAndUpdate] with [runValidators: true] do first): every path
    is cast, which may fail with a CastError, and then the validators of the
    schema run on the paths that are set. *)
Definition castBody (b : Body.t) : Error + Patch.t :=
  c <- castId (Body.car b) ;;
  cl <- castId (Body.client b) ;;
  em <- castId (Body.employee b) ;;
  sd <- castDate (Body.startDate b) ;;
  ed <- castDate (Body.endDate b) ;;
  tc <- castCost (Body.totalCost b) ;;
  sd <- required sd ;;
  ed <- required ed ;;
  tc <- minCost tc ;;
  s <- castStatus (Body.status b) ;;
  inr (Patch.mk c cl em sd ed tc s).

(** A new document: the required paths must be set, [status] defaults to
    'active'. *)
Definition newDocument (p : Patch.t) : Error + Rental.t :=
  match Patch.car p, Patch.client p, Patch.employee p,
        Patch.startDate p, Patch.endDate p, Patch.totalCost p with
  | Some c, Some cl, Some em, Some sd, Some ed, Some tc =>
      inr (Rental.mk c cl em sd ed tc (default active (Patch.status p)))
  | _, _, _, _, _, _ => inl ValidationError
  end.

(** [rentalSchema.pre('save')]: the end must be after the start. *)
Definition preSave (r : Rental.t) : Error + unit :=
  if Rental.endDate r <=? Rental.startDate r then inl EndNotAfterStart
  else inr tt.

(** [new Date(v)] for a body field: [new Date(undefined)] and
    [new Date('')] are Invalid Dates, [new Date(null)] and [new Date(false)]
    are the epoch, [new Date(true)] is one millisecond later. *)
Definition newDate (v : option Value) : Date :=
  match v with
  | None => None
  | Some Null => Some 0
  | Some (Boolean b) => Some (if b then 1 else 0)
  | Some (Numeric z) => timeClip z
  | Some Empty => None
  | Some (Text d) => d
  | Some (DateObject t) => Some t
  end.

(** [rentalSchema.pre(['findOneAndUpdate', 'findByIdAndUpdate'])]: checked
    only under [data.startDate && data.endDate]; a comparison with an
    Invalid Date is false. *)
Definition preUpdate (b : Body.t) : Error + unit :=
  if truthy (Body.startDate b) && truthy (Body.endDate b) then
    match newDate (Body.startDate b), newDate (Body.endDate b) with
    | Some sd, Some ed =>
        if ed <=? sd then inl EndNotAfterStart else inr tt
    | _, _ => inr tt
    end
  else inr tt.

(** The document after the update: each path the body sets is overwritten,
    the others are kept. *)
Definition applyPatch (p : Patch.t) (r : Rental.t) : Rental.t :=
  Rental.mk
    (default (Rental.car r) (Patch.car p))
    (default (Rental.client r) (Patch.client p))
    (default (Rental.employee r) (Patch.employee p))
    (default (Rental.startDate r) (Patch.startDate p))
    (default (Rental.endDate r) (Patch.endDate p))
    (default (Rental.totalCost r) (Patch.totalCost p))
    (default (Rental.status r) (Patch.status p)).

(** [Rental.create(req.body)]: the new document gets an ObjectId no stored
    rental has.  A path of a new document that cannot be cast is reported
    by the validation of the document, as a ValidationError like the
    others. *)
Definition Rental_create (b : Body.t) (m : gmap ObjectId Rental.t)
  : Error + (ObjectId * Rental.t * gmap ObjectId Rental.t) :=
  p <- match castBody b with
       | inl _ => inl ValidationError
       | inr p => inr p
       end ;;
  r <- newDocument p ;;
  _ <- preSave r ;;
  let i := fresh (dom m) in
  inr (i, r, <[i := r]> m).

(** [Rental.findByIdAndUpdate(id, req.body, {new: true, runValidators: true})]:
    [None] when no rental has this id. *)
Definition Rental_findByIdAndUpdate (i : ObjectId) (b : Body.t)
    (m : gmap ObjectId Rental.t)
  : Error + (option Rental.t * gmap ObjectId Rental.t) :=
  _ <- preUpdate b ;;
  p <- castBody b ;;
  match m !! i with
  | None => inr (None, m)
  | Some r => let r' := applyPatch p r in inr (Some r', <[i := r']> m)
  end.

(** [Rental.find(query)]: the stored rentals the query selects. *)
Definition Rental_find (q : ObjectId -> Rental.t -> bool)
    (m : gmap ObjectId Rental.t) : list (ObjectId * Rental.t) :=
  List.filter (fun p => q (fst p) (snd p)) (map_to_list m).

(** ** The conflict query *)

(** The [$or] of both conflict queries, on one stored rental:
    - the new rental starts during the existing one,
    - the new rental ends during the existing one,
    - the new rental encompasses the existing one. *)
Definition overlapQuery (start end_ : Z) (r : Rental.t) : bool :=
  ((Rental.startDate r <=? start) && (Rental.endDate r >=? start))
  || ((Rental.startDate r <=? end_) && (Rental.endDate r >=? end_))
  || ((Rental.startDate r >=? start) && (Rental.endDate r <=? end_)).

(** The query of [createRental]:
    [{car: carId, status: 'active', $or: [...]}]. *)
Definition createQuery (carId : ObjectId) (start end_ : Z)
    (_ : ObjectId) (r : Rental.t) : bool :=
  bool_decide (Rental.car r = carId)
  && bool_decide (Rental.status r = active)
  && overlapQuery start end_ r.

(** The query of [updateRental]:
    [{_id: {$ne: req.params.id}, car: targetCarId, status: 'active',
      $or: [...]}]. *)
Definition updateQuery (self carId : ObjectId) (start end_ : Z)
    (i : ObjectId) (r : Rental.t) : bool :=
  bool_decide (i <> self)
  && bool_decide (Rental.car r = carId)
  && bool_decide (Rental.status r = active)
  && overlapQuery start end_ r.

(** ** The controller *)

(** [totalCost !== undefined && (isNaN(totalCost) || totalCost < 0)]. *)
Definition costRejected (v : option Number) : bool :=
  match v with
  | Some n => isNaN n || ltZero n
  | None => false
  end.

(** The truthiness of an id field: a string other than the empty one. *)
Definition present (v : option string) : bool :=
  match v with
  | Some s => negb (String.eqb s EmptyString)
  | None => false
  end.

(** [v && !isValidObjectId(v)]. *)
Definition idRejected (v : option string) : bool :=
  present v && negb (isValidObjectId_opt v).

(** [new Date(v || stored)], [stored] being a date of the stored rental. *)
Definition orStored (v : option Value) (stored : Z) : Date :=
  if truthy v then newDate v else Some stored.

(** [createRental], up to the answer of the conflict query: the checks of the
    request and the two reads of the store. *)
Definition createRental_check (srv : Server) (b : Body.t) (st : Store)
  : Error + unit :=
  if negb (isValidObjectId_opt (Body.car b)) then inl InvalidCarId else
  if negb (isValidObjectId_opt (Body.client b)) then inl InvalidClientId else
  if negb (isValidObjectId_opt (Body.employee b)) then inl InvalidEmployeeId
  else
  if costRejected (Body.totalCost b) then inl InvalidTotalCost else
  let today := dateOnly srv (now srv) in
  match newDate (Body.startDate b), newDate (Body.endDate b) with
  | Some start, Some end_ =>
      let startDateOnly := dateOnly srv start in
      if startDateOnly <? today then inl StartInPast else
      if end_ <=? start then inl EndNotAfterStart else
      (* Car.findById(carId) casts the string, valid by the first check *)
      match Body.car b ≫= parseObjectId with
      | None => inl CastError
      | Some carId =>
          match cars st !! carId with
          | None => inl CarNotFound
          | Some car =>
              if bool_decide (Car.status car = maintenance)
              then inl CarInMaintenance
              else
                let overlappingRentals :=
                  Rental_find (createQuery carId start end_) (rentals st) in
                if (0 <? length overlappingRentals)%nat then inl AlreadyBooked
                else inr tt
          end
      end
  | _, _ => inl InvalidDateFormat
  end.

(** [createRental], from [Rental.create(req.body)] on: the write. *)
Definition createRental_commit (b : Body.t) (st : Store) : Result * Store :=
  match Rental_create b (rentals st) with
  | inl e => (Err e, st)
  | inr (i, r, m) => (Created i r, setRentals st m)
  end.

(** [createRental]: POST /api/rentals. *)
Definition createRental (srv : Server) (b : Body.t) (st : Store)
  : Result * Store :=
  match createRental_check srv b st with
  | inl e => (Err e, st)
  | inr _ => createRental_commit b st
  end.

(** The block of [updateRental] under [if (startDate || endDate)]. *)
Definition updateRental_dates (srv : Server) (id : ObjectId)
    (oldRental : Rental.t) (b : Body.t) (st : Store) : Error + unit :=
  if truthy (Body.startDate b) || truthy (Body.endDate b)
  then
    let today := dateOnly srv (now srv) in
    match orStored (Body.startDate b) (Rental.startDate oldRental),
          orStored (Body.endDate b) (Rental.endDate oldRental) with
    | Some start, Some end_ =>
        let startDateOnly := dateOnly srv start in
        if bool_decide (Rental.status oldRental = active)
           && (startDateOnly <? today)
        then inl StartInPastActive else
        if end_ <=? start then inl EndNotAfterStart else
        (* targetCarId = carId || oldRental.car, cast by the query *)
        targetCarId <-
          (if present (Body.car b) then
             match Body.car b ≫= parseObjectId with
             | Some c => inr c
             | None => inl CastError
             end
           else inr (Rental.car oldRental)) ;;
        let overlappingRentals :=
          Rental_find (updateQuery id targetCarId start end_) (rentals st) in
        if (0 <? length overlappingRentals)%nat then inl AlreadyBooked
        else inr tt
    | _, _ => inl InvalidDateFormat
    end
  else inr tt.

(** The block of [updateRental] under
    [if (carId && carId !== oldRental.car.toString())]. *)
Definition updateRental_car (oldRental : Rental.t) (b : Body.t) (st : Store)
  : Error + unit :=
  match Body.car b with
  | Some carId =>
      if present (Some carId)
         && negb (String.eqb carId (toString (Rental.car oldRental)))
      then
        match parseObjectId carId ≫= (cars st !!.) with
        | None => inl CarNotFound
        | Some car =>
            if bool_decide (Car.status car = maintenance)
            then inl CarInMaintenance
            else inr tt
        end
      else inr tt
  | None => inr tt
  end.

(** [updateRental], the checks between the load of [oldRental] and the
    write. *)
Definition updateRental_check (srv : Server) (id : ObjectId)
    (oldRental : Rental.t) (b : Body.t) (st : Store) : Error + unit :=
  _ <- updateRental_dates srv id oldRental b st ;;
  if costRejected (Body.totalCost b) then inl InvalidTotalCost else
  if idRejected (Body.car b) then inl InvalidCarId else
  if idRejected (Body.client b) then inl InvalidClientId else
  if idRejected (Body.employee b) then inl InvalidEmployeeId else
  updateRental_car oldRental b st.

(** [updateRental]: PUT /api/rentals/:id. *)
Definition updateRental (srv : Server) (id : string) (b : Body.t)
    (st : Store) : Result * Store :=
  match parseObjectId id with
  | None => (Err InvalidRentalId, st)
  | Some rid =>
      match rentals st !! rid with
      | None => (Err RentalNotFound, st)
      | Some oldRental =>
          match updateRental_check srv rid oldRental b st with
          | inl e => (Err e, st)
          | inr _ =>
              match Rental_findByIdAndUpdate rid b (rentals st) with
              | inl e => (Err e, st)
              | inr (r, m) => (Updated rid r, setRentals st m)
              end
          end
      end
  end.

(** [deleteRental]: DELETE /api/rentals/:id. *)
Definition deleteRental (id : string) (st : Store) : Result * Store :=
  match parseObjectId id with
  | None => (Err InvalidRentalId, st)
  | Some rid =>
      match rentals st !! rid with
      | None => (Err RentalNotFound, st)
      | Some _ => (Deleted, setRentals st (delete rid (rentals st)))
      end
  end.

(** ** The routes *)

Definition isHexChar (c : ascii) : bool :=
  match hexDigit c with Some _ => true | None => false end.

Fixpoint allHex (s : string) : bool :=
  match s with
  | EmptyString => true
  | String c s' => isHexChar c && allHex s'
  end.

(** One or more hexadecimal digits. *)
Definition hexDigits (s : string) : bool :=
  negb (String.eqb s EmptyString) && allHex s.

(** The prefix [0x] or [0h], in either case. *)
Definition hexPrefix (a b : ascii) : bool :=
  Ascii.eqb a "0"
  && (Ascii.eqb b "x" || Ascii.eqb b "X" || Ascii.eqb b "h"
      || Ascii.eqb b "H").

(** The validator's [isHexadecimal]: [/^(0x|0h)?[0-9A-F]+$/i]. *)
Definition isHexadecimal (s : string) : bool :=
  hexDigits s
  || match s with
     | String a (String b rest) => hexPrefix a b && hexDigits rest
     | _ => false
     end.

(** express-validator's [isMongoId]: [isHexadecimal] and 24 characters
    long, so 24 hexadecimal digits, or the prefix and 22 of them. *)
Definition isMongoId (s : string) : bool :=
  isHexadecimal s && Nat.eqb (String.length s) 24.

(** What [isISO8601().toDate()] leaves in a date field whose string passed:
    a Date object, or null for a string [Date.parse] does not read. *)
Definition dateOrNull (v : option Value) : bool :=
  match v with
  | Some (DateObject _) => true
  | Some Null => true
  | _ => false
  end.

(** [rentalValidation], on the body as the controller then reads it (the
    validators of the date fields end in [toDate()]):
    car, client and employee present and Mongo ids; both dates present and
    ISO 8601 strings, which [toDate()] has replaced; [totalCost] present and
    a float of at least 0; [status] optional, within the enum. *)
Definition rentalValidation (b : Body.t) : bool :=
  match Body.car b, Body.client b, Body.employee b with
  | Some c, Some cl, Some em => isMongoId c && isMongoId cl && isMongoId em
  | _, _, _ => false
  end
  && (dateOrNull (Body.startDate b) && dateOrNull (Body.endDate b))
  && match Body.totalCost b with
     | Some (Num z) => 0 <=? z
     | _ => false
     end
  && match Body.status b with
     | Some s => bool_decide (is_Some (parseStatus s))
     | None => true
     end.

(** A request to the rental routes. *)
Inductive Request :=
| POST (b : Body.t)
| PUT (id : string) (b : Body.t)
| DELETE (id : string).

(** [router.route('/').post(rentalValidation, handleValidationErrors,
    createRental)], [router.route('/:id').put(rentalValidation,
    handleValidationErrors, updateRental).delete(deleteRental)]:
    [handleValidationErrors] answers 400 and the controller is not run when a
    validator failed. *)
Definition handle (srv : Server) (rq : Request) (st : Store)
  : Result * Store :=
  match rq with
  | POST b =>
      if rentalValidation b then createRental srv b st
      else (Err ValidationFailed, st)
  | PUT id b =>
      if rentalValidation b then updateRental srv id b st
      else (Err ValidationFailed, st)
  | DELETE id => deleteRental id st
  end.

(** ** Concurrent requests *)

(** Both handlers are [async] functions: a request runs up to its next
    [await], and between the answer of the conflict query and
    [Rental.create] other requests may run.  A [createRental] in flight is
    before its checks, between the checks and the write, or finished. *)
Inductive Thread :=
| Waiting (b : Body.t)
| Checked (b : Body.t)
| Finished (r : Result).

Definition stepThread (srv : Server) (t : Thread) (st : Store)
  : Thread * Store :=
  match t with
  | Waiting b =>
      match createRental_check srv b st with
      | inl e => (Finished (Err e), st)
      | inr _ => (Checked b, st)
      end
  | Checked b =>
      let '(r, st') := createRental_commit b st in (Finished r, st')
  | Finished _ => (t, st)
  end.

(** Two requests under a schedule: [false] lets the first take its next step,
    [true] the second. *)
Fixpoint run (srv : Server) (sched : list bool) (t1 t2 : Thread)
    (st : Store) : Thread * Thread * Store :=
  match sched with
  | [] => (t1, t2, st)
  | false :: sched' =>
      let '(t1', st') := stepThread srv t1 st in run srv sched' t1' t2 st'
  | true :: sched' =>
      let '(t2', st') := stepThread srv t2 st in run srv sched' t1 t2' st'
  end.

(** ** The properties *)

(** The spec's overlap predicate on two stored rentals (half-open
    intervals). *)
Definition overlaps (a b : Rental.t) : Prop :=
  Rental.startDate a < Rental.endDate b
  /\ Rental.startDate b < Rental.endDate a.

(** The spec's invariant: no two distinct active rentals of one car
    overlap. *)
Definition NoActiveOverlap (st : Store) : Prop :=
  forall (i j : ObjectId) (r1 r2 : Rental.t),
    i <> j ->
    rentals st !! i = Some r1 ->
    rentals st !! j = Some r2 ->
    Rental.status r1 = active ->
    Rental.status r2 = active ->
    Rental.car r1 = Rental.car r2 ->
    ~ overlaps r1 r2.

(** The stores the rental routes reach from an empty rentals collection when
    each request is served to its end before the next one starts; the cars
    are managed by the car routes, which never write a rental. *)
Inductive servedInTurn : Store -> Prop :=
| servedInTurn_init (cs : gmap ObjectId Car.t) :
    servedInTurn {| cars := cs; rentals := ∅ |}
| servedInTurn_cars (cs : gmap ObjectId Car.t) (st : Store) :
    servedInTurn st -> servedInTurn {| cars := cs; rentals := rentals st |}
| servedInTurn_handle (srv : Server) (rq : Request) (st : Store) :
    servedInTurn st -> servedInTurn (snd (handle srv rq st)).

(** The stores the rental routes reach when requests may also overlap in
    time: besides the steps above, two POST requests that passed the
    validators are served under any schedule of their steps. *)
Inductive reachable : Store -> Prop :=
| reachable_init (cs : gmap ObjectId Car.t) :
    reachable {| cars := cs; rentals := ∅ |}
| reachable_cars (cs : gmap ObjectId Car.t) (st : Store) :
    reachable st -> reachable {| cars := cs; rentals := rentals st |}
| reachable_handle (srv : Server) (rq : Request) (st : Store) :
    reachable st -> reachable (snd (handle srv rq st))
| reachable_run (srv : Server) (sched : list bool) (b1 b2 : Body.t)
    (st : Store) :
    reachable st ->
    rentalValidation b1 = true -> rentalValidation b2 = true ->
    reachable (snd (run srv sched (Waiting b1) (Waiting b2) st)).

(** The single closed-interval overlap predicate, as the claim words it:
    [existing.startDate <= end AND existing.endDate >= start]. *)
Definition closedOverlap (start end_ : Z) (r : Rental.t) : bool :=
  (Rental.startDate r <=? end_) && (Rental.endDate r >=? start).

(** A request that passes every check of [createRental] before the conflict
    query: valid ids, an acceptable cost, two valid dates with the start not
    before today and the end after the start, and an existing car that is
    not in maintenance. *)
Definition passesChecks (srv : Server) (b : Body.t) (st : Store)
    (carId : ObjectId) (start end_ : Z) : Prop :=
  Body.car b ≫= parseObjectId = Some carId
  /\ isValidObjectId_opt (Body.client b) = true
  /\ isValidObjectId_opt (Body.employee b) = true
  /\ costRejected (Body.totalCost b) = false
  /\ newDate (Body.startDate b) = Some start
  /\ newDate (Body.endDate b) = Some end_
  /\ dateOnly srv (now srv) <= dateOnly srv start
  /\ start < end_
  /\ exists car, cars st !! carId = Some car /\ Car.status car = available.


(** ** Reading and removing documents *)

(** [getRental]: GET /api/rentals/:id.  The answer carries the rental (the
    source also fills in its car, client and employee with [populate]). *)
Definition getRental (id : string) (st : Store) : Error + Rental.t :=
  match parseObjectId id with
  | None => inl InvalidRentalId
  | Some rid =>
      match rentals st !! rid with
      | None => inl RentalNotFound
      | Some rental => inr rental
      end
  end.

(** [deleteCar]: DELETE /api/cars/:id. *)
Definition deleteCar (id : string) (st : Store) : (Error + unit) * Store :=
  match parseObjectId id with
  | None => (inl InvalidCarId, st)
  | Some cid =>
      match cars st !! cid with
      | None => (inl CarNotFound, st)
      | Some _ =>
          (inr tt, {| cars := delete cid (cars st); rentals := rentals st |})
      end
  end.

(** ** Listing with pagination *)

Module Paging.
(** [req.query] as [parseInt] reads it: [None] is NaN (a missing or
    non-numeric parameter). *)
Record Query := mkQuery { page : option Z; limit : option Z }.
End Paging.

Module Listing.
(** The body of the 200 of [getRentals], [getEmployees], [getClients] and
    [getCars]. *)
Record t (A : Type) := mk {
  count : nat;
  total : nat;
  page : Z;
  pages : Z;
  data : list A
}.
Arguments mk {A}.
Arguments count {A}.
Arguments total {A}.
Arguments page {A}.
Arguments pages {A}.
Arguments data {A}.
End Listing.

(** [parseInt(v) || d]: NaN and 0 give way to the default. *)
Definition orDefault (v : option Z) (d : Z) : Z :=
  match v with
  | None => d
  | Some n => if n =? 0 then d else n
  end.

(** [Math.ceil(total / limit)] for a non-zero [limit]. *)
Definition ceilDiv (total limit : Z) : Z := - ((- total) / limit).

(** [.skip(skip).limit(limit)] on the sorted documents, for a skip of at
    least 0 and a limit of at least 1.  The handlers pass a negative skip or
    limit on as it is; what the database makes of it is no code of this
    repository and is left open ([None]). *)
Definition skipLimit {A : Type} (skip limit : Z) (sorted : list A)
  : option (list A) :=
  if (0 <=? skip) && (1 <=? limit)
  then Some (take (Z.to_nat limit) (drop (Z.to_nat skip) sorted))
  else None.

(** The four list handlers, on the documents of the collection as
    [.sort({ createdAt: -1 })] orders them; [None] where the answer is the
    database's to decide (see [skipLimit]). *)
Definition getPage {A : Type} (q : Paging.Query) (sorted : list A)
  : option (Listing.t A) :=
  let page := orDefault (Paging.page q) 1 in
  let limit := orDefault (Paging.limit q) 10 in
  let skip := (page - 1) * limit in
  let total := length sorted in
  match skipLimit skip limit sorted with
  | None => None
  | Some docs =>
      Some (Listing.mk (length docs) total page
              (ceilDiv (Z.of_nat total) limit) docs)
  end.

(** ** The error handler *)

Module JsError.
(** The error object that reaches [errorHandler]: its [name], its [code]
    (11000 for a duplicate key), its message, the [statusCode] a controller
    may have set, the messages of [err.errors] for a ValidationError, and
    its stack. *)
Record t := mk {
  name : string;
  code : option Z;
  message : string;
  statusCode : option Z;
  errors : list string;
  stack : string
}.
End JsError.

Module Response.
(** The JSON answer of [errorHandler] ([success] is always false) and its
    HTTP status. *)
Record t := mk {
  status : Z;
  error : string;
  stack : option string
}.
End Response.

(** [messages.join(', ')]. *)
Fixpoint join (sep : string) (l : list string) : string :=
  match l with
  | [] => EmptyString
  | [x] => x
  | x :: rest => (x ++ sep ++ join sep rest)%string
  end.

(** The catch blocks of the create and update handlers of employees, cars
    and clients: a duplicate key gets the handler's own message and 400
    before [next(error)]. *)
Definition onDuplicateKey (msg : string) (err : JsError.t) : JsError.t :=
  if bool_decide (JsError.code err = Some 11000)
  then JsError.mk (JsError.name err) (JsError.code err) msg (Some 400)
         (JsError.errors err) (JsError.stack err)
  else err.

(** [errorHandler]; [nodeEnv] is [process.env.NODE_ENV]. *)
Definition errorHandler (nodeEnv : option string) (err : JsError.t)
  : Response.t :=
  let message := JsError.message err in
  let statusCode := JsError.statusCode err in
  let '(message, statusCode) :=
    if String.eqb (JsError.name err) "CastError"
    then ("Resource not found"%string, Some 404)
    else (message, statusCode) in
  let '(message, statusCode) :=
    if bool_decide (JsError.code err = Some 11000)
    then ("Duplicate field value entered"%string, Some 400)
    else (message, statusCode) in
  let '(message, statusCode) :=
    if String.eqb (JsError.name err) "ValidationError"
    then (join ", " (JsError.errors err), Some 400)
    else (message, statusCode) in
  Response.mk
    (* error.statusCode || 500 *)
    (match statusCode with
     | Some n => if n =? 0 then 500 else n
     | None => 500
     end)
    (* error.message || 'Server Error' *)
    (if String.eqb message EmptyString then "Server Error"%string
     else message)
    (if bool_decide (nodeEnv = Some "development"%string)
     then Some (JsError.stack err) else None).

(** ** The environment check *)

Definition requiredEnvVars : list string :=
  ["MONGODB_URI"; "NODE_ENV"; "PORT"; "FRONTEND_URL"]%string.

(** [!process.env[envVar]]: unset, or set to the empty string. *)
Definition unset (env : gmap string string) (envVar : string) : bool :=
  match env !! envVar with
  | None => true
  | Some v => String.eqb v EmptyString
  end.

(** [validateEnv]: [inl] is the message of the error it throws. *)
Definition validateEnv (env : gmap string string) : string + unit :=
  let missingVars := List.filter (unset env) requiredEnvVars in
  if (0 <? length missingVars)%nat
  then inl ("Missing required environment variable(s): "
            ++ join ", " missingVars)%string
  else inr tt.

(** ** The client: retries *)

Module Retry.

(** [RETRY_CONFIG]. *)
Definition maxRetries : nat := 3.
Definition initialDelay : Z := 1000.
Definition maxDelay : Z := 10000.
Definition backoffMultiplier : Z := 2.

(** An AxiosError: the status of the response, if one was received. *)
Record AxiosError := mkError { response : option Z }.

(** [isRetryableError]: no response, a 5xx, or 429. *)
Definition isRetryableError (error : AxiosError) : bool :=
  match response error with
  | None => true
  | Some status => (status >=? 500) || (status =? 429)
  end.

(** What a call of [fn] does: resolve, or reject with an error. *)
Inductive Outcome (A : Type) :=
| Resolved (a : A)
| Rejected (e : AxiosError).
Arguments Resolved {A}.
Arguments Rejected {A}.

(** The delay before the retry that follows attempt [retryCount]. *)
Definition delay (retryCount : nat) : Z :=
  Z.min (initialDelay * backoffMultiplier ^ Z.of_nat retryCount) maxDelay.

(** [retryWithBackoff(fn, retryCount)]: [fn k] is what the call of [fn] at
    retry count [k] does; the answer comes with the delays slept, in order.
    [fuel] bounds the depth of the recursion; [None] is fuel run out. *)
Fixpoint retryWithBackoff {A : Type} (fuel : nat) (fn : nat -> Outcome A)
    (retryCount : nat) : option (Outcome A * list Z) :=
  match fuel with
  | O => None
  | S fuel' =>
      match fn retryCount with
      | Resolved a => Some (Resolved a, [])
      | Rejected error =>
          if (maxRetries <=? retryCount)%nat || negb (isRetryableError error)
          then Some (Rejected error, [])
          else
            match retryWithBackoff fuel' fn (S retryCount) with
            | None => None
            | Some (out, slept) => Some (out, delay retryCount :: slept)
            end
      end
  end.

End Retry.

(** ** The client: the rental form *)

Module Form.

(** [handleSubmit]'s checks of the dates, on the browser's clock: [today] is
    local midnight ([today.setHours(0, 0, 0, 0)]); a comparison with an
    Invalid Date is false.  [Some] is the message shown, [None] lets the
    request go. *)
Definition submitCheck (clock : Server) (start end_ : Date)
  : option string :=
  let today := dateOnly clock (now clock) in
  if match start with Some s => s <? today | None => false end
  then Some "Start date cannot be in the past"%string
  else if match start, end_ with
          | Some s, Some e => e <=? s
          | _, _ => false
          end
  then Some "End date must be after start date"%string
  else None.

(** [hasConflict] of [availableCars]: some rental the page knows, other than
    the one being edited, of this car and not cancelled, whose dates overlap
    the chosen ones. *)
Definition hasConflict (editingRental : option ObjectId) (carId : ObjectId)
    (newStart newEnd : Z) (rentals : list (ObjectId * Rental.t)) : bool :=
  existsb
    (fun '(i, rental) =>
       if bool_decide (editingRental = Some i) then false
       else if negb (bool_decide (Rental.car rental = carId)) then false
       else if bool_decide (Rental.status rental = cancelled) then false
       else (newStart <=? Rental.endDate rental)
            && (newEnd >=? Rental.startDate rental))
    rentals.

(** [availableCars]: the cars the form offers for the chosen dates ([None]
    is a date not chosen yet). *)
Definition availableCars (editingRental : option ObjectId)
    (startDate endDate : option Z) (cars : list (ObjectId * Car.t))
    (rentals : list (ObjectId * Rental.t)) : list (ObjectId * Car.t) :=
  List.filter
    (fun '(carId, car) =>
       if bool_decide (Car.status car = maintenance) then false
       else
         match startDate, endDate with
         | Some newStart, Some newEnd =>
             negb (hasConflict editingRental carId newStart newEnd rentals)
         | _, _ => true
         end)
    cars.

(** The options of the form's car select: every car when a rental is being
    edited, the available ones for a new rental. *)
Definition carOptions (editingRental : option ObjectId)
    (startDate endDate : option Z) (cars : list (ObjectId * Car.t))
    (rentals : list (ObjectId * Rental.t)) : list (ObjectId * Car.t) :=
  match editingRental with
  | Some _ => cars
  | None => availableCars editingRental startDate endDate cars rentals
  end.

End Form.

(** ** Escaping *)

(** [value.replace(/c/g, by)] for a single character [c]. *)
Fixpoint replaceAll (c : ascii) (by_ : string) (value : string) : string :=
  match value with
  | EmptyString => EmptyString
  | String x rest =>
      if Ascii.eqb x c then (by_ ++ replaceAll c by_ rest)%string
      else String x (replaceAll c by_ rest)
  end.

(** The double quote character. *)
Definition dquote : ascii := ascii_of_nat 34.

(** [escapeHtml], on a string. *)
Definition escapeHtml (value : string) : string :=
  replaceAll "/" "&#x2F;"
    (replaceAll "'" "&#x27;"
       (replaceAll dquote "&quot;"
          (replaceAll ">" "&gt;"
             (replaceAll "<" "&lt;"
                (replaceAll "&" "&amp;" value))))).

(** ** More properties *)

(** What the schema asks of a stored rental: the end after the start, a cost
    that is not negative. *)
Definition StoredOk (st : Store) : Prop :=
  forall (i : ObjectId) (r : Rental.t),
    rentals st !! i = Some r ->
    Rental.startDate r < Rental.endDate r /\ 0 <= Rental.totalCost r.

(** The character [c] occurs in the string [s]. *)
Fixpoint occurs (c : ascii) (s : string) : bool :=
  match s with
  | EmptyString => false
  | String x rest => Ascii.eqb x c || occurs c rest
  end.

(** The characters [escapeHtml] replaces after the ampersand. *)
Definition markupChars : list ascii := ["<"; ">"; dquote; "'"; "/"]%char.
(** ** Fixtures

    The example of the spec (section 8): car V1, bookings in June 2024, a
    server in UTC on 20 May 2024. *)
Module Fixture.

(** Midnight UTC of a day of June 2024 (1 June 2024 is day 19875 of the
    epoch). *)
Definition june (d : Z) : Z := (19874 + d) * msPerDay.

(** Midnight UTC of a day of May 2024. *)
Definition may (d : Z) : Z := (19843 + d) * msPerDay.

Definition hours (h : Z) : Z := h * 3600000.

(** 20 May 2024, 09:30 UTC. *)
Definition utc : Server := {| now := may 20 + 34200000; tz := 0 |}.

(** The same server on 30 June 2024, 12:00 UTC. *)
Definition utcLater : Server := {| now := june 30 + hours 12; tz := 0 |}.

Definition V1 : string := "0000000000000000000000a1".
Definition V2 : string := "0000000000000000000000a2".
Definition alice : string := "0000000000000000000000c1".
Definition bob : string := "0000000000000000000000e1".

(** The ObjectIds the strings above stand for. *)
Definition idV1 : ObjectId := 161%N.
Definition idV2 : ObjectId := 162%N.
Definition idAlice : ObjectId := 193%N.
Definition idBob : ObjectId := 225%N.

(** Two available cars, no rental. *)
Definition depot : Store :=
  {| cars := {[ idV1 := Car.mk available; idV2 := Car.mk available ]};
     rentals := ∅ |}.

(** A full body, as the client's form sends it and the validators of the
    route leave it: the dates are Date objects. *)
Definition booking (c : string) (s e : Z) (status : option string)
  : Body.t :=
  Body.mk (Some c) (Some alice) (Some bob) (Some (DateObject s))
    (Some (DateObject e)) (Some (Num 100)) status.

(** A JSON body, as the controller would read it without the validators,
    that sets the dates given and nothing else: a date is a string that
    [new Date] reads. *)
Definition datesOnly (s e : option Z) : Body.t :=
  Body.mk None None None (Text ∘ Some <$> s) (Text ∘ Some <$> e) None None.

(** A body that sets the car and nothing else. *)
Definition onlyCar (c : string) : Body.t :=
  Body.mk (Some c) None None None None None None.

Definition stored (c : ObjectId) (s e : Z) (status : Status) : Rental.t :=
  Rental.mk c idAlice idBob s e 100 status.

(** A store with the given rentals under ids 0, 1, ... *)
Definition withRentals (l : list Rental.t) : Store :=
  setRentals depot (list_to_map (zip (N.of_nat <$> seq 0 (length l)) l)).

(** [oid.toString()] of a small id, as a request carries it. *)
Definition rid (i : ObjectId) : string := toString i.

(** V1 is taken from 1 to 5 June (rental 0), V2 from 3 to 7 June
    (rental 1). *)
Definition twoCars : Store :=
  withRentals [stored idV1 (june 1) (june 5) active;
               stored idV2 (june 3) (june 7) active].

(** V1 is taken from 1 to 5 June (rental 0). *)
Definition oneBooking : Store :=
  withRentals [stored idV1 (june 1) (june 5) active].

(** The request for V1, 1 to 5 June, and the rental it makes. *)
Definition juneStay : Body.t := booking V1 (june 1) (june 5) None.

Definition juneRental : Rental.t := stored idV1 (june 1) (june 5) active.

(** The store after two requests served in turn: V1 from 1 to 5 June
    (rental 0) and from 10 to 12 June (rental 1). *)
Definition twoStays : Store :=
  snd (handle utc (POST (booking V1 (june 10) (june 12) None))
         (snd (handle utc (POST juneStay) depot))).

(** An id with the prefix [0x]: 24 characters that [isMongoId] accepts and
    that are no ObjectId. *)
Definition prefixed : string := "0x00000000000000000000a1".

(** The name of a status in a request. *)
Definition statusName (s : Status) : string :=
  match s with
  | active => "active"
  | completed => "completed"
  | cancelled => "cancelled"
  end.

(** A rental of early May, completed. *)
Definition history : Store :=
  withRentals [stored idV1 (may 1) (may 5) completed].

End Fixture.

(** ** More fixtures *)
Module Sample.

(** V1 is available and taken from 1 to 5 June (rental 0); V2 is in
    maintenance. *)
Definition garage : Store :=
  {| cars := {[ Fixture.idV1 := Car.mk available;
                Fixture.idV2 := Car.mk maintenance ]};
     rentals := {[ 0%N := Fixture.juneRental ]} |}.



(** The request for V2, 10 to 12 June. *)
Definition stayV2 : Body.t :=
  Fixture.booking Fixture.V2 (Fixture.june 10) (Fixture.june 12) None.

(** The store after the accepted request for V1, 1 to 5 June. *)
Definition booked : Store :=
  snd (createRental Fixture.utc Fixture.juneStay Fixture.depot).

End Sample.

(** Closed goals on the fixtures are settled by evaluation. *)
Ltac evaluate := vm_compute; first [reflexivity | discriminate].

(** Two closed terms are told apart by evaluation. *)
Ltac differ :=
  let H := fresh in intros H; vm_compute in H; discriminate H.

(** ** Lemmas on the queries *)

Lemma Rental_find_none (q : ObjectId -> Rental.t -> bool)
    (m : gmap ObjectId Rental.t) :
  (0 <? length (Rental_find q m))%nat = false <->
  (forall i r, m !! i = Some r -> q i r = false).
Proof.
  unfold Rental_find. split.
  - intros Hlen i r Hir.
    destruct (q i r) eqn:Hq; [|reflexivity].
    assert (Hin : In (i, r) (List.filter (fun p => q p.1 p.2) (map_to_list m))).
    { apply filter_In. split; [|exact Hq].
      apply list_elem_of_In, elem_of_map_to_list, Hir. }
    destruct (List.filter _ _); [destruct Hin | discriminate].
  - intros Hall.
    destruct (List.filter _ _) as [|[i r] l] eqn:Hf; [reflexivity|].
    assert (Hin : In (i, r) (List.filter (fun p => q p.1 p.2) (map_to_list m))).
    { rewrite Hf. left. reflexivity. }
    apply filter_In in Hin as [Hin Hq]. simpl in Hq.
    apply list_elem_of_In, elem_of_map_to_list in Hin.
    rewrite (Hall _ _ Hin) in Hq. discriminate.
Qed.

Lemma Rental_find_some (q : ObjectId -> Rental.t -> bool)
    (m : gmap ObjectId Rental.t) :
  (0 <? length (Rental_find q m))%nat = true <->
  (exists i r, m !! i = Some r /\ q i r = true).
Proof.
  split.
  - intros Hlen.
    destruct (Rental_find q m) as [|[i r] l] eqn:Hf; [discriminate|].
    assert (Hin : In (i, r) (Rental_find q m)) by (rewrite Hf; left; reflexivity).
    apply filter_In in Hin as [Hin Hq]. simpl in Hq.
    apply list_elem_of_In, elem_of_map_to_list in Hin. eauto.
  - intros (i & r & Hir & Hq).
    destruct ((0 <? length (Rental_find q m))%nat) eqn:Hlen; [reflexivity|].
    rewrite Rental_find_none in Hlen. rewrite (Hlen _ _ Hir) in Hq.
    discriminate.
Qed.

(** The three branches of the [$or], as inequalities. *)
Lemma overlapQuery_true (start end_ : Z) (r : Rental.t) :
  overlapQuery start end_ r = true <->
  (Rental.startDate r <= start /\ Rental.endDate r >= start)
  \/ (Rental.startDate r <= end_ /\ Rental.endDate r >= end_)
  \/ (Rental.startDate r >= start /\ Rental.endDate r <= end_).
Proof.
  unfold overlapQuery.
  rewrite !orb_true_iff, !andb_true_iff, !Z.geb_le, !Z.leb_le. lia.
Qed.

(** Whatever the stored interval, the query selects every rental whose
    half-open interval overlaps the candidate's. *)
Lemma overlapQuery_covers (start end_ : Z) (r : Rental.t) :
  Rental.startDate r < end_ -> start < Rental.endDate r ->
  overlapQuery start end_ r = true.
Proof. intros H1 H2. apply overlapQuery_true. lia. Qed.

(** The closed-interval reading of the query: it selects the rentals whose
    interval, bounds included, meets the candidate's, and, when both
    intervals are well formed, no other. *)
Lemma overlapQuery_closed (start end_ : Z) (r : Rental.t) :
  Rental.startDate r <= end_ -> start <= Rental.endDate r ->
  overlapQuery start end_ r = true.
Proof. intros. apply overlapQuery_true. lia. Qed.

Lemma overlapQuery_meets (start end_ : Z) (r : Rental.t) :
  start <= end_ -> Rental.startDate r <= Rental.endDate r ->
  overlapQuery start end_ r = true ->
  Rental.startDate r <= end_ /\ start <= Rental.endDate r.
Proof. intros Hc Hr Hq. apply overlapQuery_true in Hq. lia. Qed.

(** ** Lemmas on the values of a date field *)

(** What the cast of a date field says of the field. *)
Lemma castDate_unset (v : option Value) :
  castDate v = inr None -> v = None.
Proof.
  destruct v as [[|b|z| |[t|]|t]|]; simpl; try discriminate; try reflexivity.
  destruct (timeClip z); discriminate.
Qed.

Lemma castDate_set (v : option Value) (t : Z) :
  castDate v = inr (Some (Some t)) ->
  newDate v = Some t /\ (truthy v = true \/ v = Some (Numeric 0)).
Proof.
  destruct v as [[|b|z| |[t'|]|t']|]; simpl; try discriminate.
  - destruct (timeClip z) as [t'|] eqn:Hz; [|discriminate].
    intros [= <-]. split; [reflexivity|].
    destruct (Z.eqb_spec z 0) as [->|]; auto.
  - intros [= <-]. auto.
  - intros [= <-]. auto.
Qed.

(** A date field that the cast accepts and that is not the number 0 is read
    by the controller as the date the write will store. *)
Lemma orStored_cast (v : option Value) (x : option Z) (stored : Z) :
  castDate v = inr (Some <$> x) ->
  v <> Some (Numeric 0) ->
  orStored v stored = Some (default stored x)
  /\ truthy v = bool_decide (is_Some x).
Proof.
  intros Hc Hz. unfold orStored. destruct x as [t|]; simpl in Hc.
  - apply castDate_set in Hc as [Hn [Ht|Ht]]; [|contradiction].
    rewrite Ht. split; [exact Hn|].
    symmetry. apply bool_decide_eq_true_2. eauto.
  - apply castDate_unset in Hc as ->. split; [reflexivity|].
    symmetry. apply bool_decide_eq_false_2. by intros [? ?].
Qed.

(** ** Lemmas on the mongoose layer *)

Lemma required_inr (x : option (option Z)) (y : option Z) :
  required x = inr y -> x = Some <$> y.
Proof. destruct x as [[t|]|]; simpl; try discriminate; by intros [= <-]. Qed.

Lemma minCost_inr (x y : option Z) :
  minCost x = inr y -> x = y /\ forall z, y = Some z -> 0 <= z.
Proof.
  destruct x as [z|]; simpl.
  - destruct (Z.ltb_spec z 0); [discriminate|]. intros [= <-].
    split; [reflexivity|]. intros z' [= <-]. assumption.
  - intros [= <-]. split; [reflexivity|]. discriminate.
Qed.

Lemma castCost_inr (v : option Number) (x : option Z) :
  castCost v = inr x -> v = Num <$> x.
Proof.
  destruct v as [[|z]|]; simpl; try discriminate; by intros [= <-].
Qed.

Lemma castBody_inr (b : Body.t) (p : Patch.t) :
  castBody b = inr p ->
  castId (Body.car b) = inr (Patch.car p)
  /\ castId (Body.client b) = inr (Patch.client p)
  /\ castId (Body.employee b) = inr (Patch.employee p)
  /\ castDate (Body.startDate b) = inr (Some <$> Patch.startDate p)
  /\ castDate (Body.endDate b) = inr (Some <$> Patch.endDate p)
  /\ Body.totalCost b = Num <$> Patch.totalCost p
  /\ (forall z, Patch.totalCost p = Some z -> 0 <= z)
  /\ castStatus (Body.status b) = inr (Patch.status p).
Proof.
  unfold castBody.
  destruct (castId (Body.car b)); [discriminate|].
  destruct (castId (Body.client b)); [discriminate|].
  destruct (castId (Body.employee b)); [discriminate|].
  destruct (castDate (Body.startDate b)) as [|sd]; [discriminate|].
  destruct (castDate (Body.endDate b)) as [|ed]; [discriminate|].
  destruct (castCost (Body.totalCost b)) as [|tc] eqn:Htc; [discriminate|].
  destruct (required sd) as [|sd'] eqn:Hsd; [discriminate|].
  destruct (required ed) as [|ed'] eqn:Hed; [discriminate|].
  destruct (minCost tc) as [|tc'] eqn:Hmin; [discriminate|].
  destruct (castStatus (Body.status b)); [discriminate|].
  intros [= <-]. simpl.
  apply required_inr in Hsd as ->. apply required_inr in Hed as ->.
  apply minCost_inr in Hmin as [-> Hpos]. apply castCost_inr in Htc.
  auto 10.
Qed.

Lemma castId_inr (v : option string) (x : option ObjectId) :
  castId v = inr x -> v ≫= parseObjectId = x.
Proof.
  destruct v as [s|]; simpl.
  - destruct (parseObjectId s); [|discriminate]. by intros [= <-].
  - by intros [= <-].
Qed.

Lemma castStatus_inr (v : option string) (x : option Status) :
  castStatus v = inr x -> v ≫= parseStatus = x.
Proof.
  destruct v as [s|]; simpl.
  - destruct (parseStatus s); [|discriminate]. by intros [= <-].
  - by intros [= <-].
Qed.

(** The empty string is no ObjectId: an id the cast accepts is truthy. *)
Lemma parseObjectId_present (s : string) (c : ObjectId) :
  parseObjectId s = Some c -> present (Some s) = true.
Proof. destruct s; [discriminate|reflexivity]. Qed.

(** Every field of what a successful [Rental.create] stored. *)
Lemma Rental_create_fields (b : Body.t) (m m' : gmap ObjectId Rental.t)
    (i : ObjectId) (r : Rental.t) :
  Rental_create b m = inr (i, r, m') ->
  Body.car b ≫= parseObjectId = Some (Rental.car r)
  /\ Body.client b ≫= parseObjectId = Some (Rental.client r)
  /\ Body.employee b ≫= parseObjectId = Some (Rental.employee r)
  /\ castDate (Body.startDate b) = inr (Some (Some (Rental.startDate r)))
  /\ castDate (Body.endDate b) = inr (Some (Some (Rental.endDate r)))
  /\ Body.totalCost b = Some (Num (Rental.totalCost r))
  /\ 0 <= Rental.totalCost r
  /\ Rental.startDate r < Rental.endDate r
  /\ Rental.status r = default active (Body.status b ≫= parseStatus).
Proof.
  unfold Rental_create.
  destruct (castBody b) as [|p] eqn:Hp; [discriminate|].
  destruct (newDocument p) as [|r0] eqn:Hr; [discriminate|].
  unfold preSave.
  destruct (Z.leb_spec (Rental.endDate r0) (Rental.startDate r0));
    [discriminate|].
  intros [= <- <- <-].
  apply castBody_inr in Hp as (Hc & Hcl & Hem & Hs & He & Htc & Hpos & Hst).
  apply castId_inr in Hc, Hcl, Hem. apply castStatus_inr in Hst.
  unfold newDocument in Hr.
  destruct (Patch.car p), (Patch.client p), (Patch.employee p),
    (Patch.startDate p), (Patch.endDate p), (Patch.totalCost p) as [tc|];
    try discriminate.
  injection Hr as <-. simpl in *. rewrite Hst.
  repeat split; auto.
Qed.

(** What a successful [Rental.create] stored, as the controller read the
    body. *)
Lemma Rental_create_inr (b : Body.t) (m m' : gmap ObjectId Rental.t)
    (i : ObjectId) (r : Rental.t) :
  Rental_create b m = inr (i, r, m') ->
  Body.car b ≫= parseObjectId = Some (Rental.car r)
  /\ newDate (Body.startDate b) = Some (Rental.startDate r)
  /\ newDate (Body.endDate b) = Some (Rental.endDate r)
  /\ Rental.status r = default active (Body.status b ≫= parseStatus)
  /\ m !! i = None
  /\ m' = <[i := r]> m.
Proof.
  intros Hcr.
  pose proof (Rental_create_fields _ _ _ _ _ Hcr)
    as (Hc & _ & _ & Hs & He & _ & _ & _ & Hst).
  apply castDate_set in Hs as [Hs _]. apply castDate_set in He as [He _].
  revert Hcr. unfold Rental_create.
  destruct (castBody b) as [|p]; [discriminate|].
  destruct (newDocument p) as [|r0]; [discriminate|].
  destruct (preSave r0); [discriminate|].
  intros [= <- <- <-].
  repeat split; try assumption.
  apply not_elem_of_dom, is_fresh.
Qed.

(** What a successful [findByIdAndUpdate] stored. *)
Lemma Rental_findByIdAndUpdate_inr (i : ObjectId) (b : Body.t)
    (m m' : gmap ObjectId Rental.t) (old : Rental.t) (r : option Rental.t) :
  m !! i = Some old ->
  Rental_findByIdAndUpdate i b m = inr (r, m') ->
  exists p, castBody b = inr p
            /\ r = Some (applyPatch p old)
            /\ m' = <[i := applyPatch p old]> m.
Proof.
  intros Hold. unfold Rental_findByIdAndUpdate.
  destruct (preUpdate b); [discriminate|].
  destruct (castBody b) as [|p]; [discriminate|].
  rewrite Hold. intros [= <- <-]. eauto.
Qed.

(** ** Lemmas on the controller *)

(** The car against which [updateRental] runs its query, on a body whose car
    the cast accepts. *)
Lemma targetCarId_cast (b : Body.t) (x : option ObjectId) (stored : ObjectId) :
  castId (Body.car b) = inr x ->
  (if present (Body.car b) then
     match Body.car b ≫= parseObjectId with
     | Some c => inr c
     | None => inl CastError
     end
   else inr stored) = (inr (default stored x) : Error + ObjectId).
Proof.
  destruct (Body.car b) as [s|]; simpl.
  - destruct (parseObjectId s) as [c|] eqn:Hs; [|discriminate].
    intros [= <-]. apply parseObjectId_present in Hs. simpl in Hs.
    by rewrite Hs.
  - by intros [= <-].
Qed.

(** The date block of [updateRental], on the document the write will store:
    for a body the cast accepts, with a date set and none of them the
    number 0 (which is falsy and yet a date). *)
Lemma updateRental_dates_spec (srv : Server) (id : ObjectId)
    (old : Rental.t) (b : Body.t) (p : Patch.t) (st : Store) :
  castBody b = inr p ->
  is_Some (Body.startDate b) \/ is_Some (Body.endDate b) ->
  Body.startDate b <> Some (Numeric 0) ->
  Body.endDate b <> Some (Numeric 0) ->
  updateRental_dates srv id old b st =
    let r' := applyPatch p old in
    if bool_decide (Rental.status old = active)
       && (dateOnly srv (Rental.startDate r') <? dateOnly srv (now srv))
    then inl StartInPastActive
    else if Rental.endDate r' <=? Rental.startDate r' then inl EndNotAfterStart
    else if (0 <? length (Rental_find
                 (updateQuery id (Rental.car r') (Rental.startDate r')
                    (Rental.endDate r')) (rentals st)))%nat
         then inl AlreadyBooked
         else inr tt.
Proof.
  intros Hp Hsome Hzs Hze. unfold updateRental_dates.
  apply castBody_inr in Hp as (Hc & _ & _ & Hs & He & _).
  destruct (orStored_cast _ _ (Rental.startDate old) Hs Hzs) as [Hos Hts].
  destruct (orStored_cast _ _ (Rental.endDate old) He Hze) as [Hoe Hte].
  assert (Hg : truthy (Body.startDate b) || truthy (Body.endDate b) = true).
  { rewrite Hts, Hte. apply orb_true_iff.
    destruct Hsome as [[v Hv]|[v Hv]]; [left|right];
      apply bool_decide_eq_true_2.
    - destruct (Patch.startDate p); [eauto|].
      simpl in Hs. apply castDate_unset in Hs. congruence.
    - destruct (Patch.endDate p); [eauto|].
      simpl in He. apply castDate_unset in He. congruence. }
  rewrite Hg, Hos, Hoe, (targetCarId_cast _ _ _ Hc). reflexivity.
Qed.

(** A request that passes the checks is answered by the conflict query
    alone. *)
Lemma createRental_check_passes (srv : Server) (b : Body.t) (st : Store)
    (carId : ObjectId) (start end_ : Z) :
  passesChecks srv b st carId start end_ ->
  createRental_check srv b st =
    if (0 <? length (Rental_find (createQuery carId start end_)
                       (rentals st)))%nat
    then inl AlreadyBooked else inr tt.
Proof.
  intros (Hcar & Hcl & Hem & Hcost & Hs & He & Hday & Hlt & car & Hlk & Hav).
  unfold createRental_check.
  assert (Hv : isValidObjectId_opt (Body.car b) = true).
  { destruct (Body.car b) as [s|]; [|discriminate]. simpl in *.
    unfold isValidObjectId. by rewrite Hcar. }
  rewrite Hv, Hcl, Hem, Hcost, Hs, He, Hcar, Hlk, Hav. simpl.
  destruct (Z.ltb_spec (dateOnly srv start) (dateOnly srv (now srv))); [lia|].
  destruct (Z.leb_spec end_ start); [lia|].
  reflexivity.
Qed.

(** Conversely, the checks answer nothing but errors to any other
    request. *)
Lemma createRental_check_inr (srv : Server) (b : Body.t) (st : Store)
    (u : unit) :
  createRental_check srv b st = inr u ->
  exists carId start end_,
    passesChecks srv b st carId start end_
    /\ forall i r, rentals st !! i = Some r ->
                   createQuery carId start end_ i r = false.
Proof.
  unfold createRental_check.
  destruct (isValidObjectId_opt (Body.car b)) eqn:Hv; [|discriminate].
  destruct (isValidObjectId_opt (Body.client b)) eqn:Hcl; [|discriminate].
  destruct (isValidObjectId_opt (Body.employee b)) eqn:Hem; [|discriminate].
  destruct (costRejected (Body.totalCost b)) eqn:Hcost; [discriminate|].
  simpl.
  destruct (newDate (Body.startDate b)) as [start|] eqn:Hs;
    [|discriminate].
  destruct (newDate (Body.endDate b)) as [end_|] eqn:He; [|discriminate].
  destruct (Z.ltb_spec (dateOnly srv start) (dateOnly srv (now srv)));
    [discriminate|].
  destruct (Z.leb_spec end_ start); [discriminate|].
  destruct (Body.car b ≫= parseObjectId) as [carId|] eqn:Hcar;
    [|discriminate].
  destruct (cars st !! carId) as [car|] eqn:Hlk; [|discriminate].
  case_bool_decide as Hm; [discriminate|].
  destruct (0 <? length _)%nat eqn:Hlen; [discriminate|].
  intros _. exists carId, start, end_. split.
  - repeat split; try assumption; try lia.
    exists car. split; [exact Hlk|]. by destruct (Car.status car).
  - by apply Rental_find_none.
Qed.

(** ** The invariant *)

Lemma overlaps_sym (a b : Rental.t) : overlaps a b -> overlaps b a.
Proof. unfold overlaps. tauto. Qed.

(** Storing at [k] a document that overlaps no other active rental of its
    car keeps the invariant. *)
Lemma NoActiveOverlap_insert (st : Store) (k : ObjectId) (r : Rental.t) :
  NoActiveOverlap st ->
  (forall j r2, j <> k -> rentals st !! j = Some r2 ->
                Rental.car r2 = Rental.car r -> Rental.status r2 = active ->
                Rental.status r = active -> ~ overlaps r r2) ->
  NoActiveOverlap (setRentals st (<[k := r]> (rentals st))).
Proof.
  intros Hinv Hnew i j r1 r2 Hij H1 H2 Ha1 Ha2 Hcar. simpl in H1, H2.
  destruct (decide (i = k)) as [->|Hik].
  - rewrite lookup_insert_eq in H1. injection H1 as <-.
    rewrite lookup_insert_ne in H2 by congruence.
    apply (Hnew j r2); auto.
  - rewrite lookup_insert_ne in H1 by congruence.
    destruct (decide (j = k)) as [->|Hjk].
    + rewrite lookup_insert_eq in H2. injection H2 as <-.
      intros Hov. apply overlaps_sym in Hov.
      apply (Hnew i r1); auto.
    + rewrite lookup_insert_ne in H2 by congruence.
      apply (Hinv i j); auto.
Qed.

Lemma NoActiveOverlap_delete (st : Store) (k : ObjectId) :
  NoActiveOverlap st ->
  NoActiveOverlap (setRentals st (delete k (rentals st))).
Proof.
  intros Hinv i j r1 r2 Hij H1 H2. simpl in H1, H2.
  apply lookup_delete_Some in H1 as [_ H1].
  apply lookup_delete_Some in H2 as [_ H2].
  by apply (Hinv i j).
Qed.

(** [createRental] keeps the invariant, whatever the body. *)
Lemma createRental_preserves (srv : Server) (b : Body.t) (st : Store) :
  NoActiveOverlap st -> NoActiveOverlap (snd (createRental srv b st)).
Proof.
  intros Hinv. unfold createRental.
  destruct (createRental_check srv b st) as [e|u] eqn:Hchk; [exact Hinv|].
  apply createRental_check_inr in Hchk
    as (carId & start & end_ & Hpass & Hscan).
  destruct Hpass as (Hcar & _ & _ & _ & Hs & He & _).
  unfold createRental_commit.
  destruct (Rental_create b (rentals st)) as [e|[[i r] m]] eqn:Hcr;
    [exact Hinv|].
  apply Rental_create_inr in Hcr as (Hcar' & Hs' & He' & _ & _ & ->).
  simpl. apply NoActiveOverlap_insert; [exact Hinv|].
  intros j r2 _ Hj Hc2 Ha2 _ [Ho1 Ho2].
  assert (carId = Rental.car r) by congruence.
  assert (start = Rental.startDate r) by congruence.
  assert (end_ = Rental.endDate r) by congruence.
  subst. specialize (Hscan j r2 Hj). unfold createQuery in Hscan.
  rewrite (bool_decide_eq_true_2 _ Hc2), (bool_decide_eq_true_2 _ Ha2) in Hscan.
  rewrite overlapQuery_covers in Hscan by lia. discriminate.
Qed.

(** [updateRental] keeps the invariant when the body sets a date and none
    of its dates is the number 0: its conflict query then runs on the
    interval the write stores. *)
Lemma updateRental_preserves (srv : Server) (id : string) (b : Body.t)
    (st : Store) :
  is_Some (Body.startDate b) \/ is_Some (Body.endDate b) ->
  Body.startDate b <> Some (Numeric 0) ->
  Body.endDate b <> Some (Numeric 0) ->
  NoActiveOverlap st -> NoActiveOverlap (snd (updateRental srv id b st)).
Proof.
  intros Hsome Hzs Hze Hinv. unfold updateRental.
  destruct (parseObjectId id) as [rid|]; [|exact Hinv].
  destruct (rentals st !! rid) as [old|] eqn:Hold; [|exact Hinv].
  destruct (updateRental_check srv rid old b st) as [e|u] eqn:Hchk;
    [exact Hinv|].
  destruct (Rental_findByIdAndUpdate rid b (rentals st)) as [e|[r m]] eqn:Hup;
    [exact Hinv|].
  apply (Rental_findByIdAndUpdate_inr _ _ _ _ _ _ Hold) in Hup
    as (p & Hp & -> & ->).
  simpl. apply NoActiveOverlap_insert; [exact Hinv|].
  intros j r2 Hj Hlk Hc2 Ha2 _ [Ho1 Ho2].
  unfold updateRental_check in Hchk.
  rewrite (updateRental_dates_spec _ _ _ _ _ _ Hp Hsome Hzs Hze) in Hchk.
  cbv zeta in Hchk.
  destruct (bool_decide _ && _); [discriminate|].
  destruct (_ <=? _); [discriminate|].
  destruct (0 <? length _)%nat eqn:Hlen; [discriminate|].
  rewrite Rental_find_none in Hlen. specialize (Hlen j r2 Hlk).
  unfold updateQuery in Hlen.
  rewrite (bool_decide_eq_true_2 _ Hj), (bool_decide_eq_true_2 _ Hc2),
    (bool_decide_eq_true_2 _ Ha2) in Hlen.
  rewrite overlapQuery_covers in Hlen by lia. discriminate.
Qed.

Lemma deleteRental_preserves (id : string) (st : Store) :
  NoActiveOverlap st -> NoActiveOverlap (snd (deleteRental id st)).
Proof.
  intros Hinv. unfold deleteRental.
  destruct (parseObjectId id) as [rid|]; [|exact Hinv].
  destruct (rentals st !! rid); [|exact Hinv].
  simpl. by apply NoActiveOverlap_delete.
Qed.

(** ** Lemmas on the route's validators *)

Lemma parseHex_allHex (s : string) (acc : N) :
  allHex s = true -> is_Some (parseHex s acc).
Proof.
  revert acc. induction s as [|c s IH]; intros acc; simpl.
  - eauto.
  - unfold isHexChar. destruct (hexDigit c); [|discriminate].
    intros H. apply IH, H.
Qed.

Lemma parseHex_is_allHex (s : string) (acc n : N) :
  parseHex s acc = Some n -> allHex s = true.
Proof.
  revert acc. induction s as [|c s IH]; intros acc; simpl; [reflexivity|].
  unfold isHexChar. destruct (hexDigit c); [|discriminate].
  intros H. simpl. by apply (IH _ H).
Qed.

(** An id [isMongoId] accepts is not the empty string. *)
Lemma isMongoId_present (s : string) :
  isMongoId s = true -> present (Some s) = true.
Proof.
  unfold isMongoId. rewrite andb_true_iff. intros [_ Hlen].
  destruct s; [discriminate|reflexivity].
Qed.

(** Of the ids [isMongoId] accepts, [isValidObjectId] accepts, and mongoose
    casts, those made of 24 hexadecimal digits; it refuses those with a
    prefix. *)
Lemma isMongoId_valid (s : string) :
  isMongoId s = true ->
  isValidObjectId s = allHex s.
Proof.
  unfold isMongoId, isValidObjectId, parseObjectId.
  rewrite andb_true_iff. intros [_ ->].
  destruct (parseHex s 0) as [n|] eqn:Hp.
  - symmetry. by apply (parseHex_is_allHex _ _ _ Hp).
  - destruct (allHex s) eqn:Hh; [|reflexivity].
    destruct (parseHex_allHex s 0%N Hh) as [n Hn]. congruence.
Qed.


Lemma dateOrNull_cases (v : option Value) :
  dateOrNull v = true -> (exists t, v = Some (DateObject t)) \/ v = Some Null.
Proof. destruct v as [[| | | | |t]|]; simpl; try discriminate; eauto. Qed.

(** Everything [rentalValidation] guarantees about a body: the three ids
    are there and pass [isMongoId], each date is a Date object or null, the
    cost is a number of at least 0, which the controller's own check of the
    cost accepts, and the status, if any, is in the enum. *)
Lemma rentalValidation_inv (b : Body.t) :
  rentalValidation b = true ->
  exists c cl em cost,
    Body.car b = Some c /\ Body.client b = Some cl
    /\ Body.employee b = Some em
    /\ isMongoId c = true /\ isMongoId cl = true /\ isMongoId em = true
    /\ dateOrNull (Body.startDate b) = true
    /\ dateOrNull (Body.endDate b) = true
    /\ Body.totalCost b = Some (Num cost) /\ 0 <= cost
    /\ costRejected (Body.totalCost b) = false
    /\ castStatus (Body.status b) = inr (Body.status b ≫= parseStatus).
Proof.
  unfold rentalValidation.
  destruct (Body.car b) as [c|]; [|discriminate].
  destruct (Body.client b) as [cl|]; [|discriminate].
  destruct (Body.employee b) as [em|]; [|discriminate].
  destruct (isMongoId c) eqn:Hmc; [|discriminate].
  destruct (isMongoId cl) eqn:Hmcl; [|discriminate].
  destruct (isMongoId em) eqn:Hmem; [|discriminate].
  destruct (dateOrNull (Body.startDate b)) eqn:Hs; [|discriminate].
  destruct (dateOrNull (Body.endDate b)) eqn:He; [|discriminate].
  destruct (Body.totalCost b) as [[|cost]|]; try discriminate.
  simpl. destruct (Z.leb_spec 0 cost) as [Hc|]; [|discriminate].
  simpl. intros Hst. exists c, cl, em, cost.
  repeat split; try reflexivity; try assumption.
  - simpl. destruct (Z.ltb_spec cost 0); [lia|reflexivity].
  - destruct (Body.status b) as [s|]; simpl in *; [|reflexivity].
    apply bool_decide_eq_true in Hst as [x Hx]. by rewrite Hx.
Qed.

(** A date field the validators let through is set, and is not the
    number 0. *)
Lemma dateOrNull_set (v : option Value) :
  dateOrNull v = true -> is_Some v /\ v <> Some (Numeric 0).
Proof. destruct v as [[| | | | |t]|]; simpl; try discriminate; eauto. Qed.

(** Every request to the rental routes keeps the invariant. *)
Lemma handle_preserves (srv : Server) (rq : Request) (st : Store) :
  NoActiveOverlap st -> NoActiveOverlap (snd (handle srv rq st)).
Proof.
  intros Hinv. destruct rq as [b|id b|id]; simpl.
  - destruct (rentalValidation b); [|exact Hinv].
    by apply createRental_preserves.
  - destruct (rentalValidation b) eqn:Hv; [|exact Hinv].
    destruct (rentalValidation_inv _ Hv)
      as (c & cl & em & cost & _ & _ & _ & _ & _ & _ & Hs & He & _).
    apply dateOrNull_set in Hs as [Hs Hzs].
    apply dateOrNull_set in He as [He Hze].
    apply updateRental_preserves; auto.
  - by apply deleteRental_preserves.
Qed.


(** The checks of [updateRental] on a body the validators let through, with
    a car id of 24 hexadecimal digits and two Date objects: the date block
    runs, on the body's car and dates; the cost passes. *)
Lemma updateRental_check_validated (srv : Server) (rid : ObjectId)
    (old : Rental.t) (b : Body.t) (st : Store) (carId : ObjectId)
    (start end_ : Z) :
  rentalValidation b = true ->
  Body.car b ≫= parseObjectId = Some carId ->
  Body.startDate b = Some (DateObject start) ->
  Body.endDate b = Some (DateObject end_) ->
  updateRental_check srv rid old b st =
    if bool_decide (Rental.status old = active)
       && (dateOnly srv start <? dateOnly srv (now srv))
    then inl StartInPastActive
    else if end_ <=? start then inl EndNotAfterStart
    else if (0 <? length (Rental_find (updateQuery rid carId start end_)
                            (rentals st)))%nat
         then inl AlreadyBooked
         else if negb (isValidObjectId_opt (Body.client b))
         then inl InvalidClientId
         else if negb (isValidObjectId_opt (Body.employee b))
         then inl InvalidEmployeeId
         else updateRental_car old b st.
Proof.
  intros Hv Hcar Hs He.
  destruct (rentalValidation_inv _ Hv)
    as (c & cl & em & cost & Hc & Hcl & Hem & Hmc & Hmcl & Hmem & _ & _ & _
        & _ & Hcost & _).
  unfold updateRental_check, updateRental_dates, idRejected, orStored.
  rewrite Hs, He, Hcar, Hcost, Hc, Hcl, Hem.
  rewrite (isMongoId_present _ Hmc), (isMongoId_present _ Hmcl),
    (isMongoId_present _ Hmem).
  rewrite Hc in Hcar. simpl in Hcar. simpl.
  unfold isValidObjectId at 1. rewrite Hcar. simpl.
  destruct (bool_decide _ && _); [reflexivity|].
  destruct (end_ <=? start); [reflexivity|].
  destruct (0 <? length _)%nat; reflexivity.
Qed.

(** ** Where the errors can come from *)

Lemma castId_error (v : option string) (e : Error) :
  castId v = inl e -> e = CastError.
Proof.
  destruct v as [s|]; simpl; [|discriminate].
  destruct (parseObjectId s); [discriminate|]. by intros [= <-].
Qed.

Lemma castDate_error (v : option Value) (e : Error) :
  castDate v = inl e -> e = CastError.
Proof.
  destruct v as [[|b|z| |[t|]|t]|]; simpl; try discriminate;
    try (by intros [= <-]).
  destruct (timeClip z); [discriminate|]. by intros [= <-].
Qed.

Lemma castCost_error (v : option Number) (e : Error) :
  castCost v = inl e -> e = CastError.
Proof. destruct v as [[|z]|]; simpl; try discriminate. by intros [= <-]. Qed.

Lemma required_error (x : option (option Z)) (e : Error) :
  required x = inl e -> e = ValidationError.
Proof. destruct x as [[t|]|]; simpl; try discriminate. by intros [= <-]. Qed.

Lemma minCost_error (x : option Z) (e : Error) :
  minCost x = inl e -> e = ValidationError.
Proof.
  destruct x as [z|]; simpl; [|discriminate].
  destruct (z <? 0); [|discriminate]. by intros [= <-].
Qed.

Lemma castStatus_error (v : option string) (e : Error) :
  castStatus v = inl e -> e = ValidationError.
Proof.
  destruct v as [s|]; simpl; [|discriminate].
  destruct (parseStatus s); [discriminate|]. by intros [= <-].
Qed.

Lemma castBody_error (b : Body.t) (e : Error) :
  castBody b = inl e -> e = CastError \/ e = ValidationError.
Proof.
  unfold castBody.
  destruct (castId (Body.car b)) eqn:H1;
    [intros [= <-]; eauto using castId_error|].
  destruct (castId (Body.client b)) eqn:H2;
    [intros [= <-]; eauto using castId_error|].
  destruct (castId (Body.employee b)) eqn:H3;
    [intros [= <-]; eauto using castId_error|].
  destruct (castDate (Body.startDate b)) as [|sd] eqn:H4;
    [intros [= <-]; eauto using castDate_error|].
  destruct (castDate (Body.endDate b)) as [|ed] eqn:H5;
    [intros [= <-]; eauto using castDate_error|].
  destruct (castCost (Body.totalCost b)) as [|tc] eqn:H6;
    [intros [= <-]; eauto using castCost_error|].
  destruct (required sd) eqn:H7;
    [intros [= <-]; eauto using required_error|].
  destruct (required ed) eqn:H8;
    [intros [= <-]; eauto using required_error|].
  destruct (minCost tc) eqn:H9;
    [intros [= <-]; eauto using minCost_error|].
  destruct (castStatus (Body.status b)) eqn:H10;
    [intros [= <-]; eauto using castStatus_error|].
  discriminate.
Qed.

Lemma Rental_create_error (b : Body.t) (m : gmap ObjectId Rental.t)
    (e : Error) :
  Rental_create b m = inl e ->
  e = ValidationError
  \/ (e = EndNotAfterStart
      /\ exists start end_, newDate (Body.startDate b) = Some start
                            /\ newDate (Body.endDate b) = Some end_
                            /\ end_ <= start).
Proof.
  unfold Rental_create.
  destruct (castBody b) as [e'|p] eqn:Hp.
  - intros [= <-]. auto.
  - destruct (newDocument p) as [e'|r] eqn:Hr.
    + intros [= <-]. unfold newDocument in Hr.
      repeat case_match; simplify_eq; auto.
    + unfold preSave. destruct (Z.leb_spec (Rental.endDate r)
                                  (Rental.startDate r)); [|discriminate].
      intros [= <-]. right. split; [reflexivity|].
      apply castBody_inr in Hp as (_ & _ & _ & Hs & He & _).
      unfold newDocument in Hr.
      destruct (Patch.car p), (Patch.client p), (Patch.employee p),
        (Patch.startDate p) as [sd|], (Patch.endDate p) as [ed|],
        (Patch.totalCost p); try discriminate.
      injection Hr as <-. simpl in *.
      apply castDate_set in Hs as [Hs _]. apply castDate_set in He as [He _].
      eauto.
Qed.

Lemma Rental_findByIdAndUpdate_error (i : ObjectId) (b : Body.t)
    (m : gmap ObjectId Rental.t) (e : Error) :
  Rental_findByIdAndUpdate i b m = inl e ->
  e = EndNotAfterStart \/ e = CastError \/ e = ValidationError.
Proof.
  unfold Rental_findByIdAndUpdate.
  destruct (preUpdate b) as [e'|] eqn:Hpre.
  - unfold preUpdate in Hpre.
    intros [= <-]. repeat case_match; simplify_eq; auto.
  - destruct (castBody b) as [e'|p] eqn:Hp.
    + intros [= <-]. destruct (castBody_error _ _ Hp) as [-> | ->]; auto.
    + by destruct (m !! i).
Qed.

(** [createRental] answers 'Car is already booked' only when its query
    selects a stored rental. *)
Lemma createRental_AlreadyBooked (srv : Server) (b : Body.t) (st : Store) :
  fst (createRental srv b st) = Err AlreadyBooked ->
  exists carId start end_ i r,
    Body.car b ≫= parseObjectId = Some carId
    /\ newDate (Body.startDate b) = Some start
    /\ newDate (Body.endDate b) = Some end_
    /\ rentals st !! i = Some r
    /\ createQuery carId start end_ i r = true.
Proof.
  unfold createRental.
  destruct (createRental_check srv b st) as [e|u] eqn:Hchk.
  - simpl. intros [= ->]. revert Hchk. unfold createRental_check.
    destruct (isValidObjectId_opt (Body.car b)); [|discriminate].
    destruct (isValidObjectId_opt (Body.client b)); [|discriminate].
    destruct (isValidObjectId_opt (Body.employee b)); [|discriminate].
    destruct (costRejected (Body.totalCost b)); [discriminate|].
    simpl.
    destruct (newDate (Body.startDate b)) as [start|]; [|discriminate].
    destruct (newDate (Body.endDate b)) as [end_|]; [|discriminate].
    destruct (_ <? _); [discriminate|].
    destruct (_ <=? _); [discriminate|].
    destruct (Body.car b ≫= parseObjectId) as [carId|]; [|discriminate].
    destruct (cars st !! carId) as [car|]; [|discriminate].
    destruct (bool_decide (Car.status car = maintenance)); [discriminate|].
    destruct (0 <? length _)%nat eqn:Hlen; [|discriminate].
    intros _. apply Rental_find_some in Hlen as (i & r & Hlk & Hq).
    exists carId, start, end_, i, r. auto.
  - unfold createRental_commit.
    destruct (Rental_create b (rentals st)) as [e|[[i r] m]] eqn:Hcr;
      simpl; [|discriminate].
    intros [= ->].
    by destruct (Rental_create_error _ _ _ Hcr) as [?|[? _]].
Qed.



(** What a successful [updateRental] did. *)
Lemma updateRental_Updated (srv : Server) (id : string) (b : Body.t)
    (st st' : Store) (rid : ObjectId) (r : option Rental.t) :
  updateRental srv id b st = (Updated rid r, st') ->
  exists old p,
    parseObjectId id = Some rid
    /\ rentals st !! rid = Some old
    /\ updateRental_check srv rid old b st = inr tt
    /\ castBody b = inr p
    /\ r = Some (applyPatch p old)
    /\ st' = setRentals st (<[rid := applyPatch p old]> (rentals st)).
Proof.
  unfold updateRental.
  destruct (parseObjectId id) as [rid'|]; [|discriminate].
  destruct (rentals st !! rid') as [old|] eqn:Hold; [|discriminate].
  destruct (updateRental_check srv rid' old b st) as [e|[]] eqn:Hchk;
    [discriminate|].
  destruct (Rental_findByIdAndUpdate rid' b (rentals st)) as [e|[r' m]] eqn:Hup;
    [discriminate|].
  intros [= -> -> <-].
  apply (Rental_findByIdAndUpdate_inr _ _ _ _ _ _ Hold) in Hup
    as (p & Hp & -> & ->).
  exists old, p. auto 10.
Qed.

(** A PUT the validators let through, with a car id of 24 hexadecimal
    digits, two Date objects and dates that pass: it is refused with
    'Car is already booked for the selected dates' exactly when the query of
    [updateRental] selects a rental, which is then an active rental of the
    request's car other than the amended one. *)
Lemma put_conflict_iff (srv : Server) (id : string)
    (b : Body.t) (st : Store) (rid carId : ObjectId) (old : Rental.t)
    (start end_ : Z) :
  rentalValidation b = true ->
  parseObjectId id = Some rid ->
  rentals st !! rid = Some old ->
  Body.car b ≫= parseObjectId = Some carId ->
  Body.startDate b = Some (DateObject start) ->
  Body.endDate b = Some (DateObject end_) ->
  (Rental.status old = active ->
   dateOnly srv (now srv) <= dateOnly srv start) ->
  start < end_ ->
  ((exists j r, j <> rid /\ rentals st !! j = Some r
                /\ Rental.car r = carId /\ Rental.status r = active
                /\ overlapQuery start end_ r = true) ->
   handle srv (PUT id b) st = (Err AlreadyBooked, st))
  /\ (fst (handle srv (PUT id b) st) = Err AlreadyBooked ->
      exists j r, j <> rid /\ rentals st !! j = Some r
                  /\ Rental.car r = carId /\ Rental.status r = active
                  /\ overlapQuery start end_ r = true).
Proof.
  intros Hv Hid Hold Hcar Hs He Hday Hlt.
  assert (Hchk := updateRental_check_validated srv rid old b st carId
                    start end_ Hv Hcar Hs He).
  assert (Hpast : bool_decide (Rental.status old = active)
                  && (dateOnly srv start <? dateOnly srv (now srv)) = false).
  { case_bool_decide as Ha; [|reflexivity]. simpl.
    apply Z.ltb_ge. auto. }
  rewrite Hpast in Hchk.
  destruct (Z.leb_spec end_ start) as [|_]; [lia|].
  split.
  - intros (j & r & Hj & Hlk & Hcr & Ha & Hq).
    assert (Hsome : (0 <? length (Rental_find
                       (updateQuery rid carId start end_) (rentals st)))%nat
                    = true).
    { apply Rental_find_some. exists j, r. split; [exact Hlk|].
      unfold updateQuery.
      rewrite (bool_decide_eq_true_2 _ Hj), (bool_decide_eq_true_2 _ Hcr),
        (bool_decide_eq_true_2 _ Ha).
      exact Hq. }
    simpl. rewrite Hv. unfold updateRental.
    by rewrite Hid, Hold, Hchk, Hsome.
  - intros Hres.
    destruct (0 <? length (Rental_find (updateQuery rid carId start end_)
                             (rentals st)))%nat eqn:Hlen.
    + apply Rental_find_some in Hlen as (j' & r' & Hlk' & Hq).
      unfold updateQuery in Hq. rewrite !andb_true_iff in Hq.
      destruct Hq as [[[Hj Hcr] Ha] Hq].
      apply bool_decide_eq_true in Hj, Hcr, Ha. eauto 10.
    + exfalso. revert Hres.
      simpl. rewrite Hv. unfold updateRental. rewrite Hid, Hold, Hchk.
      destruct (negb (isValidObjectId_opt (Body.client b)));
        [simpl; by intros [=]|].
      destruct (negb (isValidObjectId_opt (Body.employee b)));
        [simpl; by intros [=]|].
      destruct (updateRental_car old b st) as [e|u] eqn:Hcarchk.
      * unfold updateRental_car in Hcarchk.
        repeat case_match; simplify_eq; simpl; by intros [=].
      * destruct (Rental_findByIdAndUpdate rid b (rentals st))
          as [e|[r1 m]] eqn:Hup; simpl; [|by intros [=]].
        destruct (Rental_findByIdAndUpdate_error _ _ _ _ Hup)
          as [-> | [-> | ->]]; by intros [=].
Qed.

(** [createRental] on a request that passes the checks: refused when the
    conflict query selects a rental, handed to [Rental.create] otherwise. *)
Lemma createRental_passes (srv : Server) (b : Body.t) (st : Store)
    (carId : ObjectId) (start end_ : Z) :
  passesChecks srv b st carId start end_ ->
  createRental srv b st =
    if (0 <? length (Rental_find (createQuery carId start end_)
                       (rentals st)))%nat
    then (Err AlreadyBooked, st) else createRental_commit b st.
Proof.
  intros Hpass. unfold createRental.
  rewrite (createRental_check_passes _ _ _ _ _ _ Hpass).
  by destruct (0 <? length _)%nat.
Qed.


(** ** Lemmas on schedules *)

(** What a successful [createRental] did. *)
Lemma createRental_Created (srv : Server) (b : Body.t) (st st' : Store)
    (i : ObjectId) (r : Rental.t) :
  createRental srv b st = (Created i r, st') ->
  cars st' = cars st
  /\ rentals st !! i = None
  /\ rentals st' = <[i := r]> (rentals st)
  /\ Body.car b ≫= parseObjectId = Some (Rental.car r)
  /\ Rental.status r = default active (Body.status b ≫= parseStatus).
Proof.
  unfold createRental.
  destruct (createRental_check srv b st); [discriminate|].
  unfold createRental_commit.
  destruct (Rental_create b (rentals st)) as [e|[[i' r'] m]] eqn:Hcr;
    [discriminate|].
  intros [= -> -> <-].
  apply Rental_create_inr in Hcr as (Hcar & _ & _ & Hst & Hfresh & ->).
  simpl. auto.
Qed.


(** Past the two date checks, [createRental] answers neither of their
    errors. *)
Lemma createRental_after_dates (srv : Server) (b : Body.t) (st : Store)
    (start end_ : Z) (e : Error) :
  newDate (Body.startDate b) = Some start ->
  newDate (Body.endDate b) = Some end_ ->
  dateOnly srv (now srv) <= dateOnly srv start ->
  start < end_ ->
  fst (createRental srv b st) = Err e ->
  e <> StartInPast /\ e <> EndNotAfterStart.
Proof.
  intros Hs He Hday Hlt. unfold createRental.
  destruct (createRental_check srv b st) as [e'|u] eqn:Hchk.
  - simpl. intros [= ->]. revert Hchk. unfold createRental_check.
    rewrite Hs, He.
    destruct (Z.ltb_spec (dateOnly srv start) (dateOnly srv (now srv)));
      [lia|].
    destruct (Z.leb_spec end_ start); [lia|].
    repeat case_match; intros [= <-]; split; discriminate.
  - unfold createRental_commit.
    destruct (Rental_create b (rentals st)) as [e'|[[i r] m]] eqn:Hcr;
      simpl; [|discriminate].
    intros [= ->].
    destruct (Rental_create_error _ _ _ Hcr)
      as [->|[-> (s' & e' & Hs' & He' & Hle)]];
      try (split; discriminate).
    assert (s' = start) by congruence. assert (e' = end_) by congruence.
    lia.
Qed.

(** Every answer of the three handlers other than a success leaves the
    store as it was. *)
Lemma createRental_Err (srv : Server) (b : Body.t) (st : Store) (e : Error) :
  fst (createRental srv b st) = Err e -> snd (createRental srv b st) = st.
Proof.
  unfold createRental, createRental_commit.
  destruct (createRental_check srv b st); [reflexivity|].
  by destruct (Rental_create b (rentals st)) as [|[[? ?] ?]].
Qed.

Lemma updateRental_Err (srv : Server) (id : string) (b : Body.t)
    (st : Store) (e : Error) :
  fst (updateRental srv id b st) = Err e ->
  snd (updateRental srv id b st) = st.
Proof.
  unfold updateRental.
  destruct (parseObjectId id) as [rid|]; [|reflexivity].
  destruct (rentals st !! rid) as [old|]; [|reflexivity].
  destruct (updateRental_check srv rid old b st); [reflexivity|].
  by destruct (Rental_findByIdAndUpdate rid b (rentals st)) as [|[? ?]].
Qed.

Lemma deleteRental_Err (id : string) (st : Store) (e : Error) :
  fst (deleteRental id st) = Err e -> snd (deleteRental id st) = st.
Proof.
  unfold deleteRental.
  destruct (parseObjectId id) as [rid|]; [|reflexivity].
  by destruct (rentals st !! rid).
Qed.

Lemma handle_Err (srv : Server) (rq : Request) (st : Store) (e : Error) :
  fst (handle srv rq st) = Err e -> snd (handle srv rq st) = st.
Proof.
  destruct rq as [b|id b|id]; simpl.
  - destruct (rentalValidation b); [apply createRental_Err|reflexivity].
  - destruct (rentalValidation b); [apply updateRental_Err|reflexivity].
  - apply deleteRental_Err.
Qed.


(** ** Checking a finite store *)

(** A property of every stored document can be checked on the list of the
    documents. *)
Lemma stored_forall {A : Type} (P : ObjectId -> A -> bool)
    (m : gmap ObjectId A) :
  forallb (fun p => P p.1 p.2) (map_to_list m) = true ->
  forall i r, m !! i = Some r -> P i r = true.
Proof.
  intros Hall i r Hlk. rewrite forallb_forall in Hall.
  apply (Hall (i, r)). apply list_elem_of_In, elem_of_map_to_list, Hlk.
Qed.

Lemma wellFormed_check (m : gmap ObjectId Rental.t) :
  forallb (fun p => Rental.startDate p.2 <=? Rental.endDate p.2)
    (map_to_list m) = true ->
  forall i r, m !! i = Some r -> Rental.startDate r <= Rental.endDate r.
Proof.
  intros Hall i r Hlk. apply Z.leb_le.
  apply (stored_forall (fun _ r => Rental.startDate r <=? Rental.endDate r)
           m Hall i r Hlk).
Qed.

(** ** When the queries select nothing *)


Lemma updateQuery_none (rid carId : ObjectId) (start end_ : Z)
    (m : gmap ObjectId Rental.t) :
  (forall j r, j <> rid -> m !! j = Some r ->
               Rental.car r = carId -> Rental.status r = active ->
               overlapQuery start end_ r = false) ->
  (0 <? length (Rental_find (updateQuery rid carId start end_) m))%nat
  = false.
Proof.
  intros Hfree. apply Rental_find_none. intros j r Hlk. unfold updateQuery.
  destruct (bool_decide (j <> rid)) eqn:Hj; [|reflexivity].
  destruct (bool_decide (Rental.car r = carId)) eqn:Hc; [|reflexivity].
  destruct (bool_decide (Rental.status r = active)) eqn:Ha; [|reflexivity].
  apply bool_decide_eq_true in Hj, Hc, Ha. simpl. by apply (Hfree j).
Qed.

(** The check of the car by [updateRental], when the request names another
    car than the stored one. *)
Lemma updateRental_car_changed (old : Rental.t) (b : Body.t) (st : Store)
    (c : string) (carId : ObjectId) :
  Body.car b = Some c -> parseObjectId c = Some carId ->
  c <> toString (Rental.car old) ->
  updateRental_car old b st =
    match cars st !! carId with
    | None => inl CarNotFound
    | Some car =>
        if bool_decide (Car.status car = maintenance)
        then inl CarInMaintenance else inr tt
    end.
Proof.
  intros Hc HcarId Hne. unfold updateRental_car.
  rewrite Hc, (parseObjectId_present _ _ HcarId), HcarId.
  assert (Heqb : String.eqb c (toString (Rental.car old)) = false)
    by (by apply String.eqb_neq).
  rewrite Heqb. reflexivity.
Qed.

(** The past check of [updateRental], when it passes. *)
Lemma notPast (srv : Server) (old : Rental.t) (start : Z) :
  (Rental.status old = active ->
   dateOnly srv (now srv) <= dateOnly srv start) ->
  bool_decide (Rental.status old = active)
  && (dateOnly srv start <? dateOnly srv (now srv)) = false.
Proof.
  intros Hday.
  destruct (bool_decide (Rental.status old = active)) eqn:Ha; [|reflexivity].
  apply bool_decide_eq_true in Ha. simpl. apply Z.ltb_ge. auto.
Qed.

(** A PUT the validators let through, with ids of 24 hexadecimal digits and
    two Date objects, whose dates pass and which no rental conflicts with,
    is answered by the check of the car and the write. *)
Lemma put_past_query (srv : Server) (id : string) (b : Body.t) (st : Store)
    (rid carId : ObjectId) (old : Rental.t) (start end_ : Z) :
  rentalValidation b = true ->
  parseObjectId id = Some rid ->
  rentals st !! rid = Some old ->
  Body.car b ≫= parseObjectId = Some carId ->
  isValidObjectId_opt (Body.client b) = true ->
  isValidObjectId_opt (Body.employee b) = true ->
  Body.startDate b = Some (DateObject start) ->
  Body.endDate b = Some (DateObject end_) ->
  (Rental.status old = active ->
   dateOnly srv (now srv) <= dateOnly srv start) ->
  start < end_ ->
  (forall j r, j <> rid -> rentals st !! j = Some r ->
               Rental.car r = carId -> Rental.status r = active ->
               overlapQuery start end_ r = false) ->
  handle srv (PUT id b) st =
    match updateRental_car old b st with
    | inl e => (Err e, st)
    | inr _ =>
        match Rental_findByIdAndUpdate rid b (rentals st) with
        | inl e => (Err e, st)
        | inr (r, m) => (Updated rid r, setRentals st m)
        end
    end.
Proof.
  intros Hv Hid Hold Hcar Hcl Hem Hs He Hday Hlt Hfree.
  simpl. rewrite Hv. unfold updateRental. rewrite Hid, Hold.
  rewrite (updateRental_check_validated srv rid old b st carId start end_
             Hv Hcar Hs He).
  rewrite (notPast _ _ _ Hday), (updateQuery_none _ _ _ _ _ Hfree), Hcl, Hem.
  destruct (Z.leb_spec end_ start); [lia|]. reflexivity.
Qed.

Lemma NoActiveOverlap_empty (cs : gmap ObjectId Car.t) :
  NoActiveOverlap {| cars := cs; rentals := ∅ |}.
Proof. intros i j r1 r2 _ H1. simpl in H1. by rewrite lookup_empty in H1. Qed.

(** C1 does not hold as stated: the routes reach a store that breaks the
    invariant.  Two POST requests for V1, 1 to 5 June and 3 to 7 June, are in
    flight together; each gets the answer of its conflict query before the
    other writes, both are stored, and the two active rentals of V1
    overlap. *)
Lemma interleaved_requests_break_invariant :
  reachable
    (snd (run Fixture.utc [true; false; true; false]
            (Waiting Fixture.juneStay)
            (Waiting (Fixture.booking Fixture.V1 (Fixture.june 3)
                        (Fixture.june 7) None))
            Fixture.depot))
  /\ rentals
       (snd (run Fixture.utc [true; false; true; false]
               (Waiting Fixture.juneStay)
               (Waiting (Fixture.booking Fixture.V1 (Fixture.june 3)
                           (Fixture.june 7) None))
               Fixture.depot))
     = {[ 0%N := Fixture.stored Fixture.idV1 (Fixture.june 3) (Fixture.june 7)
                   active;
          1%N := Fixture.juneRental ]}
  /\ ~ NoActiveOverlap
         (snd (run Fixture.utc [true; false; true; false]
                 (Waiting Fixture.juneStay)
                 (Waiting (Fixture.booking Fixture.V1 (Fixture.june 3)
                             (Fixture.june 7) None))
                 Fixture.depot)).
Proof.
  split; [|split].
  - apply reachable_run; [apply reachable_init| |]; evaluate.
  - evaluate.
  - intros H.
    apply (H 0%N 1%N
             (Fixture.stored Fixture.idV1 (Fixture.june 3) (Fixture.june 7)
                active)
             Fixture.juneRental).
    1: discriminate.
    6: split.
    all: evaluate.
Qed.

(** C1, amended. In every store the rental routes reach when they serve one
    request after the other, no two distinct active rentals of one car have
    overlapping intervals (not (B1.start < B2.end and B2.start < B1.end)),
    and every request the routes serve that way, POST (createRental), PUT
    (updateRental, whatever it changes: dates, car or status) and DELETE
    (deleteRental), keeps that property.  So do the handlers taken alone:
    [createRental] and [deleteRental] whatever the request, [updateRental]
    whenever the body carries a date other than the number 0, which the
    controller reads as no date. *)
Theorem NoActiveOverlap_invariant :
  (forall st, servedInTurn st -> NoActiveOverlap st)
  /\ (forall srv rq st,
        NoActiveOverlap st -> NoActiveOverlap (snd (handle srv rq st)))
  /\ (forall srv b st,
        NoActiveOverlap st -> NoActiveOverlap (snd (createRental srv b st)))
  /\ (forall srv id b st,
        is_Some (Body.startDate b) \/ is_Some (Body.endDate b) ->
        Body.startDate b <> Some (Numeric 0) ->
        Body.endDate b <> Some (Numeric 0) ->
        NoActiveOverlap st -> NoActiveOverlap (snd (updateRental srv id b st)))
  /\ (forall id st,
        NoActiveOverlap st -> NoActiveOverlap (snd (deleteRental id st))).
Proof.
  split; [|split; [|split; [|split]]].
  - induction 1 as [cs|cs st _ IH|srv rq st _ IH].
    + apply NoActiveOverlap_empty.
    + exact IH.
    + by apply handle_preserves.
  - intros srv rq st. apply handle_preserves.
  - intros srv b st. apply createRental_preserves.
  - intros srv id b st. apply updateRental_preserves.
  - intros id st. apply deleteRental_preserves.
Qed.

Lemma NoActiveOverlap_invariant_witness :
  rentals Fixture.twoStays
    = {[ 0%N := Fixture.juneRental;
         1%N := Fixture.stored Fixture.idV1 (Fixture.june 10)
                  (Fixture.june 12) active ]}
  /\ NoActiveOverlap Fixture.twoStays
  /\ NoActiveOverlap
       (snd (handle Fixture.utc
               (PUT (Fixture.rid 1%N)
                  (Fixture.booking Fixture.V1 (Fixture.june 6)
                     (Fixture.june 9) None))
               Fixture.twoStays))
  /\ rentals
       (snd (handle Fixture.utc
               (PUT (Fixture.rid 1%N)
                  (Fixture.booking Fixture.V1 (Fixture.june 6)
                     (Fixture.june 9) None))
               Fixture.twoStays))
     = {[ 0%N := Fixture.juneRental;
          1%N := Fixture.stored Fixture.idV1 (Fixture.june 6)
                   (Fixture.june 9) active ]}
  /\ NoActiveOverlap
       (snd (updateRental Fixture.utc (Fixture.rid 1%N)
               (Fixture.datesOnly None (Some (Fixture.june 14)))
               Fixture.twoStays))
  /\ rentals
       (snd (updateRental Fixture.utc (Fixture.rid 1%N)
               (Fixture.datesOnly None (Some (Fixture.june 14)))
               Fixture.twoStays))
     = {[ 0%N := Fixture.juneRental;
          1%N := Fixture.stored Fixture.idV1 (Fixture.june 10)
                   (Fixture.june 14) active ]}.
Proof.
  assert (H : NoActiveOverlap Fixture.twoStays).
  { apply (proj1 NoActiveOverlap_invariant).
    apply servedInTurn_handle, servedInTurn_handle, servedInTurn_init. }
  split; [evaluate|]. split; [exact H|]. split; [|split; [evaluate|]].
  - apply (proj1 (proj2 NoActiveOverlap_invariant)). exact H.
  - split; [|evaluate].
    apply (proj1 (proj2 (proj2 (proj2 NoActiveOverlap_invariant)))).
    + right. vm_compute. eauto.
    + discriminate.
    + discriminate.
    + exact H.
Defined.

(** What the route's validators shield [updateRental] from: on a body with
    neither date the controller skips its conflict query, so a body that
    sets the car alone would put a rental on a car already taken for those
    days.  The PUT route refuses such a body before the controller runs. *)
Example updateRental_body_without_dates :
  fst (handle Fixture.utc (PUT (Fixture.rid 1%N) (Fixture.onlyCar Fixture.V1))
         Fixture.twoCars)
    = Err ValidationFailed
  /\ fst (updateRental Fixture.utc (Fixture.rid 1%N)
            (Fixture.onlyCar Fixture.V1) Fixture.twoCars)
     = Updated 1%N (Some (Fixture.stored Fixture.idV1 (Fixture.june 3)
                            (Fixture.june 7) active))
  /\ ~ NoActiveOverlap
         (snd (updateRental Fixture.utc (Fixture.rid 1%N)
                 (Fixture.onlyCar Fixture.V1) Fixture.twoCars)).
Proof.
  split; [evaluate|]. split; [evaluate|].
  intros H.
  apply (H 0%N 1%N Fixture.juneRental
           (Fixture.stored Fixture.idV1 (Fixture.june 3) (Fixture.june 7)
              active)).
  1: discriminate.
  6: split.
  all: evaluate.
Qed.

(** The same holds of a date that is falsy: the controller reads the number
    0 in [endDate] as no date, skips its date block, and the write stores
    the epoch as the end, before the start.  The validators of the PUT route
    leave a Date object or null in a date field, never a number. *)
Example updateRental_falsy_date :
  fst (handle Fixture.utc
         (PUT (Fixture.rid 0%N)
            (Body.mk None None None None (Some (Numeric 0)) None None))
         Fixture.oneBooking)
    = Err ValidationFailed
  /\ fst (updateRental Fixture.utc (Fixture.rid 0%N)
            (Body.mk None None None None (Some (Numeric 0)) None None)
            Fixture.oneBooking)
     = Updated 0%N (Some (Fixture.stored Fixture.idV1 (Fixture.june 1) 0
                            active)).
Proof. split; evaluate. Qed.

(** C10. For an existing rental with startDate <= endDate and a candidate
    with start <= end, the three-branch [$or] of both conflict queries says
    the same as the single closed-interval predicate
    existing.startDate <= end and existing.endDate >= start. *)
Theorem overlapQuery_closedOverlap (start end_ : Z) (r : Rental.t) :
  Rental.startDate r <= Rental.endDate r ->
  start <= end_ ->
  overlapQuery start end_ r = closedOverlap start end_ r.
Proof.
  intros Hr Hc. unfold overlapQuery, closedOverlap.
  rewrite !Z.geb_leb.
  destruct (Z.leb_spec (Rental.startDate r) start),
    (Z.leb_spec start (Rental.endDate r)),
    (Z.leb_spec (Rental.startDate r) end_),
    (Z.leb_spec end_ (Rental.endDate r)),
    (Z.leb_spec start (Rental.startDate r)),
    (Z.leb_spec (Rental.endDate r) end_); simpl; try reflexivity; lia.
Qed.

Lemma overlapQuery_closedOverlap_witness :
  overlapQuery (Fixture.june 4) (Fixture.june 6) Fixture.juneRental
  = closedOverlap (Fixture.june 4) (Fixture.june 6) Fixture.juneRental.
Proof.
  apply overlapQuery_closedOverlap; evaluate.
Defined.

(** C2 does not hold as stated, on the example of the spec: V1 has an
    active rental from 1 to 5 June; the request for 5 to 8 June on V1, whose
    start equals that rental's end, is refused. *)
Lemma back_to_back_refused :
  Fixture.oneBooking.(rentals) !! 0%N
    = Some (Fixture.stored Fixture.idV1 (Fixture.june 1) (Fixture.june 5)
              active)
  /\ handle Fixture.utc
       (POST (Fixture.booking Fixture.V1 (Fixture.june 5) (Fixture.june 8)
                None))
       Fixture.oneBooking
     = (Err AlreadyBooked, Fixture.oneBooking).
Proof. split; evaluate. Qed.

(** C2, amended. The conflict queries read the intervals as closed.  With
    every stored interval well formed (startDate <= endDate), a reservation
    that passes the other checks is refused with
    'Car is already booked for the selected dates' if and only if some
    active rental of the car has existing.startDate <= end and
    existing.endDate >= start; an amendment the PUT route serves, likewise,
    if and only if some other active rental of the car has.  So a candidate
    whose start equals an active rental's end, or whose end equals its
    start, is refused, on reservation and on amendment alike. *)
Theorem closed_interval_conflict :
  (forall srv b st carId start end_,
     passesChecks srv b st carId start end_ ->
     (forall i r, rentals st !! i = Some r ->
                  Rental.startDate r <= Rental.endDate r) ->
     (fst (createRental srv b st) = Err AlreadyBooked
      <-> exists i r, rentals st !! i = Some r
                      /\ Rental.car r = carId /\ Rental.status r = active
                      /\ Rental.startDate r <= end_
                      /\ start <= Rental.endDate r))
  /\ (forall srv id b st rid carId old start end_,
        rentalValidation b = true ->
        parseObjectId id = Some rid ->
        rentals st !! rid = Some old ->
        Body.car b ≫= parseObjectId = Some carId ->
        Body.startDate b = Some (DateObject start) ->
        Body.endDate b = Some (DateObject end_) ->
        (Rental.status old = active ->
         dateOnly srv (now srv) <= dateOnly srv start) ->
        start < end_ ->
        (forall i r, rentals st !! i = Some r ->
                     Rental.startDate r <= Rental.endDate r) ->
        (fst (handle srv (PUT id b) st) = Err AlreadyBooked
         <-> exists j r, j <> rid /\ rentals st !! j = Some r
                         /\ Rental.car r = carId /\ Rental.status r = active
                         /\ Rental.startDate r <= end_
                         /\ start <= Rental.endDate r))
  /\ (forall srv b st carId start end_ i r,
        passesChecks srv b st carId start end_ ->
        rentals st !! i = Some r ->
        Rental.car r = carId -> Rental.status r = active ->
        Rental.endDate r = start \/ Rental.startDate r = end_ ->
        Rental.startDate r <= Rental.endDate r ->
        createRental srv b st = (Err AlreadyBooked, st)).
Proof.
  split; [|split].
  - intros srv b st carId start end_ Hpass Hwf.
    assert (Hlt : start < end_) by (destruct Hpass; tauto).
    split.
    + intros Hres.
      apply createRental_AlreadyBooked in Hres
        as (carId' & start' & end' & i & r & Hcar & Hs & He & Hlk & Hq).
      destruct Hpass as (Hcar' & _ & _ & _ & Hs' & He' & _).
      assert (carId' = carId) by congruence.
      assert (start' = start) by congruence.
      assert (end' = end_) by congruence. subst.
      unfold createQuery in Hq. rewrite !andb_true_iff in Hq.
      destruct Hq as [[Hc Ha] Hq]. apply bool_decide_eq_true in Hc, Ha.
      apply overlapQuery_meets in Hq; [|lia|by apply (Hwf i)].
      exists i, r. tauto.
    + intros (i & r & Hlk & Hcar & Ha & Ho1 & Ho2).
      rewrite (createRental_passes _ _ _ _ _ _ Hpass).
      assert (Hsome : (0 <? length (Rental_find (createQuery carId start end_)
                                      (rentals st)))%nat = true).
      { apply Rental_find_some. exists i, r. split; [exact Hlk|].
        unfold createQuery.
        rewrite (bool_decide_eq_true_2 _ Hcar), (bool_decide_eq_true_2 _ Ha).
        by apply overlapQuery_closed. }
      by rewrite Hsome.
  - intros srv id b st rid carId old start end_ Hv Hid Hold Hcar Hs He
      Hday Hlt Hwf.
    destruct (put_conflict_iff srv id b st rid carId old start end_
                Hv Hid Hold Hcar Hs He Hday Hlt) as [Hto Hfrom].
    split.
    + intros Hres. destruct (Hfrom Hres) as (j & r & Hj & Hlk & Hc & Ha & Hq).
      apply overlapQuery_meets in Hq; [|lia|by apply (Hwf j)].
      exists j, r. tauto.
    + intros (j & r & Hj & Hlk & Hc & Ha & Ho1 & Ho2).
      rewrite Hto; [reflexivity|].
      exists j, r. repeat split; try assumption.
      by apply overlapQuery_closed.
  - intros srv b st carId start end_ i r Hpass Hlk Hcar Ha Htouch Hwf.
    assert (Hlt : start < end_) by (destruct Hpass; tauto).
    rewrite (createRental_passes _ _ _ _ _ _ Hpass).
    assert (Hsome : (0 <? length (Rental_find (createQuery carId start end_)
                                    (rentals st)))%nat = true).
    { apply Rental_find_some. exists i, r. split; [exact Hlk|].
      unfold createQuery.
      rewrite (bool_decide_eq_true_2 _ Hcar), (bool_decide_eq_true_2 _ Ha).
      apply overlapQuery_closed; lia. }
    by rewrite Hsome.
Qed.

Lemma closed_interval_conflict_witness :
  (fst (createRental Fixture.utc
          (Fixture.booking Fixture.V1 (Fixture.june 5) (Fixture.june 8) None)
          Fixture.oneBooking) = Err AlreadyBooked
   <-> exists i r, rentals Fixture.oneBooking !! i = Some r
                   /\ Rental.car r = Fixture.idV1
                   /\ Rental.status r = active
                   /\ Rental.startDate r <= Fixture.june 8
                   /\ Fixture.june 5 <= Rental.endDate r)
  /\ (fst (handle Fixture.utc
             (PUT (Fixture.rid 1%N)
                (Fixture.booking Fixture.V1 (Fixture.june 5) (Fixture.june 7)
                   None))
             Fixture.twoCars) = Err AlreadyBooked
      <-> exists j r, j <> 1%N /\ rentals Fixture.twoCars !! j = Some r
                      /\ Rental.car r = Fixture.idV1
                      /\ Rental.status r = active
                      /\ Rental.startDate r <= Fixture.june 7
                      /\ Fixture.june 5 <= Rental.endDate r)
  /\ createRental Fixture.utc
       (Fixture.booking Fixture.V1 (Fixture.june 5) (Fixture.june 8) None)
       Fixture.oneBooking
     = (Err AlreadyBooked, Fixture.oneBooking).
Proof.
  assert (Hpass : passesChecks Fixture.utc
                    (Fixture.booking Fixture.V1 (Fixture.june 5)
                       (Fixture.june 8) None)
                    Fixture.oneBooking Fixture.idV1 (Fixture.june 5)
                    (Fixture.june 8)).
  { repeat split; try evaluate.
    exists (Car.mk available). split; evaluate. }
  split; [|split].
  - apply (proj1 closed_interval_conflict Fixture.utc _ Fixture.oneBooking
             Fixture.idV1 (Fixture.june 5) (Fixture.june 8) Hpass).
    apply wellFormed_check. evaluate.
  - apply (proj1 (proj2 closed_interval_conflict) Fixture.utc
             (Fixture.rid 1%N) _ Fixture.twoCars 1%N Fixture.idV1
             (Fixture.stored Fixture.idV2 (Fixture.june 3) (Fixture.june 7)
                active)
             (Fixture.june 5) (Fixture.june 7)).
    7: intros _.
    1-8: evaluate.
    apply wellFormed_check. evaluate.
  - apply (proj2 (proj2 closed_interval_conflict) Fixture.utc _
             Fixture.oneBooking Fixture.idV1 (Fixture.june 5)
             (Fixture.june 8) 0%N Fixture.juneRental Hpass).
    4: left.
    all: evaluate.
Defined.







(** C5 does not hold as stated: the rental of early May is completed, a
    terminal state; the PUT that sets its status to 'active' is answered 200
    and the stored rental is active again. *)
Lemma completed_rental_reopened :
  rentals Fixture.history !! 0%N
    = Some (Fixture.stored Fixture.idV1 (Fixture.may 1) (Fixture.may 5)
              completed)
  /\ handle Fixture.utc
       (PUT (Fixture.rid 0%N)
          (Fixture.booking Fixture.V1 (Fixture.may 1) (Fixture.may 5)
             (Some "active")))
       Fixture.history
     = (Updated 0%N
          (Some (Fixture.stored Fixture.idV1 (Fixture.may 1) (Fixture.may 5)
                   active)),
        Fixture.withRentals
          [Fixture.stored Fixture.idV1 (Fixture.may 1) (Fixture.may 5)
             active]).
Proof. split; evaluate. Qed.

(** C5, amended. The status of a rental is not guarded by a state machine:
    there is no InvalidTransition error, and an update that is accepted
    stores the status the request names (any of active, completed,
    cancelled), or keeps the stored one when the request names none,
    whatever the stored status was.  Each of the nine moves between two
    statuses is accepted on some store. *)
Theorem status_update_unguarded :
  (forall srv id b st rid r st',
     handle srv (PUT id b) st = (Updated rid (Some r), st') ->
     exists old,
       rentals st !! rid = Some old
       /\ rentals st' !! rid = Some r
       /\ Rental.status r
          = default (Rental.status old) (Body.status b ≫= parseStatus))
  /\ (forall from to : Status,
        handle Fixture.utc
          (PUT (Fixture.rid 0%N)
             (Fixture.booking Fixture.V1 (Fixture.june 1) (Fixture.june 5)
                (Some (Fixture.statusName to))))
          (Fixture.withRentals
             [Fixture.stored Fixture.idV1 (Fixture.june 1) (Fixture.june 5)
                from])
        = (Updated 0%N
             (Some (Fixture.stored Fixture.idV1 (Fixture.june 1)
                      (Fixture.june 5) to)),
           Fixture.withRentals
             [Fixture.stored Fixture.idV1 (Fixture.june 1) (Fixture.june 5)
                to])).
Proof.
  split.
  - intros srv id b st rid r st' Hput. simpl in Hput.
    destruct (rentalValidation b); [|discriminate].
    apply updateRental_Updated in Hput
      as (old & p & _ & Hold & _ & Hp & [= ->] & ->).
    exists old. split; [exact Hold|]. simpl. rewrite lookup_insert_eq.
    split; [reflexivity|].
    apply castBody_inr in Hp as (_ & _ & _ & _ & _ & _ & _ & Hst).
    apply castStatus_inr in Hst. by rewrite Hst.
  - intros [] []; evaluate.
Qed.

Lemma status_update_unguarded_witness :
  exists old,
    rentals Fixture.history !! 0%N = Some old
    /\ rentals (Fixture.withRentals
                  [Fixture.stored Fixture.idV1 (Fixture.may 1)
                     (Fixture.may 5) active]) !! 0%N
       = Some (Fixture.stored Fixture.idV1 (Fixture.may 1) (Fixture.may 5)
                 active)
    /\ Rental.status (Fixture.stored Fixture.idV1 (Fixture.may 1)
                        (Fixture.may 5) active)
       = default (Rental.status old) (Some "active" ≫= parseStatus).
Proof.
  apply (proj1 status_update_unguarded Fixture.utc (Fixture.rid 0%N)
           (Fixture.booking Fixture.V1 (Fixture.may 1) (Fixture.may 5)
              (Some "active"))
           Fixture.history 0%N).
  evaluate.
Defined.

(** ** Day granularity *)

(** [dateOnly] is the midnight at or before its argument, less than a day
    away. *)
Lemma dateOnly_bounds (srv : Server) (t : Z) :
  dateOnly srv t <= t < dateOnly srv t + msPerDay.
Proof.
  unfold dateOnly, msPerDay.
  pose proof (Z.div_mod (t + tz srv) 86400000 ltac:(lia)).
  pose proof (Z.mod_pos_bound (t + tz srv) 86400000 ltac:(lia)).
  lia.
Qed.

(** It is a midnight of the server's zone. *)
Lemma dateOnly_midnight (srv : Server) (t : Z) :
  (dateOnly srv t + tz srv) mod msPerDay = 0.
Proof.
  unfold dateOnly.
  replace ((t + tz srv) / msPerDay * msPerDay - tz srv + tz srv)
    with ((t + tz srv) / msPerDay * msPerDay) by lia.
  apply Z.mod_mul. discriminate.
Qed.

(** The answers of the two date checks of [createRental], once the ids and
    the cost have passed and both dates are valid. *)
Lemma createRental_date_checks (srv : Server) (b : Body.t) (st : Store)
    (start end_ : Z) :
  isValidObjectId_opt (Body.car b) = true ->
  isValidObjectId_opt (Body.client b) = true ->
  isValidObjectId_opt (Body.employee b) = true ->
  costRejected (Body.totalCost b) = false ->
  newDate (Body.startDate b) = Some start ->
  newDate (Body.endDate b) = Some end_ ->
  (fst (createRental srv b st) = Err StartInPast
   <-> dateOnly srv start < dateOnly srv (now srv))
  /\ (dateOnly srv (now srv) <= dateOnly srv start ->
      (fst (createRental srv b st) = Err EndNotAfterStart
       <-> end_ <= start)).
Proof.
  intros Hc Hcl Hem Hcost Hs He.
  assert (Hpast : dateOnly srv start < dateOnly srv (now srv) ->
                  createRental srv b st = (Err StartInPast, st)).
  { intros Hlt. unfold createRental, createRental_check.
    rewrite Hc, Hcl, Hem, Hcost, Hs, He. simpl.
    destruct (Z.ltb_spec (dateOnly srv start) (dateOnly srv (now srv)));
      [reflexivity|lia]. }
  assert (Hinv : dateOnly srv (now srv) <= dateOnly srv start ->
                 end_ <= start ->
                 createRental srv b st = (Err EndNotAfterStart, st)).
  { intros Hday Hle. unfold createRental, createRental_check.
    rewrite Hc, Hcl, Hem, Hcost, Hs, He. simpl.
    destruct (Z.ltb_spec (dateOnly srv start) (dateOnly srv (now srv)));
      [lia|].
    destruct (Z.leb_spec end_ start); [reflexivity|lia]. }
  split; [split|intros Hday; split].
  - intros Hres.
    destruct (Z.lt_ge_cases (dateOnly srv start) (dateOnly srv (now srv)))
      as [|Hday]; [assumption|].
    destruct (Z.le_gt_cases end_ start) as [Hle|Hlt].
    + rewrite (Hinv Hday Hle) in Hres. discriminate.
    + by destruct (createRental_after_dates _ _ _ _ _ _ Hs He Hday Hlt Hres).
  - intros Hlt. by rewrite (Hpast Hlt).
  - intros Hres.
    destruct (Z.le_gt_cases end_ start) as [Hle|Hlt]; [assumption|].
    by destruct (createRental_after_dates _ _ _ _ _ _ Hs He Hday Hlt Hres).
  - intros Hle. by rewrite (Hinv Hday Hle).
Qed.

(** C6 does not hold as stated: 1 June 10:00 and 1 June 18:00 are on the
    same calendar day, so at day granularity the interval between them is
    empty; [createRental] accepts it.  And with that rental stored, a second
    one on the same car and day, from 19:00 to 21:00, is accepted too. *)
Lemma same_day_interval_accepted :
  dateOnly Fixture.utc (Fixture.june 1 + Fixture.hours 10)
    = dateOnly Fixture.utc (Fixture.june 1 + Fixture.hours 18)
  /\ fst (handle Fixture.utc
            (POST (Fixture.booking Fixture.V1
                     (Fixture.june 1 + Fixture.hours 10)
                     (Fixture.june 1 + Fixture.hours 18) None))
            Fixture.depot)
     = Created 0%N (Fixture.stored Fixture.idV1
                      (Fixture.june 1 + Fixture.hours 10)
                      (Fixture.june 1 + Fixture.hours 18) active)
  /\ fst (handle Fixture.utc
            (POST (Fixture.booking Fixture.V1
                     (Fixture.june 1 + Fixture.hours 19)
                     (Fixture.june 1 + Fixture.hours 21) None))
            (Fixture.withRentals
               [Fixture.stored Fixture.idV1
                  (Fixture.june 1 + Fixture.hours 10)
                  (Fixture.june 1 + Fixture.hours 18) active]))
     = Created 1%N (Fixture.stored Fixture.idV1
                      (Fixture.june 1 + Fixture.hours 19)
                      (Fixture.june 1 + Fixture.hours 21) active).
Proof. repeat split; evaluate. Qed.

(** C6, amended. Of the date comparisons only the past-date check works at
    day granularity.  The start is brought to the midnight that begins its
    calendar day in the server's zone (at or before it, less than a day
    away), and that midnight is compared with the one of the server's day:
    a start is refused as past exactly when its day is before today, so two
    starts of one calendar day fare alike, whatever their time of day.  The
    inverted-interval check and the conflict query compare the timestamps as
    they are, time of day included: past the first check, a request is
    refused for its interval exactly when end <= start, and a request whose
    interval lies after or before every active rental of the car, be it by a
    millisecond of the same day, is not refused for a conflict. *)
Theorem only_past_check_by_day :
  (forall srv t,
     dateOnly srv t <= t < dateOnly srv t + msPerDay
     /\ (dateOnly srv t + tz srv) mod msPerDay = 0)
  /\ (forall srv b st start end_,
        isValidObjectId_opt (Body.car b) = true ->
        isValidObjectId_opt (Body.client b) = true ->
        isValidObjectId_opt (Body.employee b) = true ->
        costRejected (Body.totalCost b) = false ->
        newDate (Body.startDate b) = Some start ->
        newDate (Body.endDate b) = Some end_ ->
        (fst (createRental srv b st) = Err StartInPast
         <-> (start + tz srv) / msPerDay < (now srv + tz srv) / msPerDay)
        /\ (dateOnly srv (now srv) <= dateOnly srv start ->
            (fst (createRental srv b st) = Err EndNotAfterStart
             <-> end_ <= start)))
  /\ (forall srv b b' st start start' end_ end',
        isValidObjectId_opt (Body.car b) = true ->
        isValidObjectId_opt (Body.client b) = true ->
        isValidObjectId_opt (Body.employee b) = true ->
        costRejected (Body.totalCost b) = false ->
        newDate (Body.startDate b) = Some start ->
        newDate (Body.endDate b) = Some end_ ->
        isValidObjectId_opt (Body.car b') = true ->
        isValidObjectId_opt (Body.client b') = true ->
        isValidObjectId_opt (Body.employee b') = true ->
        costRejected (Body.totalCost b') = false ->
        newDate (Body.startDate b') = Some start' ->
        newDate (Body.endDate b') = Some end' ->
        (start + tz srv) / msPerDay = (start' + tz srv) / msPerDay ->
        (fst (createRental srv b st) = Err StartInPast
         <-> fst (createRental srv b' st) = Err StartInPast))
  /\ (forall srv b st carId start end_,
        passesChecks srv b st carId start end_ ->
        (forall i r, rentals st !! i = Some r ->
                     Rental.car r = carId -> Rental.status r = active ->
                     Rental.startDate r <= Rental.endDate r
                     /\ (Rental.endDate r < start
                         \/ end_ < Rental.startDate r)) ->
        fst (createRental srv b st) <> Err AlreadyBooked).
Proof.
  assert (Hdays : forall srv t x,
            dateOnly srv t < dateOnly srv x
            <-> (t + tz srv) / msPerDay < (x + tz srv) / msPerDay).
  { intros srv t x. unfold dateOnly, msPerDay. lia. }
  split; [|split; [|split]].
  - intros srv t. split; [apply dateOnly_bounds|apply dateOnly_midnight].
  - intros srv b st start end_ Hc Hcl Hem Hcost Hs He.
    destruct (createRental_date_checks srv b st start end_
                Hc Hcl Hem Hcost Hs He) as [H1 H2].
    split; [|exact H2]. by rewrite H1, Hdays.
  - intros srv b b' st start start' end_ end' Hc Hcl Hem Hcost Hs He
      Hc' Hcl' Hem' Hcost' Hs' He' Hsame.
    destruct (createRental_date_checks srv b st start end_
                Hc Hcl Hem Hcost Hs He) as [H1 _].
    destruct (createRental_date_checks srv b' st start' end'
                Hc' Hcl' Hem' Hcost' Hs' He') as [H1' _].
    rewrite H1, H1', !Hdays, Hsame. reflexivity.
  - intros srv b st carId start end_ Hpass Hfree Hres.
    apply createRental_AlreadyBooked in Hres
      as (carId' & start' & end' & i & r & Hcar & Hs & He & Hlk & Hq).
    destruct Hpass as (Hcar' & _ & _ & _ & Hs' & He' & _ & Hlt & _).
    assert (carId' = carId) by congruence.
    assert (start' = start) by congruence.
    assert (end' = end_) by congruence. subst.
    unfold createQuery in Hq. rewrite !andb_true_iff in Hq.
    destruct Hq as [[Hc Ha] Hq]. apply bool_decide_eq_true in Hc, Ha.
    destruct (Hfree i r Hlk Hc Ha) as [Hwf Hapart].
    apply overlapQuery_true in Hq. lia.
Qed.

Lemma only_past_check_by_day_witness :
  ((fst (createRental Fixture.utc
           (Fixture.booking Fixture.V1 (Fixture.may 19 + Fixture.hours 23)
              (Fixture.june 5) None) Fixture.depot) = Err StartInPast
    <-> (Fixture.may 19 + Fixture.hours 23 + tz Fixture.utc) / msPerDay
        < (now Fixture.utc + tz Fixture.utc) / msPerDay)
   /\ (dateOnly Fixture.utc (now Fixture.utc)
       <= dateOnly Fixture.utc (Fixture.may 19 + Fixture.hours 23) ->
       (fst (createRental Fixture.utc
               (Fixture.booking Fixture.V1 (Fixture.may 19 + Fixture.hours 23)
                  (Fixture.june 5) None) Fixture.depot) = Err EndNotAfterStart
        <-> Fixture.june 5 <= Fixture.may 19 + Fixture.hours 23)))
  /\ (fst (createRental Fixture.utc
             (Fixture.booking Fixture.V1 (Fixture.may 20 + Fixture.hours 1)
                (Fixture.june 5) None) Fixture.depot) = Err StartInPast
      <-> fst (createRental Fixture.utc
                 (Fixture.booking Fixture.V2
                    (Fixture.may 20 + Fixture.hours 23) (Fixture.june 9)
                    None) Fixture.depot) = Err StartInPast)
  /\ fst (createRental Fixture.utc
            (Fixture.booking Fixture.V1 (Fixture.june 5 + 1) (Fixture.june 8)
               None) Fixture.oneBooking) <> Err AlreadyBooked.
Proof.
  split; [|split].
  - apply (proj1 (proj2 only_past_check_by_day) Fixture.utc
             (Fixture.booking Fixture.V1 (Fixture.may 19 + Fixture.hours 23)
                (Fixture.june 5) None)
             Fixture.depot); evaluate.
  - apply (proj1 (proj2 (proj2 only_past_check_by_day)) Fixture.utc
             (Fixture.booking Fixture.V1 (Fixture.may 20 + Fixture.hours 1)
                (Fixture.june 5) None)
             (Fixture.booking Fixture.V2 (Fixture.may 20 + Fixture.hours 23)
                (Fixture.june 9) None)
             Fixture.depot (Fixture.may 20 + Fixture.hours 1)
             (Fixture.may 20 + Fixture.hours 23) (Fixture.june 5)
             (Fixture.june 9)); evaluate.
  - apply (proj2 (proj2 (proj2 only_past_check_by_day)) Fixture.utc _
             Fixture.oneBooking Fixture.idV1 (Fixture.june 5 + 1)
             (Fixture.june 8)).
    + repeat split; try evaluate.
      exists (Car.mk available). split; evaluate.
    + intros i r Hlk _ _.
      pose proof (stored_forall
                    (fun _ r =>
                       (Rental.startDate r <=? Rental.endDate r)
                       && (Rental.endDate r <? Fixture.june 5 + 1))
                    (rentals Fixture.oneBooking) ltac:(evaluate) i r Hlk)
        as H.
      apply andb_true_iff in H as [H1 H2].
      apply Z.leb_le in H1. apply Z.ltb_lt in H2. auto.
Defined.

(** C7. A reservation whose end is not after its start
    (endDate <= startDate) is always refused by [createRental] and nothing
    is written, whatever the car's status and whatever rentals are stored;
    the error is of the InvalidInterval kind once the ids and the cost,
    which [createRental] checks first, have passed.  [updateRental] applies
    the same check to the interval that results from the request whenever
    its date block runs, that is when a date of the body is truthy; an
    amendment the PUT route serves, whose dates are Date objects, is
    therefore refused the same way. *)
Theorem inverted_interval_rejected :
  (forall srv b st start end_,
     newDate (Body.startDate b) = Some start ->
     newDate (Body.endDate b) = Some end_ ->
     end_ <= start ->
     (exists e, createRental srv b st = (Err e, st))
     /\ (isValidObjectId_opt (Body.car b) = true ->
         isValidObjectId_opt (Body.client b) = true ->
         isValidObjectId_opt (Body.employee b) = true ->
         costRejected (Body.totalCost b) = false ->
         exists e, createRental srv b st = (Err e, st)
                   /\ kindOf e = InvalidInterval))
  /\ (forall srv id b st rid old start end_,
        parseObjectId id = Some rid ->
        rentals st !! rid = Some old ->
        truthy (Body.startDate b) = true \/ truthy (Body.endDate b) = true ->
        orStored (Body.startDate b) (Rental.startDate old) = Some start ->
        orStored (Body.endDate b) (Rental.endDate old) = Some end_ ->
        end_ <= start ->
        exists e, updateRental srv id b st = (Err e, st)
                  /\ kindOf e = InvalidInterval)
  /\ (forall srv id b st rid old start end_,
        rentalValidation b = true ->
        parseObjectId id = Some rid ->
        rentals st !! rid = Some old ->
        Body.startDate b = Some (DateObject start) ->
        Body.endDate b = Some (DateObject end_) ->
        end_ <= start ->
        exists e, handle srv (PUT id b) st = (Err e, st)
                  /\ kindOf e = InvalidInterval).
Proof.
  assert (Hupd : forall srv id b st rid old start end_,
            parseObjectId id = Some rid ->
            rentals st !! rid = Some old ->
            truthy (Body.startDate b) = true
            \/ truthy (Body.endDate b) = true ->
            orStored (Body.startDate b) (Rental.startDate old) = Some start ->
            orStored (Body.endDate b) (Rental.endDate old) = Some end_ ->
            end_ <= start ->
            exists e, updateRental srv id b st = (Err e, st)
                      /\ kindOf e = InvalidInterval).
  { intros srv id b st rid old start end_ Hid Hold Hsome Hs He Hle.
    unfold updateRental, updateRental_check, updateRental_dates.
    rewrite Hid, Hold, Hs, He.
    assert (Hg : truthy (Body.startDate b) || truthy (Body.endDate b) = true).
    { apply orb_true_iff. exact Hsome. }
    rewrite Hg.
    destruct (bool_decide _ && _); [by exists StartInPastActive|].
    destruct (Z.leb_spec end_ start); [|lia].
    by exists EndNotAfterStart. }
  split; [|split].
  - intros srv b st start end_ Hs He Hle. split.
    + unfold createRental, createRental_check. rewrite Hs, He.
      destruct (negb (isValidObjectId_opt (Body.car b))); [eauto|].
      destruct (negb (isValidObjectId_opt (Body.client b))); [eauto|].
      destruct (negb (isValidObjectId_opt (Body.employee b))); [eauto|].
      destruct (costRejected (Body.totalCost b)); [eauto|].
      destruct (_ <? _); [eauto|].
      destruct (Z.leb_spec end_ start); [eauto|lia].
    + intros Hc Hcl Hem Hcost.
      unfold createRental, createRental_check.
      rewrite Hc, Hcl, Hem, Hcost, Hs, He. simpl.
      destruct (_ <? _); [by exists StartInPast|].
      destruct (Z.leb_spec end_ start); [|lia].
      by exists EndNotAfterStart.
  - exact Hupd.
  - intros srv id b st rid old start end_ Hv Hid Hold Hs He Hle.
    simpl. rewrite Hv.
    apply (Hupd srv id b st rid old start end_ Hid Hold); try assumption.
    + left. by rewrite Hs.
    + unfold orStored. by rewrite Hs.
    + unfold orStored. by rewrite He.
Qed.

Lemma inverted_interval_rejected_witness :
  (exists e,
     createRental Fixture.utc
       (Fixture.booking Fixture.V1 (Fixture.june 5) (Fixture.june 5) None)
       Fixture.depot = (Err e, Fixture.depot)
     /\ kindOf e = InvalidInterval)
  /\ (exists e,
        updateRental Fixture.utc (Fixture.rid 0%N)
          (Fixture.datesOnly None (Some (Fixture.june 1)))
          Fixture.twoCars = (Err e, Fixture.twoCars)
        /\ kindOf e = InvalidInterval)
  /\ (exists e,
        handle Fixture.utc
          (PUT (Fixture.rid 0%N)
             (Fixture.booking Fixture.V1 (Fixture.june 5) (Fixture.june 2)
                None))
          Fixture.twoCars = (Err e, Fixture.twoCars)
        /\ kindOf e = InvalidInterval).
Proof.
  split; [|split].
  - apply (proj1 inverted_interval_rejected Fixture.utc _ Fixture.depot
             (Fixture.june 5) (Fixture.june 5)); evaluate.
  - apply (proj1 (proj2 inverted_interval_rejected) Fixture.utc
             (Fixture.rid 0%N) _ Fixture.twoCars 0%N Fixture.juneRental
             (Fixture.june 1) (Fixture.june 1)).
    3: right.
    all: evaluate.
  - apply (proj2 (proj2 inverted_interval_rejected) Fixture.utc
             (Fixture.rid 0%N) _ Fixture.twoCars 0%N Fixture.juneRental
             (Fixture.june 5) (Fixture.june 2)); evaluate.
Defined.

(** C8. A reservation whose start falls on a calendar day before the
    server's current day is refused with an error of the InvalidInterval
    kind; the current day is that of the server's clock ([now srv]), no field
    of the request enters it.  On amendment the same check is made when the
    stored rental is active, on the start that results from the request
    whenever the date block of [updateRental] runs, that is when a date of
    the body is truthy, as the Date objects of an amendment the PUT route
    serves are; for a completed or cancelled rental the answer does not
    depend on the clock at all. *)
Theorem past_start_rejected :
  (forall srv b st start,
     isValidObjectId_opt (Body.car b) = true ->
     isValidObjectId_opt (Body.client b) = true ->
     isValidObjectId_opt (Body.employee b) = true ->
     costRejected (Body.totalCost b) = false ->
     newDate (Body.startDate b) = Some start ->
     dateOnly srv start < dateOnly srv (now srv) ->
     exists e, createRental srv b st = (Err e, st)
               /\ kindOf e = InvalidInterval)
  /\ (forall srv id b st rid old start,
        parseObjectId id = Some rid ->
        rentals st !! rid = Some old ->
        Rental.status old = active ->
        truthy (Body.startDate b) = true \/ truthy (Body.endDate b) = true ->
        orStored (Body.startDate b) (Rental.startDate old) = Some start ->
        dateOnly srv start < dateOnly srv (now srv) ->
        exists e, updateRental srv id b st = (Err e, st)
                  /\ kindOf e = InvalidInterval)
  /\ (forall srv id b st rid old start,
        rentalValidation b = true ->
        parseObjectId id = Some rid ->
        rentals st !! rid = Some old ->
        Rental.status old = active ->
        Body.startDate b = Some (DateObject start) ->
        dateOnly srv start < dateOnly srv (now srv) ->
        exists e, handle srv (PUT id b) st = (Err e, st)
                  /\ kindOf e = InvalidInterval)
  /\ (forall srv srv' id b st rid old,
        parseObjectId id = Some rid ->
        rentals st !! rid = Some old ->
        Rental.status old <> active ->
        updateRental srv id b st = updateRental srv' id b st).
Proof.
  assert (Hupd : forall srv id b st rid old start,
            parseObjectId id = Some rid ->
            rentals st !! rid = Some old ->
            Rental.status old = active ->
            truthy (Body.startDate b) = true
            \/ truthy (Body.endDate b) = true ->
            orStored (Body.startDate b) (Rental.startDate old) = Some start ->
            dateOnly srv start < dateOnly srv (now srv) ->
            exists e, updateRental srv id b st = (Err e, st)
                      /\ kindOf e = InvalidInterval).
  { intros srv id b st rid old start Hid Hold Hact Hsome Hs Hpast.
    unfold updateRental, updateRental_check, updateRental_dates.
    rewrite Hid, Hold, Hs.
    assert (Hg : truthy (Body.startDate b) || truthy (Body.endDate b) = true).
    { apply orb_true_iff. exact Hsome. }
    rewrite Hg, (bool_decide_eq_true_2 _ Hact).
    destruct (orStored (Body.endDate b) (Rental.endDate old));
      [|by exists InvalidDateFormat].
    destruct (Z.ltb_spec (dateOnly srv start) (dateOnly srv (now srv)));
      [|lia].
    by exists StartInPastActive. }
  split; [|split; [|split]].
  - intros srv b st start Hc Hcl Hem Hcost Hs Hpast.
    unfold createRental, createRental_check.
    rewrite Hc, Hcl, Hem, Hcost, Hs. simpl.
    destruct (newDate (Body.endDate b)); [|by exists InvalidDateFormat].
    destruct (Z.ltb_spec (dateOnly srv start) (dateOnly srv (now srv)));
      [|lia].
    by exists StartInPast.
  - exact Hupd.
  - intros srv id b st rid old start Hv Hid Hold Hact Hs Hpast.
    simpl. rewrite Hv.
    apply (Hupd srv id b st rid old start Hid Hold Hact); try assumption.
    + left. by rewrite Hs.
    + unfold orStored. by rewrite Hs.
  - intros srv srv' id b st rid old Hid Hold Hna.
    unfold updateRental, updateRental_check, updateRental_dates.
    rewrite Hid, Hold, (bool_decide_eq_false_2 _ Hna). reflexivity.
Qed.

Lemma past_start_rejected_witness :
  (exists e,
     createRental Fixture.utc
       (Fixture.booking Fixture.V1 (Fixture.may 10) (Fixture.june 5) None)
       Fixture.depot = (Err e, Fixture.depot)
     /\ kindOf e = InvalidInterval)
  /\ (exists e,
        updateRental Fixture.utc (Fixture.rid 0%N)
          (Fixture.datesOnly (Some (Fixture.may 10)) None)
          Fixture.oneBooking = (Err e, Fixture.oneBooking)
        /\ kindOf e = InvalidInterval)
  /\ (exists e,
        handle Fixture.utc
          (PUT (Fixture.rid 0%N)
             (Fixture.booking Fixture.V1 (Fixture.may 10) (Fixture.june 5)
                None))
          Fixture.oneBooking = (Err e, Fixture.oneBooking)
        /\ kindOf e = InvalidInterval)
  /\ updateRental Fixture.utc (Fixture.rid 0%N)
       (Fixture.datesOnly None (Some (Fixture.may 6))) Fixture.history
     = updateRental Fixture.utcLater (Fixture.rid 0%N)
         (Fixture.datesOnly None (Some (Fixture.may 6))) Fixture.history.
Proof.
  split; [|split; [|split]].
  - apply (proj1 past_start_rejected Fixture.utc _ Fixture.depot
             (Fixture.may 10)); evaluate.
  - apply (proj1 (proj2 past_start_rejected) Fixture.utc (Fixture.rid 0%N) _
             Fixture.oneBooking 0%N Fixture.juneRental (Fixture.may 10)).
    4: left.
    all: evaluate.
  - apply (proj1 (proj2 (proj2 past_start_rejected)) Fixture.utc
             (Fixture.rid 0%N) _ Fixture.oneBooking 0%N Fixture.juneRental
             (Fixture.may 10)); evaluate.
  - apply (proj2 (proj2 (proj2 past_start_rejected)) Fixture.utc
             Fixture.utcLater (Fixture.rid 0%N) _ Fixture.history 0%N
             (Fixture.stored Fixture.idV1 (Fixture.may 1) (Fixture.may 5)
                completed)).
    3: discriminate.
    all: evaluate.
Defined.



(** * Further properties of the code *)

(** ** The rental handlers *)

Lemma createRental_keeps_cars (srv : Server) (b : Body.t) (st : Store) :
  cars (snd (createRental srv b st)) = cars st.
Proof.
  unfold createRental, createRental_commit.
  destruct (createRental_check srv b st); [reflexivity|].
  by destruct (Rental_create b (rentals st)) as [|[[? ?] ?]].
Qed.

Lemma updateRental_keeps_cars (srv : Server) (id : string) (b : Body.t)
    (st : Store) :
  cars (snd (updateRental srv id b st)) = cars st.
Proof.
  unfold updateRental.
  destruct (parseObjectId id) as [rid|]; [|reflexivity].
  destruct (rentals st !! rid) as [old|]; [|reflexivity].
  destruct (updateRental_check srv rid old b st); [reflexivity|].
  by destruct (Rental_findByIdAndUpdate rid b (rentals st)) as [|[? ?]].
Qed.

Lemma deleteRental_keeps_cars (id : string) (st : Store) :
  cars (snd (deleteRental id st)) = cars st.
Proof.
  unfold deleteRental.
  destruct (parseObjectId id) as [rid|]; [|reflexivity].
  by destruct (rentals st !! rid).
Qed.


(** X2. The rental a 201 stores is the request, field for field: its car,
    client and employee are the ids of the body, its dates and cost those of
    the body (the dates are the Date objects the validators left), its
    status the one the body names, or active when it names none; it is
    stored under an id no rental had. *)
Theorem created_rental_mirrors_request (srv : Server) (b : Body.t)
    (st st' : Store) (i : ObjectId) (r : Rental.t) :
  handle srv (POST b) st = (Created i r, st') ->
  Body.car b ≫= parseObjectId = Some (Rental.car r)
  /\ Body.client b ≫= parseObjectId = Some (Rental.client r)
  /\ Body.employee b ≫= parseObjectId = Some (Rental.employee r)
  /\ Body.startDate b = Some (DateObject (Rental.startDate r))
  /\ Body.endDate b = Some (DateObject (Rental.endDate r))
  /\ Body.totalCost b = Some (Num (Rental.totalCost r))
  /\ Rental.status r = default active (Body.status b ≫= parseStatus)
  /\ rentals st !! i = None
  /\ rentals st' !! i = Some r.
Proof.
  simpl. destruct (rentalValidation b) eqn:Hv; [|discriminate].
  unfold createRental, createRental_commit.
  destruct (createRental_check srv b st); [discriminate|].
  destruct (Rental_create b (rentals st)) as [|[[i' r'] m]] eqn:Hcr;
    [discriminate|].
  intros [= -> -> <-].
  pose proof (Rental_create_fields _ _ _ _ _ Hcr)
    as (Hc & Hcl & Hem & Hs & He & Htc & _ & _ & Hst).
  apply Rental_create_inr in Hcr as (_ & _ & _ & _ & Hfresh & ->).
  destruct (rentalValidation_inv _ Hv)
    as (? & ? & ? & ? & _ & _ & _ & _ & _ & _ & Hds & Hde & _).
  assert (Hs' : Body.startDate b = Some (DateObject (Rental.startDate r))).
  { destruct (dateOrNull_cases _ Hds) as [[t Ht]| Ht]; rewrite Ht in *;
      simpl in *; congruence. }
  assert (He' : Body.endDate b = Some (DateObject (Rental.endDate r))).
  { destruct (dateOrNull_cases _ Hde) as [[t Ht]| Ht]; rewrite Ht in *;
      simpl in *; congruence. }
  simpl. rewrite lookup_insert_eq. auto 10.
Qed.

Lemma created_rental_mirrors_request_witness :
  Body.car Fixture.juneStay ≫= parseObjectId
    = Some (Rental.car Fixture.juneRental)
  /\ Body.client Fixture.juneStay ≫= parseObjectId
     = Some (Rental.client Fixture.juneRental)
  /\ Body.employee Fixture.juneStay ≫= parseObjectId
     = Some (Rental.employee Fixture.juneRental)
  /\ Body.startDate Fixture.juneStay
     = Some (DateObject (Rental.startDate Fixture.juneRental))
  /\ Body.endDate Fixture.juneStay
     = Some (DateObject (Rental.endDate Fixture.juneRental))
  /\ Body.totalCost Fixture.juneStay
     = Some (Num (Rental.totalCost Fixture.juneRental))
  /\ Rental.status Fixture.juneRental
     = default active (Body.status Fixture.juneStay ≫= parseStatus)
  /\ rentals Fixture.depot !! 0%N = None
  /\ rentals (snd (handle Fixture.utc (POST Fixture.juneStay) Fixture.depot))
       !! 0%N = Some Fixture.juneRental.
Proof.
  apply (created_rental_mirrors_request Fixture.utc Fixture.juneStay
           Fixture.depot).
  evaluate.
Defined.

(** X3. A request that is refused writes nothing: whenever one of the three
    handlers, or a route, answers with an error, the store is the one it
    found.  And no rental request, accepted or not, changes the cars. *)
Theorem refused_requests_write_nothing (srv : Server) (st : Store) :
  (forall b e, fst (createRental srv b st) = Err e ->
               snd (createRental srv b st) = st)
  /\ (forall id b e, fst (updateRental srv id b st) = Err e ->
                     snd (updateRental srv id b st) = st)
  /\ (forall id e, fst (deleteRental id st) = Err e ->
                   snd (deleteRental id st) = st)
  /\ (forall rq e, fst (handle srv rq st) = Err e ->
                   snd (handle srv rq st) = st)
  /\ (forall rq, cars (snd (handle srv rq st)) = cars st).
Proof.
  split; [|split; [|split; [|split]]].
  - intros b e. apply createRental_Err.
  - intros id b e. apply updateRental_Err.
  - intros id e. apply deleteRental_Err.
  - intros rq e. apply handle_Err.
  - intros [b|id b|id]; simpl.
    + destruct (rentalValidation b); [apply createRental_keeps_cars|
                                      reflexivity].
    + destruct (rentalValidation b); [apply updateRental_keeps_cars|
                                      reflexivity].
    + apply deleteRental_keeps_cars.
Qed.

(** X4. Each request touches one rental at most.  A 201 adds one rental,
    under an id that was free, and changes no other; a 200 of PUT replaces
    the rental of that id and changes no other, so the ids in the store stay
    the same; a 200 of DELETE removes the rental of that id and no other. *)
Theorem requests_touch_one_rental (srv : Server) (st st' : Store) :
  (forall b i r,
     createRental srv b st = (Created i r, st') ->
     rentals st !! i = None
     /\ rentals st' !! i = Some r
     /\ (forall j, j <> i -> rentals st' !! j = rentals st !! j)
     /\ size (rentals st') = S (size (rentals st)))
  /\ (forall id b rid r,
        updateRental srv id b st = (Updated rid r, st') ->
        parseObjectId id = Some rid
        /\ is_Some (rentals st !! rid)
        /\ rentals st' !! rid = r
        /\ (forall j, j <> rid -> rentals st' !! j = rentals st !! j)
        /\ dom (rentals st') = dom (rentals st))
  /\ (forall id,
        deleteRental id st = (Deleted, st') ->
        exists rid,
          parseObjectId id = Some rid
          /\ is_Some (rentals st !! rid)
          /\ rentals st' !! rid = None
          /\ (forall j, j <> rid -> rentals st' !! j = rentals st !! j)
          /\ S (size (rentals st')) = size (rentals st)).
Proof.
  split; [|split].
  - intros b i r Hres.
    apply createRental_Created in Hres as (_ & Hfresh & Hm & _).
    rewrite Hm. split; [exact Hfresh|]. split; [apply lookup_insert_eq|].
    split.
    + intros j Hj. by apply lookup_insert_ne.
    + by apply map_size_insert_None.
  - intros id b rid r Hres.
    apply updateRental_Updated in Hres
      as (old & p & Hid & Hold & _ & _ & -> & ->).
    simpl. split; [exact Hid|]. split; [eauto|].
    split; [apply lookup_insert_eq|]. split.
    + intros j Hj. by apply lookup_insert_ne.
    + apply set_eq. intros j. rewrite !elem_of_dom.
      destruct (decide (j = rid)) as [->|Hj].
      * rewrite lookup_insert_eq, Hold. split; eauto.
      * by rewrite lookup_insert_ne.
  - intros id. unfold deleteRental.
    destruct (parseObjectId id) as [rid|]; [|discriminate].
    destruct (rentals st !! rid) as [old|] eqn:Hold; [|discriminate].
    intros [= <-]. exists rid. simpl.
    split; [reflexivity|]. split; [eauto|].
    split; [apply lookup_delete_eq|]. split.
    + intros j Hj. by apply lookup_delete_ne.
    + rewrite map_size_delete, Hold.
      assert (size (rentals st) <> 0%nat).
      { apply map_size_ne_0_lookup_2 with rid. eauto. }
      destruct (size (rentals st)); [done|reflexivity].
Qed.

Lemma StoredOk_insert (st : Store) (k : ObjectId) (r : Rental.t) :
  StoredOk st ->
  Rental.startDate r < Rental.endDate r -> 0 <= Rental.totalCost r ->
  StoredOk (setRentals st (<[k := r]> (rentals st))).
Proof.
  intros Hok Hd Hc i r' Hi. simpl in Hi.
  destruct (decide (i = k)) as [->|Hik].
  - rewrite lookup_insert_eq in Hi. by injection Hi as <-.
  - rewrite lookup_insert_ne in Hi by congruence. by apply (Hok i).
Qed.

Lemma createRental_StoredOk (srv : Server) (b : Body.t) (st : Store) :
  StoredOk st -> StoredOk (snd (createRental srv b st)).
Proof.
  intros Hok. unfold createRental, createRental_commit.
  destruct (createRental_check srv b st); [exact Hok|].
  destruct (Rental_create b (rentals st)) as [|[[i r] m]] eqn:Hcr;
    [exact Hok|].
  pose proof (Rental_create_fields _ _ _ _ _ Hcr)
    as (_ & _ & _ & _ & _ & _ & Hc & Hd & _).
  apply Rental_create_inr in Hcr as (_ & _ & _ & _ & _ & ->).
  by apply StoredOk_insert.
Qed.

Lemma updateRental_StoredOk (srv : Server) (id : string) (b : Body.t)
    (st : Store) :
  Body.startDate b <> Some (Numeric 0) ->
  Body.endDate b <> Some (Numeric 0) ->
  StoredOk st -> StoredOk (snd (updateRental srv id b st)).
Proof.
  intros Hzs Hze Hok. unfold updateRental.
  destruct (parseObjectId id) as [rid|]; [|exact Hok].
  destruct (rentals st !! rid) as [old|] eqn:Hold; [|exact Hok].
  destruct (updateRental_check srv rid old b st) as [|u] eqn:Hchk;
    [exact Hok|].
  destruct (Rental_findByIdAndUpdate rid b (rentals st)) as [|[r m]] eqn:Hup;
    [exact Hok|].
  apply (Rental_findByIdAndUpdate_inr _ _ _ _ _ _ Hold) in Hup
    as (p & Hp & -> & ->).
  destruct (Hok _ _ Hold) as [Hd Hc].
  apply StoredOk_insert; [exact Hok| |].
  - unfold updateRental_check in Hchk.
    destruct (updateRental_dates srv rid old b st) as [|[]] eqn:Hdates;
      [discriminate|].
    destruct (Body.startDate b) as [sd|] eqn:Hs.
    + rewrite (updateRental_dates_spec _ _ _ _ _ _ Hp) in Hdates;
        [|left; rewrite Hs; eauto|by rewrite Hs|assumption].
      cbv zeta in Hdates.
      destruct (bool_decide _ && _); [discriminate|].
      destruct (Z.leb_spec (Rental.endDate (applyPatch p old))
                  (Rental.startDate (applyPatch p old)));
        [discriminate|assumption].
    + destruct (Body.endDate b) as [ed|] eqn:He.
      * rewrite (updateRental_dates_spec _ _ _ _ _ _ Hp) in Hdates;
          [|right; rewrite He; eauto|by rewrite Hs|by rewrite He].
        cbv zeta in Hdates.
        destruct (bool_decide _ && _); [discriminate|].
        destruct (Z.leb_spec (Rental.endDate (applyPatch p old))
                    (Rental.startDate (applyPatch p old)));
          [discriminate|assumption].
      * apply castBody_inr in Hp as (_ & _ & _ & Hps & Hpe & _).
        rewrite Hs in Hps. rewrite He in Hpe. simpl in Hps, Hpe. simpl.
        destruct (Patch.startDate p); [discriminate|].
        destruct (Patch.endDate p); [discriminate|].
        exact Hd.
  - apply castBody_inr in Hp as (_ & _ & _ & _ & _ & _ & Hpos & _). simpl.
    destruct (Patch.totalCost p) as [z|] eqn:Hz; simpl; [|exact Hc].
    by apply Hpos.
Qed.

Lemma deleteRental_StoredOk (id : string) (st : Store) :
  StoredOk st -> StoredOk (snd (deleteRental id st)).
Proof.
  intros Hok. unfold deleteRental.
  destruct (parseObjectId id) as [rid|]; [|exact Hok].
  destruct (rentals st !! rid); [|exact Hok].
  intros i r Hi. simpl in Hi. apply lookup_delete_Some in Hi as [_ Hi].
  by apply (Hok i).
Qed.

(** X5. The rental routes keep every stored rental within the schema's
    bounds, its end after its start and its cost not negative, whatever the
    request.  So do the handlers taken alone, whatever the body, but for one
    case: a body that gives [updateRental] the number 0 as a date, which the
    controller reads as no date and the write stores as the epoch.  The
    validators of the PUT route leave Date objects or null in the dates. *)
Theorem handlers_keep_StoredOk (srv : Server) (st : Store) :
  StoredOk st ->
  (forall rq, StoredOk (snd (handle srv rq st)))
  /\ (forall b, StoredOk (snd (createRental srv b st)))
  /\ (forall id b,
        Body.startDate b <> Some (Numeric 0) ->
        Body.endDate b <> Some (Numeric 0) ->
        StoredOk (snd (updateRental srv id b st)))
  /\ (forall id, StoredOk (snd (deleteRental id st))).
Proof.
  intros Hok. split; [|split; [|split]].
  - intros [b|id b|id]; simpl.
    + destruct (rentalValidation b); [|exact Hok].
      by apply createRental_StoredOk.
    + destruct (rentalValidation b) eqn:Hv; [|exact Hok].
      destruct (rentalValidation_inv _ Hv)
        as (? & ? & ? & ? & _ & _ & _ & _ & _ & _ & Hs & He & _).
      apply dateOrNull_set in Hs as [_ Hzs].
      apply dateOrNull_set in He as [_ Hze].
      by apply updateRental_StoredOk.
    + by apply deleteRental_StoredOk.
  - intros b. by apply createRental_StoredOk.
  - intros id b Hzs Hze. by apply updateRental_StoredOk.
  - intros id. by apply deleteRental_StoredOk.
Qed.

Lemma handlers_keep_StoredOk_witness :
  StoredOk Fixture.twoStays
  /\ StoredOk
       (snd (handle Fixture.utc
               (PUT (Fixture.rid 1%N)
                  (Fixture.booking Fixture.V2 (Fixture.june 6)
                     (Fixture.june 9) None))
               Fixture.twoStays))
  /\ StoredOk
       (snd (updateRental Fixture.utc (Fixture.rid 0%N)
               (Fixture.datesOnly None (Some (Fixture.june 9)))
               Fixture.twoStays)).
Proof.
  assert (H0 : StoredOk Fixture.depot).
  { intros i r Hi. simpl in Hi. by rewrite lookup_empty in Hi. }
  assert (H2 : StoredOk Fixture.twoStays).
  { apply (proj1 (handlers_keep_StoredOk Fixture.utc _
                    (proj1 (handlers_keep_StoredOk Fixture.utc Fixture.depot
                              H0) (POST Fixture.juneStay)))
             (POST (Fixture.booking Fixture.V1 (Fixture.june 10)
                      (Fixture.june 12) None))). }
  split; [exact H2|]. split.
  - apply (proj1 (handlers_keep_StoredOk Fixture.utc Fixture.twoStays H2)).
  - apply (proj1 (proj2 (proj2 (handlers_keep_StoredOk Fixture.utc
                                  Fixture.twoStays H2)))); discriminate.
Defined.

(** X6. The hooks of the schema never refuse what the controller let
    through: when the checks of [createRental] pass, [pre('save')] accepts
    the new document, and when the checks of [updateRental] pass,
    [pre('findByIdAndUpdate')] accepts the body.  Their error, which carries
    no status code, is never the answer. *)
Theorem schema_hooks_never_refuse :
  (forall srv b st u p r,
     createRental_check srv b st = inr u ->
     castBody b = inr p -> newDocument p = inr r ->
     preSave r = inr tt)
  /\ (forall srv rid old b st u,
        updateRental_check srv rid old b st = inr u ->
        preUpdate b = inr tt).
Proof.
  split.
  - intros srv b st u p r Hchk Hp Hr.
    apply createRental_check_inr in Hchk
      as (carId & start & end_ & Hpass & _).
    destruct Hpass as (_ & _ & _ & _ & Hs & He & _ & Hlt & _).
    apply castBody_inr in Hp as (_ & _ & _ & Hps & Hpe & _).
    unfold newDocument in Hr.
    destruct (Patch.car p), (Patch.client p), (Patch.employee p),
      (Patch.startDate p) as [sd|], (Patch.endDate p) as [ed|],
      (Patch.totalCost p); try discriminate.
    injection Hr as <-. simpl in Hps, Hpe.
    apply castDate_set in Hps as [Hps _]. apply castDate_set in Hpe as [Hpe _].
    assert (sd = start) by congruence. assert (ed = end_) by congruence.
    subst. unfold preSave. simpl.
    destruct (Z.leb_spec end_ start); [lia|reflexivity].
  - intros srv rid old b st u Hchk. unfold preUpdate.
    destruct (truthy (Body.startDate b)) eqn:Hts; [|reflexivity].
    destruct (truthy (Body.endDate b)) eqn:Hte; [|reflexivity].
    simpl.
    destruct (newDate (Body.startDate b)) as [sd|] eqn:Hs; [|reflexivity].
    destruct (newDate (Body.endDate b)) as [ed|] eqn:He; [|reflexivity].
    unfold updateRental_check, updateRental_dates, orStored in Hchk.
    rewrite Hts, Hte, Hs, He in Hchk. simpl in Hchk.
    destruct (bool_decide _ && _); [discriminate|].
    destruct (ed <=? sd); [discriminate|reflexivity].
Qed.

Lemma schema_hooks_never_refuse_witness :
  preSave Fixture.juneRental = inr tt
  /\ preUpdate Fixture.juneStay = inr tt.
Proof.
  split.
  - apply (proj1 schema_hooks_never_refuse Fixture.utc Fixture.juneStay
             Fixture.depot tt
             (Patch.mk (Some Fixture.idV1) (Some Fixture.idAlice)
                (Some Fixture.idBob) (Some (Fixture.june 1))
                (Some (Fixture.june 5)) (Some 100) None)); evaluate.
  - apply (proj2 schema_hooks_never_refuse Fixture.utc 0%N
             Fixture.juneRental Fixture.juneStay Fixture.oneBooking tt).
    evaluate.
Defined.







(** The answers that the validators of the routes do not prevent: an id
    with the prefix [0x] passes them and is refused by [createRental], or,
    on a PUT, by the cast of the car in the conflict query; a date that
    [toDate()] left null is refused by the validators of the schema. *)
Example answers_past_the_validators :
  fst (handle Fixture.utc
         (POST (Fixture.booking Fixture.prefixed (Fixture.june 1)
                  (Fixture.june 5) None))
         Fixture.depot)
    = Err InvalidCarId
  /\ fst (handle Fixture.utc
            (PUT (Fixture.rid 0%N)
               (Fixture.booking Fixture.prefixed (Fixture.june 1)
                  (Fixture.june 5) None))
            Fixture.oneBooking)
     = Err CastError
  /\ fst (handle Fixture.utc
            (PUT (Fixture.rid 0%N)
               (Body.mk (Some Fixture.V1) (Some Fixture.alice)
                  (Some Fixture.bob) (Some (DateObject (Fixture.june 1)))
                  (Some Null) (Some (Num 100)) None))
            Fixture.oneBooking)
     = Err ValidationError
  /\ fst (handle Fixture.utc
            (PUT (Fixture.rid 0%N)
               (Body.mk (Some Fixture.V1) (Some Fixture.prefixed)
                  (Some Fixture.bob) (Some (DateObject (Fixture.june 1)))
                  (Some (DateObject (Fixture.june 5))) (Some (Num 100))
                  None))
            Fixture.oneBooking)
     = Err InvalidClientId.
Proof. repeat split; evaluate. Qed.

(** X8. A reservation for a car that is in maintenance is refused with
    'Car is currently in maintenance', and one for a car that does not
    exist with 'Car not found', whatever rentals are stored, once its ids,
    cost and dates have passed.  An amendment the PUT route serves that
    moves a rental to a car in maintenance is refused the same way when its
    ids and dates pass and no rental conflicts. *)
Theorem unavailable_car_refused :
  (forall srv b st carId start end_,
     Body.car b ≫= parseObjectId = Some carId ->
     isValidObjectId_opt (Body.client b) = true ->
     isValidObjectId_opt (Body.employee b) = true ->
     costRejected (Body.totalCost b) = false ->
     newDate (Body.startDate b) = Some start ->
     newDate (Body.endDate b) = Some end_ ->
     dateOnly srv (now srv) <= dateOnly srv start ->
     start < end_ ->
     (cars st !! carId = None ->
      createRental srv b st = (Err CarNotFound, st))
     /\ (cars st !! carId = Some (Car.mk maintenance) ->
         createRental srv b st = (Err CarInMaintenance, st)))
  /\ (forall srv id b st rid old c carId start end_,
        rentalValidation b = true ->
        parseObjectId id = Some rid ->
        rentals st !! rid = Some old ->
        Body.car b = Some c -> parseObjectId c = Some carId ->
        c <> toString (Rental.car old) ->
        isValidObjectId_opt (Body.client b) = true ->
        isValidObjectId_opt (Body.employee b) = true ->
        Body.startDate b = Some (DateObject start) ->
        Body.endDate b = Some (DateObject end_) ->
        (Rental.status old = active ->
         dateOnly srv (now srv) <= dateOnly srv start) ->
        start < end_ ->
        (forall j r, j <> rid -> rentals st !! j = Some r ->
                     Rental.car r = carId -> Rental.status r = active ->
                     overlapQuery start end_ r = false) ->
        cars st !! carId = Some (Car.mk maintenance) ->
        handle srv (PUT id b) st = (Err CarInMaintenance, st)).
Proof.
  split.
  - intros srv b st carId start end_ Hcar Hcl Hem Hcost Hs He Hday Hlt.
    assert (Hv : isValidObjectId_opt (Body.car b) = true).
    { destruct (Body.car b) as [s|]; [|discriminate]. simpl in *.
      unfold isValidObjectId. by rewrite Hcar. }
    unfold createRental, createRental_check.
    rewrite Hv, Hcl, Hem, Hcost, Hs, He, Hcar. simpl.
    destruct (Z.ltb_spec (dateOnly srv start) (dateOnly srv (now srv)));
      [lia|].
    destruct (Z.leb_spec end_ start); [lia|].
    split; intros ->; reflexivity.
  - intros srv id b st rid old c carId start end_ Hv Hid Hold Hc Hp Hne Hcl
      Hem Hs He Hday Hlt Hfree Hm.
    assert (Hcar : Body.car b ≫= parseObjectId = Some carId)
      by (rewrite Hc; exact Hp).
    rewrite (put_past_query srv id b st rid carId old start end_ Hv Hid Hold
               Hcar Hcl Hem Hs He Hday Hlt Hfree).
    by rewrite (updateRental_car_changed old b st c carId Hc Hp Hne), Hm.
Qed.

Lemma unavailable_car_refused_witness :
  createRental Fixture.utc Sample.stayV2 Sample.garage
    = (Err CarInMaintenance, Sample.garage)
  /\ handle Fixture.utc
       (PUT (Fixture.rid 0%N)
          (Fixture.booking Fixture.V2 (Fixture.june 1) (Fixture.june 5) None))
       Sample.garage
     = (Err CarInMaintenance, Sample.garage).
Proof.
  split.
  - apply (proj1 unavailable_car_refused Fixture.utc Sample.stayV2
             Sample.garage Fixture.idV2 (Fixture.june 10) (Fixture.june 12));
      evaluate.
  - apply (proj2 unavailable_car_refused Fixture.utc (Fixture.rid 0%N) _
             Sample.garage 0%N Fixture.juneRental Fixture.V2 Fixture.idV2
             (Fixture.june 1) (Fixture.june 5)).
    6: differ.
    10: intros _.
    12: { intros j r Hj Hlk. simpl in Hlk.
          rewrite lookup_singleton_ne in Hlk by congruence.
          discriminate. }
    all: evaluate.
Defined.





(** X11. A deleted rental is gone: after a 200 of DELETE, reading the same
    id is answered 'Rental not found', and so is deleting it again.  An id
    that no stored rental has is answered the same way, and one that is not
    an ObjectId with 'Invalid rental ID'. *)
Theorem deleted_rental_is_gone :
  (forall id st st',
     deleteRental id st = (Deleted, st') ->
     getRental id st' = inl RentalNotFound
     /\ deleteRental id st' = (Err RentalNotFound, st'))
  /\ (forall id st,
        getRental id st = inl RentalNotFound <->
        exists rid, parseObjectId id = Some rid /\ rentals st !! rid = None)
  /\ (forall id st,
        getRental id st = inl InvalidRentalId <-> parseObjectId id = None).
Proof.
  split; [|split].
  - intros id st st'. unfold deleteRental, getRental.
    destruct (parseObjectId id) as [rid|]; [|discriminate].
    destruct (rentals st !! rid); [|discriminate].
    intros [= <-]. simpl. by rewrite lookup_delete_eq.
  - intros id st. unfold getRental.
    destruct (parseObjectId id) as [rid|].
    + destruct (rentals st !! rid) eqn:Hlk.
      * split; [discriminate|]. intros (rid' & [= <-] & H). congruence.
      * split; eauto.
    + split; [discriminate|]. intros (rid' & H & _). discriminate.
  - intros id st. unfold getRental.
    destruct (parseObjectId id) as [rid|]; [|done].
    destruct (rentals st !! rid); split; discriminate.
Qed.

Lemma deleted_rental_is_gone_witness :
  getRental (Fixture.rid 0%N)
    (snd (deleteRental (Fixture.rid 0%N) Sample.booked))
  = inl RentalNotFound
  /\ deleteRental (Fixture.rid 0%N)
       (snd (deleteRental (Fixture.rid 0%N) Sample.booked))
     = (Err RentalNotFound,
        snd (deleteRental (Fixture.rid 0%N) Sample.booked)).
Proof.
  apply (proj1 deleted_rental_is_gone (Fixture.rid 0%N) Sample.booked).
  evaluate.
Defined.

(** X12. Deleting a car leaves every rental as it is, those of the deleted
    car included; from then on a reservation for that car is answered
    'Car not found' once its ids, cost and dates have passed. *)
Theorem deleteCar_keeps_rentals (id : string) (st st' : Store)
    (cid : ObjectId) :
  deleteCar id st = (inr tt, st') ->
  parseObjectId id = Some cid ->
  rentals st' = rentals st
  /\ cars st' !! cid = None
  /\ (forall j, j <> cid -> cars st' !! j = cars st !! j)
  /\ (forall srv b start end_,
        Body.car b ≫= parseObjectId = Some cid ->
        isValidObjectId_opt (Body.client b) = true ->
        isValidObjectId_opt (Body.employee b) = true ->
        costRejected (Body.totalCost b) = false ->
        newDate (Body.startDate b) = Some start ->
        newDate (Body.endDate b) = Some end_ ->
        dateOnly srv (now srv) <= dateOnly srv start ->
        start < end_ ->
        createRental srv b st' = (Err CarNotFound, st')).
Proof.
  unfold deleteCar. intros Hdel Hid. rewrite Hid in Hdel.
  destruct (cars st !! cid); [|discriminate].
  injection Hdel as <-. simpl.
  split; [reflexivity|]. split; [apply lookup_delete_eq|]. split.
  - intros j Hj. by apply lookup_delete_ne.
  - intros srv b start end_ Hcar Hcl Hem Hcost Hs He Hday Hlt.
    assert (Hv : isValidObjectId_opt (Body.car b) = true).
    { destruct (Body.car b) as [s|]; [|discriminate]. simpl in *.
      unfold isValidObjectId. by rewrite Hcar. }
    unfold createRental, createRental_check.
    rewrite Hv, Hcl, Hem, Hcost, Hs, He, Hcar. simpl.
    destruct (Z.ltb_spec (dateOnly srv start) (dateOnly srv (now srv)));
      [lia|].
    destruct (Z.leb_spec end_ start); [lia|].
    by rewrite lookup_delete_eq.
Qed.

Lemma deleteCar_keeps_rentals_witness :
  rentals (snd (deleteCar Fixture.V1 Sample.garage)) = rentals Sample.garage
  /\ cars (snd (deleteCar Fixture.V1 Sample.garage)) !! Fixture.idV1 = None
  /\ createRental Fixture.utc
       (Fixture.booking Fixture.V1 (Fixture.june 10) (Fixture.june 12) None)
       (snd (deleteCar Fixture.V1 Sample.garage))
     = (Err CarNotFound, snd (deleteCar Fixture.V1 Sample.garage)).
Proof.
  destruct (deleteCar_keeps_rentals Fixture.V1 Sample.garage
              (snd (deleteCar Fixture.V1 Sample.garage)) Fixture.idV1
              ltac:(evaluate) ltac:(evaluate))
    as (H1 & H2 & _ & H4).
  split; [exact H1|]. split; [exact H2|].
  apply (H4 Fixture.utc _ (Fixture.june 10) (Fixture.june 12)); evaluate.
Defined.

(** ** Pagination *)

Lemma ceilDiv_bounds (total limit : Z) :
  0 < limit ->
  (ceilDiv total limit - 1) * limit < total <= ceilDiv total limit * limit.
Proof.
  intros Hl. unfold ceilDiv.
  pose proof (Z.div_mod (- total) limit ltac:(lia)) as Hdm.
  pose proof (Z.mod_pos_bound (- total) limit Hl) as Hm.
  nia.
Qed.

Lemma ceilDiv_nonneg (total limit : Z) :
  0 < limit -> 0 <= total -> 0 <= ceilDiv total limit.
Proof. intros Hl Ht. pose proof (ceilDiv_bounds total limit Hl). nia. Qed.

(** Consecutive segments of length [n] cover a list that is at most [m]
    segments long. *)
Lemma segments_cover {A : Type} (n m : nat) (l : list A) :
  (length l <= m * n)%nat ->
  concat (map (fun k => take n (drop (k * n) l)) (seq 0 m)) = l.
Proof.
  revert l. induction m as [|m IH]; intros l Hlen.
  - simpl in *. destruct l; [reflexivity|simpl in Hlen; lia].
  - rewrite <- cons_seq. simpl.
    rewrite <- seq_shift, map_map.
    transitivity (take n l ++ drop n l); [|apply take_drop].
    f_equal.
    transitivity (concat (map (fun k => take n (drop (k * n) (drop n l)))
                            (seq 0 m))).
    + f_equal. apply map_ext. intros k.
      rewrite drop_drop. reflexivity.
    + apply IH. rewrite length_drop. simpl in Hlen. lia.
Qed.

(** The page of a query with a page and a limit of at least 1. *)
Lemma getPage_regular {A : Type} (page limit : Z) (sorted : list A) :
  1 <= page -> 1 <= limit ->
  getPage (Paging.mkQuery (Some page) (Some limit)) sorted =
    let docs := take (Z.to_nat limit)
                  (drop (Z.to_nat ((page - 1) * limit)) sorted) in
    Some (Listing.mk (length docs) (length sorted) page
            (ceilDiv (Z.of_nat (length sorted)) limit) docs).
Proof.
  intros Hp Hl. unfold getPage, orDefault, skipLimit. simpl.
  assert (Hp0 : (page =? 0) = false) by (apply Z.eqb_neq; lia).
  assert (Hl0 : (limit =? 0) = false) by (apply Z.eqb_neq; lia).
  rewrite Hp0, Hl0.
  destruct (Z.leb_spec 0 ((page - 1) * limit)); [|nia].
  destruct (Z.leb_spec 1 limit); [|lia].
  reflexivity.
Qed.

(** X13. The pages of a listing cut the collection into consecutive pieces:
    for a limit of at least 1, the data of pages 1, 2, ..., [pages], one
    after the other, are the whole sorted collection, each document once and
    in order. *)
Theorem pages_cover_collection {A : Type} (limit : Z) (sorted : list A) :
  1 <= limit ->
  concat
    (map (fun k =>
            default []
              (Listing.data
                 <$> getPage (Paging.mkQuery (Some (Z.of_nat k)) (Some limit))
                       sorted))
       (seq 1 (Z.to_nat (ceilDiv (Z.of_nat (length sorted)) limit))))
  = sorted.
Proof.
  intros Hl.
  set (n := Z.to_nat limit).
  set (m := Z.to_nat (ceilDiv (Z.of_nat (length sorted)) limit)).
  transitivity (concat (map (fun k => take n (drop (k * n) sorted))
                          (seq 0 m))); [|apply segments_cover].
  - fold m. rewrite <- seq_shift, map_map. f_equal. apply map_ext. intros k.
    rewrite getPage_regular by lia. simpl. unfold n. do 2 f_equal. nia.
  - pose proof (ceilDiv_bounds (Z.of_nat (length sorted)) limit ltac:(lia)).
    pose proof (ceilDiv_nonneg (Z.of_nat (length sorted)) limit
                  ltac:(lia) ltac:(lia)).
    unfold m, n. nia.
Qed.

Lemma pages_cover_collection_witness :
  concat
    (map (fun k =>
            default []
              (Listing.data
                 <$> getPage (Paging.mkQuery (Some (Z.of_nat k)) (Some 2))
                       [5; 4; 3; 2; 1]%nat))
       (seq 1 (Z.to_nat (ceilDiv (Z.of_nat (length [5; 4; 3; 2; 1]%nat)) 2))))
  = [5; 4; 3; 2; 1]%nat.
Proof. apply pages_cover_collection. evaluate. Defined.

(** X14. For a page and a limit of at least 1 the listing is always
    answered; it counts at most [limit] documents, [count] is the number of
    documents in [data] and [total] that of the collection; [pages] is the
    least number of pages of that size that hold [total] documents; and
    [data] is empty exactly for the pages after the last. *)
Theorem page_bounds {A : Type} (page limit : Z) (sorted : list A) :
  1 <= page -> 1 <= limit ->
  exists pg,
    getPage (Paging.mkQuery (Some page) (Some limit)) sorted = Some pg
    /\ Listing.page pg = page
    /\ Listing.total pg = length sorted
    /\ Listing.count pg = length (Listing.data pg)
    /\ Z.of_nat (Listing.count pg) <= limit
    /\ (Listing.pages pg - 1) * limit < Z.of_nat (length sorted)
       <= Listing.pages pg * limit
    /\ (Listing.data pg = [] <-> Listing.pages pg < page).
Proof.
  intros Hp Hl. rewrite getPage_regular by assumption. cbv zeta.
  eexists. split; [reflexivity|]. simpl.
  pose proof (ceilDiv_bounds (Z.of_nat (length sorted)) limit ltac:(lia))
    as Hb.
  repeat split; try tauto; try lia.
  - rewrite length_take. lia.
  - intros Hnil. apply (f_equal length) in Hnil.
    rewrite length_take, length_drop in Hnil. simpl in Hnil. nia.
  - intros Hlt.
    rewrite drop_ge; [by rewrite take_nil|]. nia.
Qed.

Lemma page_bounds_witness :
  exists pg,
    getPage (Paging.mkQuery (Some 3) (Some 2)) [5; 4; 3; 2; 1]%nat = Some pg
    /\ Listing.page pg = 3
    /\ Listing.total pg = length [5; 4; 3; 2; 1]%nat
    /\ Listing.count pg = length (Listing.data pg)
    /\ Z.of_nat (Listing.count pg) <= 2
    /\ (Listing.pages pg - 1) * 2 < Z.of_nat (length [5; 4; 3; 2; 1]%nat)
       <= Listing.pages pg * 2
    /\ (Listing.data pg = [] <-> Listing.pages pg < 3).
Proof. apply page_bounds; evaluate. Defined.

(** X15. How the listing reads its parameters: a page or a limit that is
    missing, not a number, or 0 is replaced by page 1 and limit 10, so a
    request without parameters gets the ten first documents. *)
Theorem page_parameters {A : Type} (sorted : list A) :
  (forall q,
     getPage q sorted
     = getPage (Paging.mkQuery (Some (orDefault (Paging.page q) 1))
                  (Some (orDefault (Paging.limit q) 10))) sorted)
  /\ (forall page limit,
        (page = None \/ page = Some 0) ->
        (limit = None \/ limit = Some 0) ->
        getPage (Paging.mkQuery page limit) sorted
        = Some (Listing.mk (length (take 10 sorted)) (length sorted) 1
                  (ceilDiv (Z.of_nat (length sorted)) 10) (take 10 sorted))).
Proof.
  split.
  - intros [page limit]. unfold getPage.
    cbn [Paging.page Paging.limit].
    assert (Hidem : forall v d, d <> 0 ->
                      orDefault (Some (orDefault v d)) d = orDefault v d).
    { intros v d Hd. unfold orDefault.
      destruct v as [n|].
      - destruct (Z.eqb_spec n 0) as [|Hn].
        + by destruct (Z.eqb_spec d 0).
        + by destruct (Z.eqb_spec n 0).
      - by destruct (Z.eqb_spec d 0). }
    rewrite !Hidem by discriminate. reflexivity.
  - intros page limit [-> | ->] [-> | ->]; reflexivity.
Qed.

(** ** The error handler and the environment check *)

Lemma join_nil_iff (sep : string) (l : list string) :
  (forall x, In x l -> x <> EmptyString) ->
  join sep l = EmptyString -> l = [].
Proof.
  destruct l as [|x [|y rest]]; simpl; [done| |].
  - intros H Hx. exfalso. by apply (H x); [left|].
  - intros H. destruct x; [|discriminate].
    exfalso. by apply (H EmptyString); [left|].
Qed.

(** X17. A duplicate key is always answered 400 with
    'Duplicate field value entered': the message the create and update
    handlers of employees, cars and clients put on the error before passing
    it on ('Email already exists', 'License plate already exists', ...) is
    overwritten by the error handler and never reaches the client. *)
Theorem duplicate_key_answer (nodeEnv : option string) (msg : string)
    (err : JsError.t) :
  JsError.code err = Some 11000 ->
  JsError.name err <> "ValidationError"%string ->
  Response.status (errorHandler nodeEnv (onDuplicateKey msg err)) = 400
  /\ Response.error (errorHandler nodeEnv (onDuplicateKey msg err))
     = "Duplicate field value entered"%string.
Proof.
  intros Hcode Hname. unfold onDuplicateKey, errorHandler.
  rewrite (bool_decide_eq_true_2 _ Hcode). simpl.
  rewrite (bool_decide_eq_true_2 _ Hcode).
  apply String.eqb_neq in Hname. rewrite Hname.
  destruct (String.eqb (JsError.name err) "CastError"); simpl; auto.
Qed.

Lemma duplicate_key_answer_witness :
  Response.status
    (errorHandler (Some "production"%string)
       (onDuplicateKey "Email already exists"
          (JsError.mk "MongoServerError" (Some 11000)
             "E11000 duplicate key error" None [] "at insert")))
  = 400
  /\ Response.error
       (errorHandler (Some "production"%string)
          (onDuplicateKey "Email already exists"
             (JsError.mk "MongoServerError" (Some 11000)
                "E11000 duplicate key error" None [] "at insert")))
     = "Duplicate field value entered"%string.
Proof. apply duplicate_key_answer; evaluate. Defined.

(** X18. Whatever error reaches it, the error handler answers with a status
    that is not 0 and a message that is not empty, and it sends the stack
    only when NODE_ENV is 'development'.  An error that is no CastError, no
    duplicate key and no ValidationError keeps the status code and the
    message its controller gave it. *)
Theorem errorHandler_answer (nodeEnv : option string) (err : JsError.t) :
  Response.status (errorHandler nodeEnv err) <> 0
  /\ Response.error (errorHandler nodeEnv err) <> EmptyString
  /\ (Response.stack (errorHandler nodeEnv err) <> None ->
      nodeEnv = Some "development"%string)
  /\ (JsError.name err <> "CastError"%string ->
      JsError.name err <> "ValidationError"%string ->
      JsError.code err <> Some 11000 ->
      forall n, JsError.statusCode err = Some n -> n <> 0 ->
                JsError.message err <> EmptyString ->
                Response.status (errorHandler nodeEnv err) = n
                /\ Response.error (errorHandler nodeEnv err)
                   = JsError.message err).
Proof.
  assert (Hst : forall sc : option Z,
            match sc with
            | Some n => if n =? 0 then 500 else n
            | None => 500
            end <> 0).
  { intros [n|]; [|discriminate].
    destruct (Z.eqb_spec n 0); [discriminate|assumption]. }
  assert (Hmsg : forall m : string,
            (if String.eqb m EmptyString then "Server Error"%string else m)
            <> EmptyString).
  { intros m. destruct (String.eqb m EmptyString) eqn:He; [discriminate|].
    by apply String.eqb_neq. }
  unfold errorHandler.
  destruct (String.eqb (JsError.name err) "CastError") eqn:Hcast;
  destruct (bool_decide (JsError.code err = Some 11000)) eqn:Hdup;
  destruct (String.eqb (JsError.name err) "ValidationError") eqn:Hval;
    cbn [Response.status Response.error Response.stack].
  all: split; [first [apply (Hst (Some 400)) | apply (Hst (Some 404))
                      | apply Hst]|].
  all: split; [apply Hmsg|].
  all: split; [intros Hstack; case_bool_decide; [assumption|done]|].
  all: intros H1 H2 H3.
  all: try (apply String.eqb_eq in Hcast; done).
  all: try (apply String.eqb_eq in Hval; done).
  all: try (apply bool_decide_eq_true in Hdup; done).
  intros n Hn Hn0 Hm. rewrite Hn.
  apply String.eqb_neq in Hm. rewrite Hm.
  destruct (Z.eqb_spec n 0); [done|]. auto.
Qed.

Lemma errorHandler_answer_witness :
  Response.status
    (errorHandler (Some "production"%string)
       (JsError.mk "Error" None "Car not found" (Some 404) [] "at getCar"))
  = 404
  /\ Response.error
       (errorHandler (Some "production"%string)
          (JsError.mk "Error" None "Car not found" (Some 404) []
             "at getCar"))
     = "Car not found"%string.
Proof.
  apply (proj2 (proj2 (proj2
           (errorHandler_answer (Some "production"%string)
              (JsError.mk "Error" None "Car not found" (Some 404) []
                 "at getCar"))))); evaluate.
Defined.

(** X19. [validateEnv] lets the server start exactly when MONGODB_URI,
    NODE_ENV, PORT and FRONTEND_URL are all set to a value that is not
    empty; otherwise the error it throws names the missing variables, and
    only those, in the order of that list. *)
Theorem validateEnv_spec (env : gmap string string) :
  (validateEnv env = inr tt <->
   forall v, In v requiredEnvVars ->
             exists x, env !! v = Some x /\ x <> EmptyString)
  /\ (forall msg,
        validateEnv env = inl msg ->
        exists missingVars,
          msg = ("Missing required environment variable(s): "
                 ++ join ", " missingVars)%string
          /\ missingVars = List.filter (unset env) requiredEnvVars
          /\ missingVars <> []
          /\ forall v, In v missingVars <->
                       In v requiredEnvVars
                       /\ (env !! v = None \/ env !! v = Some EmptyString)).
Proof.
  assert (Hunset : forall v, unset env v = true <->
                             env !! v = None \/ env !! v = Some EmptyString).
  { intros v. unfold unset. destruct (env !! v) as [x|].
    - rewrite String.eqb_eq. split.
      + intros ->. by right.
      + intros [|[= ->]]; done.
    - split; auto. }
  split.
  - unfold validateEnv.
    destruct (List.filter (unset env) requiredEnvVars) as [|m ms] eqn:Hf;
      simpl.
    + split; [|done]. intros _ v Hv.
      destruct (unset env v) eqn:Hu.
      * assert (Hin : In v (List.filter (unset env) requiredEnvVars))
          by (apply filter_In; auto).
        rewrite Hf in Hin. destruct Hin.
      * unfold unset in Hu. destruct (env !! v) as [x|]; [|discriminate].
        exists x. split; [reflexivity|]. by apply String.eqb_neq.
    + split; [discriminate|]. intros Hall. exfalso.
      assert (Hin : In m (List.filter (unset env) requiredEnvVars))
        by (rewrite Hf; by left).
      apply filter_In in Hin as [Hin Hu].
      destruct (Hall m Hin) as (x & Hx & Hne).
      apply Hunset in Hu as [Hu|Hu]; congruence.
  - intros msg. unfold validateEnv.
    destruct (List.filter (unset env) requiredEnvVars) as [|m ms] eqn:Hf;
      simpl; [discriminate|].
    intros [= <-]. exists (m :: ms).
    split; [reflexivity|]. split; [reflexivity|]. split; [discriminate|].
    intros v. rewrite <- Hf, filter_In, Hunset. reflexivity.
Qed.

(** ** The client's retries *)

(** What a run of [retryWithBackoff] that started at retry count [c] did. *)
Lemma retryWithBackoff_run {A : Type} (fn : nat -> Retry.Outcome A)
    (fuel c : nat) (out : Retry.Outcome A) (slept : list Z) :
  Retry.retryWithBackoff fuel fn c = Some (out, slept) ->
  fn (c + length slept)%nat = out
  /\ (forall j, (c <= j < c + length slept)%nat ->
                exists e, fn j = Retry.Rejected e
                          /\ Retry.isRetryableError e = true)
  /\ (forall e, out = Retry.Rejected e ->
                Retry.isRetryableError e = false
                \/ (Retry.maxRetries <= c + length slept)%nat)
  /\ slept = map Retry.delay (seq c (length slept))
  /\ (c + length slept <= Nat.max c Retry.maxRetries)%nat.
Proof.
  revert c out slept. induction fuel as [|fuel IH]; intros c out slept;
    [discriminate|].
  cbn [Retry.retryWithBackoff]. destruct (fn c) as [a|e] eqn:Hfn.
  - intros [= <- <-]. simpl. rewrite Nat.add_0_r.
    repeat split; try done; try lia; intros; lia.
  - destruct (Nat.leb_spec Retry.maxRetries c) as [Hmax|Hmax]; simpl.
    + intros [= <- <-]. simpl. rewrite Nat.add_0_r.
      repeat split; try done; try lia; try (intros; lia).
    + destruct (Retry.isRetryableError e) eqn:Hre; simpl.
      * destruct (Retry.retryWithBackoff fuel fn (S c))
          as [[out' slept']|] eqn:Hrec; [|discriminate].
        intros [= <- <-].
        destruct (IH _ _ _ Hrec) as (H1 & H2 & H3 & H4 & H5).
        simpl. replace (c + S (length slept'))%nat
          with (S c + length slept')%nat by lia.
        split; [assumption|]. split; [|split; [assumption|split]].
        -- intros j Hj. destruct (decide (j = c)) as [->|Hne]; [eauto|].
           apply H2. lia.
        -- by rewrite <- H4.
        -- lia.
      * intros [= <- <-]. simpl. rewrite Nat.add_0_r.
        repeat split; try done; try lia; try (intros; lia).
        intros e' He'. injection He' as <-. by left.
Qed.

(** With enough fuel for the retries that remain, the run ends. *)
Lemma retryWithBackoff_total {A : Type} (fn : nat -> Retry.Outcome A)
    (fuel c : nat) :
  (1 <= fuel)%nat -> (Retry.maxRetries < fuel + c)%nat ->
  is_Some (Retry.retryWithBackoff fuel fn c).
Proof.
  revert c. induction fuel as [|fuel IH]; intros c Hf Hc; [lia|].
  cbn [Retry.retryWithBackoff]. destruct (fn c) as [a|e]; [eauto|].
  destruct (Nat.leb_spec Retry.maxRetries c) as [Hmax|Hmax]; simpl;
    [eauto|].
  destruct (Retry.isRetryableError e); simpl; [|eauto].
  destruct (IH (S c)) as [[out slept] Hrec]; [lia|lia|].
  rewrite Hrec. eauto.
Qed.

(** X20. A call through [retryWithBackoff] always ends: [fn] is tried four
    times at most, after waits of 1000, 2000 and 4000 ms, 7000 ms in all at
    most; with this configuration the cap of 10000 ms is never reached. *)
Theorem retry_is_bounded {A : Type} (fn : nat -> Retry.Outcome A) :
  exists out slept,
    Retry.retryWithBackoff (S Retry.maxRetries) fn 0 = Some (out, slept)
    /\ (length slept <= 3)%nat
    /\ slept = take (length slept) [1000; 2000; 4000]
    /\ (forall d, In d slept -> d < Retry.maxDelay)
    /\ foldr Z.add 0 slept <= 7000.
Proof.
  destruct (retryWithBackoff_total fn (S Retry.maxRetries) 0)
    as [[out slept] Hrun]; [lia|unfold Retry.maxRetries; lia|].
  exists out, slept. split; [exact Hrun|].
  apply retryWithBackoff_run in Hrun as (_ & _ & _ & Hslept & Hlen).
  unfold Retry.maxRetries in Hlen. simpl in Hlen.
  remember (length slept) as n eqn:Hn. clear Hn. subst slept.
  destruct n as [|[|[|[|n]]]]; [| | | |lia].
  all: split; [simpl; lia|].
  all: split; [reflexivity|].
  all: split; [|vm_compute; discriminate].
  all: intros d Hd; simpl in Hd.
  all: repeat (destruct Hd as [<-|Hd]; [vm_compute; reflexivity|]).
  all: destruct Hd.
Qed.

Lemma retry_is_bounded_witness :
  exists out slept,
    Retry.retryWithBackoff (S Retry.maxRetries)
      (fun _ => Retry.Rejected (A := nat) (Retry.mkError None)) 0
    = Some (out, slept)
    /\ (length slept <= 3)%nat
    /\ slept = take (length slept) [1000; 2000; 4000]
    /\ (forall d, In d slept -> d < Retry.maxDelay)
    /\ foldr Z.add 0 slept <= 7000.
Proof. apply retry_is_bounded. Defined.

(** X21. What [retryWithBackoff] returns is what the last call of [fn] did;
    every call before it was rejected with a retryable error (no response,
    a 5xx or 429); and when the answer is a rejection, the error is not
    retryable or the three retries are used up.  So a 4xx other than 429 is
    passed on at once, without a wait. *)
Theorem retry_outcome {A : Type} (fn : nat -> Retry.Outcome A)
    (out : Retry.Outcome A) (slept : list Z) :
  Retry.retryWithBackoff (S Retry.maxRetries) fn 0 = Some (out, slept) ->
  fn (length slept) = out
  /\ (forall j, (j < length slept)%nat ->
                exists e, fn j = Retry.Rejected e
                          /\ (Retry.response e = None
                              \/ exists status,
                                   Retry.response e = Some status
                                   /\ (500 <= status \/ status = 429)))
  /\ (forall e, out = Retry.Rejected e ->
                (exists status, Retry.response e = Some status
                                /\ status < 500 /\ status <> 429)
                \/ length slept = 3%nat)
  /\ (forall e status,
        fn 0%nat = Retry.Rejected e ->
        Retry.response e = Some status -> status < 500 -> status <> 429 ->
        out = Retry.Rejected e /\ slept = []).
Proof.
  intros Hrun.
  pose proof (retryWithBackoff_run _ _ _ _ _ Hrun)
    as (H1 & H2 & H3 & _ & Hlen).
  simpl in H1. split; [exact H1|]. split; [|split].
  - intros j Hj. destruct (H2 j) as (e & He & Hre); [lia|].
    exists e. split; [exact He|].
    unfold Retry.isRetryableError in Hre.
    destruct (Retry.response e) as [status|]; [|by left].
    right. exists status. split; [reflexivity|].
    apply orb_true_iff in Hre as [Hre|Hre].
    + left. rewrite Z.geb_le in Hre. lia.
    + right. by apply Z.eqb_eq.
  - intros e ->. destruct (H3 e eq_refl) as [Hre|Hmax].
    + left. unfold Retry.isRetryableError in Hre.
      destruct (Retry.response e) as [status|]; [|discriminate].
      exists status. split; [reflexivity|].
      apply orb_false_iff in Hre as [Hge Heq].
      rewrite Z.geb_leb in Hge. apply Z.leb_gt in Hge.
      apply Z.eqb_neq in Heq. lia.
    + right. unfold Retry.maxRetries in *. simpl in *. lia.
  - intros e status Hfn Hresp Hlt Hne.
    simpl in Hrun. rewrite Hfn in Hrun.
    assert (Hre : Retry.isRetryableError e = false).
    { unfold Retry.isRetryableError. rewrite Hresp.
      apply orb_false_iff. split.
      - rewrite Z.geb_leb. apply Z.leb_gt. lia.
      - by apply Z.eqb_neq. }
    rewrite Hre in Hrun. simpl in Hrun. by injection Hrun as <- <-.
Qed.

Lemma retry_outcome_witness :
  (fun k => match k with
            | O => Retry.Rejected (Retry.mkError (Some 503))
            | _ => Retry.Resolved 7%nat
            end) (length [1000]) = Retry.Resolved 7%nat.
Proof.
  apply (proj1 (retry_outcome
                  (fun k => match k with
                            | O => Retry.Rejected (Retry.mkError (Some 503))
                            | _ => Retry.Resolved 7%nat
                            end)
                  (Retry.Resolved 7%nat) [1000] ltac:(evaluate))).
Defined.

(** ** The rental form *)

(** A timestamp is before a midnight exactly when its own day's midnight
    is. *)
Lemma before_midnight (clock : Server) (t x : Z) :
  t < dateOnly clock x <-> dateOnly clock t < dateOnly clock x.
Proof.
  unfold dateOnly, msPerDay.
  pose proof (Z.div_mod (t + tz clock) 86400000 ltac:(lia)).
  pose proof (Z.mod_pos_bound (t + tz clock) 86400000 ltac:(lia)).
  pose proof (Z.div_mod (x + tz clock) 86400000 ltac:(lia)).
  pose proof (Z.mod_pos_bound (x + tz clock) 86400000 ltac:(lia)).
  nia.
Qed.

(** X22. The date checks of the rental form and of [createRental] agree,
    when browser and server share clock and zone: the form stops a
    submission with 'Start date cannot be in the past', or with
    'End date must be after start date', exactly when the server would
    refuse the request with that same message; what the form lets through
    is never refused by the server for its dates.  (The form compares the
    start as it is with today's midnight, the server first brings the start
    to midnight.) *)
Theorem form_and_server_agree_on_dates (clock : Server) (b : Body.t)
    (st : Store) (start end_ : Z) :
  isValidObjectId_opt (Body.car b) = true ->
  isValidObjectId_opt (Body.client b) = true ->
  isValidObjectId_opt (Body.employee b) = true ->
  costRejected (Body.totalCost b) = false ->
  newDate (Body.startDate b) = Some start ->
  newDate (Body.endDate b) = Some end_ ->
  (Form.submitCheck clock (Some start) (Some end_)
   = Some (message StartInPast)
   <-> fst (createRental clock b st) = Err StartInPast)
  /\ (Form.submitCheck clock (Some start) (Some end_)
      = Some (message EndNotAfterStart)
      <-> fst (createRental clock b st) = Err EndNotAfterStart)
  /\ (Form.submitCheck clock (Some start) (Some end_) = None
      <-> fst (createRental clock b st) <> Err StartInPast
          /\ fst (createRental clock b st) <> Err EndNotAfterStart).
Proof.
  intros Hc Hcl Hem Hcost Hs He.
  unfold Form.submitCheck.
  destruct (Z.ltb_spec start (dateOnly clock (now clock))) as [Hpast|Hday].
  - assert (Hres : createRental clock b st = (Err StartInPast, st)).
    { unfold createRental, createRental_check.
      rewrite Hc, Hcl, Hem, Hcost, Hs, He. simpl.
      apply before_midnight in Hpast.
      destruct (Z.ltb_spec (dateOnly clock start)
                  (dateOnly clock (now clock))); [reflexivity|lia]. }
    rewrite Hres. simpl. repeat split; try done.
    intros [Habs _]. done.
  - assert (Hday' : dateOnly clock (now clock) <= dateOnly clock start).
    { destruct (Z.lt_ge_cases (dateOnly clock start)
                  (dateOnly clock (now clock))) as [Hx|Hx]; [|lia].
      apply before_midnight in Hx. lia. }
    destruct (Z.leb_spec end_ start) as [Hle|Hlt].
    + assert (Hres : createRental clock b st = (Err EndNotAfterStart, st)).
      { unfold createRental, createRental_check.
        rewrite Hc, Hcl, Hem, Hcost, Hs, He. simpl.
        destruct (Z.ltb_spec (dateOnly clock start)
                    (dateOnly clock (now clock))); [lia|].
        destruct (Z.leb_spec end_ start); [reflexivity|lia]. }
      rewrite Hres. simpl. repeat split; try done.
      intros [_ Habs]. done.
    + assert (Hne : forall e, fst (createRental clock b st) = Err e ->
                              e <> StartInPast /\ e <> EndNotAfterStart).
      { intros e. by apply (createRental_after_dates _ _ _ start end_). }
      repeat split; try done.
      all: intros Habs; by destruct (Hne _ Habs).
Qed.

Lemma form_and_server_agree_on_dates_witness :
  Form.submitCheck Fixture.utc (Some (Fixture.may 20 + Fixture.hours 8))
    (Some (Fixture.june 5)) = None
  <-> fst (createRental Fixture.utc
             (Fixture.booking Fixture.V1 (Fixture.may 20 + Fixture.hours 8)
                (Fixture.june 5) None) Fixture.depot) <> Err StartInPast
      /\ fst (createRental Fixture.utc
                (Fixture.booking Fixture.V1
                   (Fixture.may 20 + Fixture.hours 8) (Fixture.june 5) None)
                Fixture.depot) <> Err EndNotAfterStart.
Proof.
  apply (form_and_server_agree_on_dates Fixture.utc
           (Fixture.booking Fixture.V1 (Fixture.may 20 + Fixture.hours 8)
              (Fixture.june 5) None) Fixture.depot);
    evaluate.
Defined.

(** A car that [availableCars] keeps is not in maintenance, and, when the
    page knows every stored rental, the conflict query of the server (that
    of [createRental] for a new rental, that of [updateRental] for the rental
    being edited) selects no rental.  The filter is the stricter of the two:
    it also counts completed rentals. *)
Lemma availableCars_pass_queries (editingRental : option ObjectId)
    (carId : ObjectId) (car : Car.t) (newStart newEnd : Z)
    (cars : list (ObjectId * Car.t)) (known : list (ObjectId * Rental.t))
    (st : Store) :
  In (carId, car)
    (Form.availableCars editingRental (Some newStart) (Some newEnd) cars
       known) ->
  newStart <= newEnd ->
  (forall i r, rentals st !! i = Some r -> In (i, r) known) ->
  (forall i r, rentals st !! i = Some r ->
               Rental.startDate r <= Rental.endDate r) ->
  In (carId, car) cars
  /\ Car.status car <> maintenance
  /\ forall i r,
       rentals st !! i = Some r ->
       match editingRental with
       | None => createQuery carId newStart newEnd i r
       | Some rid => updateQuery rid carId newStart newEnd i r
       end = false.
Proof.
  intros Hin Hle Hknown Hwf. unfold Form.availableCars in Hin.
  apply filter_In in Hin as [Hin Hkeep].
  split; [exact Hin|].
  destruct (bool_decide (Car.status car = maintenance)) eqn:Hm;
    [discriminate|].
  apply bool_decide_eq_false in Hm. split; [exact Hm|].
  apply negb_true_iff in Hkeep.
  intros i r Hlk.
  assert (Hpred : (if bool_decide (editingRental = Some i) then false
                   else if negb (bool_decide (Rental.car r = carId))
                        then false
                        else if bool_decide (Rental.status r = cancelled)
                             then false
                             else (newStart <=? Rental.endDate r)
                                  && (newEnd >=? Rental.startDate r))
                  = false).
  { destruct (_ : bool) eqn:Hp in |- *; [|reflexivity].
    exfalso. unfold Form.hasConflict in Hkeep.
    assert (Hex : existsb
              (fun '(i, rental) =>
                 if bool_decide (editingRental = Some i) then false
                 else if negb (bool_decide (Rental.car rental = carId))
                      then false
                      else if bool_decide (Rental.status rental = cancelled)
                           then false
                           else (newStart <=? Rental.endDate rental)
                                && (newEnd >=? Rental.startDate rental))
              known = true).
    { apply existsb_exists. exists (i, r). split; [by apply Hknown|].
      exact Hp. }
    congruence. }
  assert (Hq : Rental.car r = carId -> Rental.status r = active ->
               editingRental <> Some i ->
               overlapQuery newStart newEnd r = false).
  { intros Hc Ha He.
    rewrite (bool_decide_eq_false_2 _ He), (bool_decide_eq_true_2 _ Hc)
      in Hpred.
    simpl in Hpred.
    rewrite bool_decide_eq_false_2 in Hpred by (rewrite Ha; discriminate).
    destruct (overlapQuery newStart newEnd r) eqn:Hov; [|reflexivity].
    apply overlapQuery_true in Hov. specialize (Hwf _ _ Hlk).
    apply andb_false_iff in Hpred.
    rewrite Z.leb_gt, Z.geb_leb, Z.leb_gt in Hpred. lia. }
  clear Hpred. destruct editingRental as [rid|].
  - unfold updateQuery.
    destruct (bool_decide (i <> rid)) eqn:Hi; [|reflexivity].
    destruct (bool_decide (Rental.car r = carId)) eqn:Hc; [|reflexivity].
    destruct (bool_decide (Rental.status r = active)) eqn:Ha; [|reflexivity].
    apply bool_decide_eq_true in Hi, Hc, Ha.
    simpl. apply Hq; congruence.
  - unfold createQuery.
    destruct (bool_decide (Rental.car r = carId)) eqn:Hc; [|reflexivity].
    destruct (bool_decide (Rental.status r = active)) eqn:Ha; [|reflexivity].
    apply bool_decide_eq_true in Hc, Ha.
    simpl. apply Hq; congruence.
Qed.


(** X23. The cars the form offers.  For a new rental the select lists the
    cars [availableCars] keeps: an offered car is not in maintenance, and,
    when the page knows every stored rental, the conflict query of
    [createRental] selects no rental for the chosen dates.  When a rental is
    being edited the select lists every car, whatever its status and its
    rentals, so what the form offers there may be refused by the server. *)
Theorem offered_car_passes_server_checks (carId : ObjectId) (car : Car.t)
    (newStart newEnd : Z) (cars : list (ObjectId * Car.t))
    (known : list (ObjectId * Rental.t)) (st : Store) :
  (In (carId, car)
     (Form.carOptions None (Some newStart) (Some newEnd) cars known) ->
   newStart <= newEnd ->
   (forall i r, rentals st !! i = Some r -> In (i, r) known) ->
   (forall i r, rentals st !! i = Some r ->
                Rental.startDate r <= Rental.endDate r) ->
   In (carId, car) cars
   /\ Car.status car <> maintenance
   /\ forall i r,
        rentals st !! i = Some r ->
        createQuery carId newStart newEnd i r = false)
  /\ (forall rid,
        Form.carOptions (Some rid) (Some newStart) (Some newEnd) cars known
        = cars).
Proof.
  split; [|reflexivity].
  intros Hin Hle Hknown Hwf.
  exact (availableCars_pass_queries None carId car newStart newEnd cars known
           st Hin Hle Hknown Hwf).
Qed.

Lemma offered_car_passes_server_checks_witness :
  In (Fixture.idV1, Car.mk available)
    [(Fixture.idV1, Car.mk available); (Fixture.idV2, Car.mk maintenance)]
  /\ Car.status (Car.mk available) <> maintenance
  /\ forall i r,
       rentals Sample.garage !! i = Some r ->
       createQuery Fixture.idV1 (Fixture.june 10) (Fixture.june 12) i r
       = false.
Proof.
  apply (proj1 (offered_car_passes_server_checks Fixture.idV1
                  (Car.mk available) (Fixture.june 10) (Fixture.june 12)
                  [(Fixture.idV1, Car.mk available);
                   (Fixture.idV2, Car.mk maintenance)]
                  [(0%N, Fixture.juneRental)] Sample.garage)).
  - vm_compute. left. reflexivity.
  - evaluate.
  - intros i r Hlk. simpl in Hlk.
    apply lookup_singleton_Some in Hlk as [<- <-]. left. reflexivity.
  - intros i r Hlk. simpl in Hlk.
    apply lookup_singleton_Some in Hlk as [<- <-]. evaluate.
Defined.

(** In edit mode the form offers a car in maintenance, and the server
    refuses the amendment that names it. *)
Example edit_mode_offers_unavailable_car :
  In (Fixture.idV2, Car.mk maintenance)
    (Form.carOptions (Some 0%N) (Some (Fixture.june 1))
       (Some (Fixture.june 5))
       [(Fixture.idV1, Car.mk available); (Fixture.idV2, Car.mk maintenance)]
       [(0%N, Fixture.juneRental)])
  /\ fst (handle Fixture.utc
            (PUT (Fixture.rid 0%N)
               (Fixture.booking Fixture.V2 (Fixture.june 1) (Fixture.june 5)
                  None))
            Sample.garage)
     = Err CarInMaintenance.
Proof. split; [vm_compute; tauto|evaluate]. Qed.

(** ** Escaping *)

Lemma occurs_app (c : ascii) (s t : string) :
  occurs c (s ++ t) = occurs c s || occurs c t.
Proof.
  induction s as [|x s IH]; simpl; [reflexivity|].
  by rewrite IH, orb_assoc.
Qed.

(** A replacement removes the character it replaces, when the replacement
    text is free of it. *)
Lemma replaceAll_removes (c : ascii) (by_ value : string) :
  occurs c by_ = false -> occurs c (replaceAll c by_ value) = false.
Proof.
  intros Hby. induction value as [|x rest IH]; simpl; [reflexivity|].
  destruct (Ascii.eqb x c) eqn:Hx.
  - by rewrite occurs_app, Hby, IH.
  - simpl. by rewrite Hx, IH.
Qed.

(** A replacement brings in no character that is in neither the text nor
    the replacement. *)
Lemma replaceAll_keeps_out (d c : ascii) (by_ value : string) :
  occurs d by_ = false -> occurs d value = false ->
  occurs d (replaceAll c by_ value) = false.
Proof.
  intros Hby. induction value as [|x rest IH]; simpl; [reflexivity|].
  intros Hd. apply orb_false_iff in Hd as [Hx Hrest].
  destruct (Ascii.eqb x c).
  - by rewrite occurs_app, Hby, IH.
  - simpl. by rewrite Hx, IH.
Qed.

Lemma replaceAll_absent (c : ascii) (by_ value : string) :
  occurs c value = false -> replaceAll c by_ value = value.
Proof.
  induction value as [|x rest IH]; simpl; [reflexivity|].
  intros Hc. apply orb_false_iff in Hc as [Hx Hrest].
  by rewrite Hx, IH.
Qed.

(** X24. What [escapeHtml] returns holds none of the characters <, >, the
    double quote, the single quote and /, whatever the input; and a string
    that holds none of them and no ampersand is returned as it is. *)
Theorem escapeHtml_output (value : string) :
  (forall c, In c markupChars -> occurs c (escapeHtml value) = false)
  /\ (occurs "&" value = false ->
      (forall c, In c markupChars -> occurs c value = false) ->
      escapeHtml value = value).
Proof.
  split.
  - intros c Hc. unfold escapeHtml. simpl in Hc.
    destruct Hc as [<-|[<-|[<-|[<-|[<-|[]]]]]].
    + do 4 (apply replaceAll_keeps_out; [reflexivity|]).
      by apply replaceAll_removes.
    + do 3 (apply replaceAll_keeps_out; [reflexivity|]).
      by apply replaceAll_removes.
    + do 2 (apply replaceAll_keeps_out; [reflexivity|]).
      by apply replaceAll_removes.
    + apply replaceAll_keeps_out; [reflexivity|].
      by apply replaceAll_removes.
    + by apply replaceAll_removes.
  - intros Hamp Hclean. unfold escapeHtml.
    rewrite (replaceAll_absent "&") by assumption.
    rewrite (replaceAll_absent "<") by (apply Hclean; simpl; auto).
    rewrite (replaceAll_absent ">") by (apply Hclean; simpl; auto).
    rewrite (replaceAll_absent dquote) by (apply Hclean; simpl; auto).
    rewrite (replaceAll_absent "'") by (apply Hclean; simpl; auto).
    apply replaceAll_absent. apply Hclean. simpl. auto 10.
Qed.

Lemma escapeHtml_output_witness :
  escapeHtml "Fiat 500" = "Fiat 500"%string.
Proof.
  apply (proj2 (escapeHtml_output "Fiat 500")); [reflexivity|].
  intros c Hc. simpl in Hc.
  destruct Hc as [<-|[<-|[<-|[<-|[<-|[]]]]]]; reflexivity.
Defined.

(** ** The properties at work on the fixtures *)


Lemma refused_requests_write_nothing_witness :
  snd (handle Fixture.utc
         (POST (Fixture.booking Fixture.V1 (Fixture.june 4) (Fixture.june 6)
                  None))
         Fixture.oneBooking)
  = Fixture.oneBooking.
Proof.
  apply (proj1 (proj2 (proj2 (proj2
           (refused_requests_write_nothing Fixture.utc Fixture.oneBooking))))
           _ AlreadyBooked).
  evaluate.
Defined.

Lemma requests_touch_one_rental_witness :
  rentals Fixture.oneBooking !! 1%N = None
  /\ rentals (snd (createRental Fixture.utc Sample.stayV2 Fixture.oneBooking))
       !! 1%N
     = Some (Fixture.stored Fixture.idV2 (Fixture.june 10) (Fixture.june 12)
               active)
  /\ (forall j, j <> 1%N ->
                rentals (snd (createRental Fixture.utc Sample.stayV2
                                Fixture.oneBooking)) !! j
                = rentals Fixture.oneBooking !! j)
  /\ size (rentals (snd (createRental Fixture.utc Sample.stayV2
                           Fixture.oneBooking)))
     = S (size (rentals Fixture.oneBooking)).
Proof.
  apply (proj1 (requests_touch_one_rental Fixture.utc Fixture.oneBooking
                  (snd (createRental Fixture.utc Sample.stayV2
                          Fixture.oneBooking)))
           Sample.stayV2).
  evaluate.
Defined.

Lemma validateEnv_spec_witness :
  exists missingVars,
    ("Missing required environment variable(s): PORT, FRONTEND_URL"%string
     = ("Missing required environment variable(s): "
        ++ join ", " missingVars)%string)
    /\ missingVars
       = List.filter
           (unset {[ "MONGODB_URI"%string := "mongodb://db"%string;
                     "NODE_ENV"%string := "production"%string;
                     "PORT"%string := EmptyString ]})
           requiredEnvVars
    /\ missingVars <> []
    /\ forall v,
         In v missingVars <->
         In v requiredEnvVars
         /\ (({[ "MONGODB_URI"%string := "mongodb://db"%string;
                 "NODE_ENV"%string := "production"%string;
                 "PORT"%string := EmptyString ]} : gmap string string) !! v
             = None
             \/ ({[ "MONGODB_URI"%string := "mongodb://db"%string;
                    "NODE_ENV"%string := "production"%string;
                    "PORT"%string := EmptyString ]} : gmap string string)
                  !! v
                = Some EmptyString).
Proof.
  apply (proj2 (validateEnv_spec
                  {[ "MONGODB_URI"%string := "mongodb://db"%string;
                     "NODE_ENV"%string := "production"%string;
                     "PORT"%string := EmptyString ]})).
  evaluate.
Defined.
